(** * Election state machine, vote tally and block processor of the node

    A shallow embedding of [nano/node/election.cpp] and of the block
    processor ([nano::block_processor]), with the properties of the
    consensus core stated over it. The commit loop of the block processor,
    the paced broadcasts of [nano::network] and the candidates of the
    optimistic scheduler follow in modules of their own.

    Conventions of the embedding:
    - [nano::uint128_t] amounts, [uint64_t] vote timestamps, accounts and
      block hashes are values of [N]; arithmetic on amounts is written with
      its wrap-around modulo [2^128].
    - [uint256_union::operator<] compares the 32 bytes of a hash from the
      most significant one, which is the order of the numbers they encode;
      hashes are compared with [N.ltb].
    - [std::chrono::steady_clock] readings are integers ([Z]) counting
      nanoseconds.
    - [std::unordered_map] members are [gmap]s; where the source iterates
      over one, the embedding iterates over [map_to_list].
    - the collaborators reached through [node] are read from a record
      [node_t], one snapshot per call; calls made on them are appended to
      the [trace] of the election, oldest first.
    - the per-election mutex is not modelled: every member function runs to
      completion before the next one starts.
    - [debug_assert] is compiled out (release build); [release_assert]
      aborts.
    - log lines, the wall-clock [election_end] of the status and the
      [narrow_cast]s of the counters copied into it are left out. *)

From Stdlib Require Import ZArith NArith Lia Bool Sorted.
From stdpp Require Import base option list gmap fin_maps.

Open Scope N_scope.

(** ** Machine integers *)

Definition uint128_modulus : N := 2 ^ 128.
Definition uint64_max : N := 2 ^ 64 - 1.

Definition wrap128 (x : N) : N := x mod uint128_modulus.
Definition add128 (a b : N) : N := wrap128 (a + b).
(** [a - b] on [uint128_t]: wraps around when [a < b]. *)
Definition sub128 (a b : N) : N := wrap128 (a + uint128_modulus - wrap128 b).

(** ** Results of code that may stop *)

Inductive fault : Set :=
| release_assert_failed   (* [release_assert] aborted the process *)
| undefined_behaviour.    (* an end iterator was dereferenced *)

Inductive outcome (A : Type) : Type :=
| Ok (a : A)
| Err (f : fault).
Arguments Ok {A} a.
Arguments Err {A} f.

#[global] Instance outcome_ret : MRet outcome := fun A a => Ok a.
#[global] Instance outcome_bind : MBind outcome := fun A B k m =>
  match m with
  | Ok a => k a
  | Err f => Err f
  end.

(** ** Blocks *)

Inductive block_type : Set :=
| bt_send | bt_receive | bt_open | bt_change | bt_state.

Definition block_type_eqb (a b : block_type) : bool :=
  match a, b with
  | bt_send, bt_send | bt_receive, bt_receive | bt_open, bt_open
  | bt_change, bt_change | bt_state, bt_state => true
  | _, _ => false
  end.

(** What the code reads from a [nano::block]: one field per accessor. *)
Module block.
Record t : Set := {
  hash : N;
  type : block_type;
  previous : N;
  account : N;
  link : N;
  destination : N;
  root : N;
  qualified_root : N;
  work : N;
  is_send : bool;       (* sideband ().details ().is_send () *)
  epoch : N;            (* sideband ().details ().epoch () *)
  height : N            (* sideband ().height () *)
}.
End block.

(** ** The collaborators of an election, as one call sees them *)

Record node_t : Type := {
  is_dev_network : bool;
  ledger_weight : N -> N;                   (* node.ledger.weight *)
  minimum_principal_weight : N;
  online_reps_trended : N;
  online_reps_delta : N;
  block_confirmed : N -> bool;              (* node.block_confirmed *)
  enable_voting : bool;
  wallets_reps_voting : N;
  history_votes : N -> N -> list N;         (* voters of node.history.votes (root, hash) *)
  final_votes_confirmation_canary : bool;
  election_winner_details_count : N -> N;   (* node.active.election_winner_details.count *)
  inactive_vote_cache_find : N -> option N; (* tally of the cached entry, if any *)
  vote_broadcast_interval : Z;              (* milliseconds *)
  solicitor_add : bool;                     (* result of solicitor_a.add (true: not sent) *)
  solicitor_broadcast : bool;               (* result of solicitor_a.broadcast *)
  election_expiration_tally_logging : bool;
  now : Z                                   (* steady_clock::now (), nanoseconds *)
}.

Module election.

(** [nano::election::state_t] *)
Module state_t.
Inductive t : Set :=
| passive | active | confirmed | expired_confirmed | expired_unconfirmed.

Definition eqb (a b : t) : bool :=
  match a, b with
  | passive, passive | active, active | confirmed, confirmed
  | expired_confirmed, expired_confirmed
  | expired_unconfirmed, expired_unconfirmed => true
  | _, _ => false
  end.
End state_t.

Inductive election_behavior : Set := normal | hinted | optimistic.

Inductive vote_source : Set := live | cache.

Inductive election_status_type : Set :=
| ongoing | active_confirmed_quorum | active_confirmation_height
| inactive_confirmation_height | stopped.

Record election_vote_result : Set := {
  replay : bool;
  processed : bool
}.

Record vote_info : Set := {
  time : Z;
  timestamp : N;
  vote_hash : N
}.

Record election_status : Set := {
  winner : block.t;
  tally_amount : N;
  final_tally : N;
  confirmation_request_count_s : N;
  block_count : N;
  voter_count : N;
  election_duration : Z;
  election_status_type_s : election_status_type
}.

(** [nano::tally_t]: a [std::multimap] from amount to block ordered by
    [std::greater], listed from [begin ()]. *)
Definition tally_t : Set := list (N * block.t).

(** Calls made on collaborators. *)
Inductive effect : Set :=
| block_processor_force (b : block.t)
| final_generator_add (root_a hash_a : N)
| generator_add (root_a hash_a : N)
| winner_details_emplace (hash_a : N)
| background_process_confirmed (s : election_status)
| history_erase (root_a : N)
| active_erase_hash (hash_a : N)
| publish_filter_clear (b : block.t)
| flood_block (b : block.t)
| live_vote_action (rep : N)
| stat_vote_new
| stat_vote_cached
| stat_generate_vote
| stat_generate_vote_final
| stat_generate_vote_normal.

Record t : Type := {
  behavior_m : election_behavior;
  status : election_status;
  height : N;
  root : N;
  qualified_root : N;
  state_m : state_t.t;
  state_start : Z;
  election_start : Z;
  last_req : Z;
  last_block : Z;
  last_vote : Z;
  confirmation_request_count : N;
  last_votes : gmap N vote_info;
  last_blocks : gmap N block.t;
  last_tally : gmap N N;
  final_weight : N;
  is_quorum : bool;
  trace : list effect
}.

Definition set_status (f : election_status -> election_status) (e : t) : t :=
  {| behavior_m := behavior_m e; status := f (status e);
     height := height e; root := root e;
     qualified_root := qualified_root e; state_m := state_m e;
     state_start := state_start e; election_start := election_start e;
     last_req := last_req e; last_block := last_block e;
     last_vote := last_vote e;
     confirmation_request_count := confirmation_request_count e;
     last_votes := last_votes e; last_blocks := last_blocks e;
     last_tally := last_tally e; final_weight := final_weight e;
     is_quorum := is_quorum e; trace := trace e |}.

Definition set_state (s : state_t.t) (start : Z) (e : t) : t :=
  {| behavior_m := behavior_m e; status := status e;
     height := height e; root := root e;
     qualified_root := qualified_root e; state_m := s;
     state_start := start; election_start := election_start e;
     last_req := last_req e; last_block := last_block e;
     last_vote := last_vote e;
     confirmation_request_count := confirmation_request_count e;
     last_votes := last_votes e; last_blocks := last_blocks e;
     last_tally := last_tally e; final_weight := final_weight e;
     is_quorum := is_quorum e; trace := trace e |}.

Definition set_clocks (req blk vot : Z) (count : N) (e : t) : t :=
  {| behavior_m := behavior_m e; status := status e;
     height := height e; root := root e;
     qualified_root := qualified_root e; state_m := state_m e;
     state_start := state_start e; election_start := election_start e;
     last_req := req; last_block := blk; last_vote := vot;
     confirmation_request_count := count;
     last_votes := last_votes e; last_blocks := last_blocks e;
     last_tally := last_tally e; final_weight := final_weight e;
     is_quorum := is_quorum e; trace := trace e |}.

Definition set_last_votes (m : gmap N vote_info) (e : t) : t :=
  {| behavior_m := behavior_m e; status := status e;
     height := height e; root := root e;
     qualified_root := qualified_root e; state_m := state_m e;
     state_start := state_start e; election_start := election_start e;
     last_req := last_req e; last_block := last_block e;
     last_vote := last_vote e;
     confirmation_request_count := confirmation_request_count e;
     last_votes := m; last_blocks := last_blocks e;
     last_tally := last_tally e; final_weight := final_weight e;
     is_quorum := is_quorum e; trace := trace e |}.

Definition set_last_blocks (m : gmap N block.t) (e : t) : t :=
  {| behavior_m := behavior_m e; status := status e;
     height := height e; root := root e;
     qualified_root := qualified_root e; state_m := state_m e;
     state_start := state_start e; election_start := election_start e;
     last_req := last_req e; last_block := last_block e;
     last_vote := last_vote e;
     confirmation_request_count := confirmation_request_count e;
     last_votes := last_votes e; last_blocks := m;
     last_tally := last_tally e; final_weight := final_weight e;
     is_quorum := is_quorum e; trace := trace e |}.

Definition set_tally_cache (lt : gmap N N) (fw : N) (e : t) : t :=
  {| behavior_m := behavior_m e; status := status e;
     height := height e; root := root e;
     qualified_root := qualified_root e; state_m := state_m e;
     state_start := state_start e; election_start := election_start e;
     last_req := last_req e; last_block := last_block e;
     last_vote := last_vote e;
     confirmation_request_count := confirmation_request_count e;
     last_votes := last_votes e; last_blocks := last_blocks e;
     last_tally := lt; final_weight := fw;
     is_quorum := is_quorum e; trace := trace e |}.

Definition set_is_quorum (q : bool) (e : t) : t :=
  {| behavior_m := behavior_m e; status := status e;
     height := height e; root := root e;
     qualified_root := qualified_root e; state_m := state_m e;
     state_start := state_start e; election_start := election_start e;
     last_req := last_req e; last_block := last_block e;
     last_vote := last_vote e;
     confirmation_request_count := confirmation_request_count e;
     last_votes := last_votes e; last_blocks := last_blocks e;
     last_tally := last_tally e; final_weight := final_weight e;
     is_quorum := q; trace := trace e |}.

(** Append calls on collaborators to the trace. *)
Definition emit (evs : list effect) (e : t) : t :=
  {| behavior_m := behavior_m e; status := status e;
     height := height e; root := root e;
     qualified_root := qualified_root e; state_m := state_m e;
     state_start := state_start e; election_start := election_start e;
     last_req := last_req e; last_block := last_block e;
     last_vote := last_vote e;
     confirmation_request_count := confirmation_request_count e;
     last_votes := last_votes e; last_blocks := last_blocks e;
     last_tally := last_tally e; final_weight := final_weight e;
     is_quorum := is_quorum e; trace := trace e ++ evs |}.

Definition set_winner (b : block.t) (s : election_status) : election_status :=
  {| winner := b; tally_amount := tally_amount s; final_tally := final_tally s;
     confirmation_request_count_s := confirmation_request_count_s s;
     block_count := block_count s; voter_count := voter_count s;
     election_duration := election_duration s;
     election_status_type_s := election_status_type_s s |}.

Definition set_tallies (tl ftl : N) (s : election_status) : election_status :=
  {| winner := winner s; tally_amount := tl; final_tally := ftl;
     confirmation_request_count_s := confirmation_request_count_s s;
     block_count := block_count s; voter_count := voter_count s;
     election_duration := election_duration s;
     election_status_type_s := election_status_type_s s |}.

Definition set_election_status_type (ty : election_status_type)
    (s : election_status) : election_status :=
  {| winner := winner s; tally_amount := tally_amount s;
     final_tally := final_tally s;
     confirmation_request_count_s := confirmation_request_count_s s;
     block_count := block_count s; voter_count := voter_count s;
     election_duration := election_duration s;
     election_status_type_s := ty |}.

(** ** State changes *)

Definition valid_change (expected_a desired_a : state_t.t) : bool :=
  match expected_a with
  | state_t.passive =>
      match desired_a with
      | state_t.active | state_t.confirmed | state_t.expired_unconfirmed => true
      | _ => false
      end
  | state_t.active =>
      match desired_a with
      | state_t.confirmed | state_t.expired_unconfirmed => true
      | _ => false
      end
  | state_t.confirmed =>
      match desired_a with
      | state_t.expired_confirmed => true
      | _ => false
      end
  | state_t.expired_unconfirmed | state_t.expired_confirmed => false
  end.

(** [state_m.compare_exchange_strong (expected_a, desired_a)] stores
    [desired_a] when the state equals [expected_a]. *)
Definition state_change (n : node_t) (expected_a desired_a : state_t.t) (e : t)
    : bool * t :=
  if valid_change expected_a desired_a then
    if state_t.eqb (state_m e) expected_a then
      (false, set_state desired_a (now n) e)
    else (true, e)
  else (true, e).

(** ** Construction *)

(** Modelled from the spec: the in-class member initialisers of
    [election.hpp], which is not among the sources. An election starts in
    [passive] (section 4.2), with its counters at zero, no quorum seen and
    its clocks read at construction; [last_req] and [last_vote] start at the
    epoch. The candidate cap [max_blocks] is 10 (section 3). The passive
    phase is taken to last 5 base latencies; no statement below depends on
    that factor. *)
Definition max_blocks : nat := 10.
Definition passive_duration_factor : Z := 5.

Definition initial_status : election_status :=
  {| winner := {| block.hash := 0; block.type := bt_state; block.previous := 0;
                  block.account := 0; block.link := 0; block.destination := 0;
                  block.root := 0; block.qualified_root := 0; block.work := 0;
                  block.is_send := false; block.epoch := 0; block.height := 0 |};
     tally_amount := 0; final_tally := 0; confirmation_request_count_s := 0;
     block_count := 0; voter_count := 0; election_duration := 0%Z;
     election_status_type_s := ongoing |}.

Definition set_block_count (c : N) (s : election_status) : election_status :=
  {| winner := winner s; tally_amount := tally_amount s;
     final_tally := final_tally s;
     confirmation_request_count_s := confirmation_request_count_s s;
     block_count := c; voter_count := voter_count s;
     election_duration := election_duration s;
     election_status_type_s := election_status_type_s s |}.

(** [nano::election::election]; [nano::account::null ()] is account 0. *)
Definition make (n : node_t) (block_a : block.t)
    (election_behavior_a : election_behavior) : t :=
  {| behavior_m := election_behavior_a;
     status := set_election_status_type ongoing
                 (set_block_count 1 (set_winner block_a initial_status));
     height := block.height block_a;
     root := block.root block_a;
     qualified_root := block.qualified_root block_a;
     state_m := state_t.passive;
     state_start := now n;
     election_start := now n;
     last_req := 0%Z;
     last_block := now n;
     last_vote := 0%Z;
     confirmation_request_count := 0;
     last_votes := {[ 0 := {| time := now n; timestamp := 0;
                              vote_hash := block.hash block_a |} ]};
     last_blocks := {[ block.hash block_a := block_a ]};
     last_tally := ∅;
     final_weight := 0;
     is_quorum := false;
     trace := [] |}.

(** ** Clock units *)

Definition ms : Z := 1000000.
Definition seconds : Z := 1000000000.

(** ** Confirmation *)

(** [state_m.exchange (confirmed)] stores [confirmed] whatever the state
    was; the winner-details lookup is only evaluated when the state was not
    [confirmed] already. The wall-clock [election_end] is not kept; the
    duration is cast to whole milliseconds, towards zero. *)
Definition confirm_once (n : node_t) (type_a : election_status_type) (e : t) : t :=
  let previous_state := state_m e in
  let e1 := set_state state_t.confirmed (state_start e) e in
  let winner_hash := block.hash (winner (status e1)) in
  if negb (state_t.eqb previous_state state_t.confirmed)
     && (election_winner_details_count n winner_hash =? 0)
  then
    let e2 := emit [winner_details_emplace winner_hash] e1 in
    let e3 := set_status (fun s =>
        {| winner := winner s; tally_amount := tally_amount s;
           final_tally := final_tally s;
           confirmation_request_count_s := confirmation_request_count e2;
           block_count := N.of_nat (size (last_blocks e2));
           voter_count := N.of_nat (size (last_votes e2));
           election_duration := Z.quot (now n - election_start e2) ms;
           election_status_type_s := type_a |}) e2 in
    emit [background_process_confirmed (status e3)] e3
  else e1.

(** [confirmed (lock)] *)
Definition confirmed (n : node_t) (e : t) : bool :=
  block_confirmed n (block.hash (winner (status e))).

Definition status_confirmed (e : t) : bool :=
  state_t.eqb (state_m e) state_t.confirmed
  || state_t.eqb (state_m e) state_t.expired_confirmed.

Definition failed (e : t) : bool :=
  state_t.eqb (state_m e) state_t.expired_unconfirmed.

(** ** Timing constants *)

Definition base_latency (n : node_t) : Z :=
  if is_dev_network n then (25 * ms)%Z else (1000 * ms)%Z.

Definition confirm_req_time (n : node_t) (e : t) : Z :=
  match behavior_m e with
  | normal | hinted => (base_latency n * 5)%Z
  | optimistic => (base_latency n * 2)%Z
  end.

Definition time_to_live (e : t) : Z :=
  match behavior_m e with
  | normal => (5 * 60 * 1000 * ms)%Z
  | hinted | optimistic => (30 * 1000 * ms)%Z
  end.

(** The cooldown, in seconds. *)
Definition cooldown_time (n : node_t) (weight : N) : Z :=
  let online_stake := online_reps_trended n in
  if online_stake / 20 <? weight then 1%Z
  else if online_stake / 100 <? weight then 5%Z
  else 15%Z.

(** ** Tally *)

(** Modelled from the spec: "an ordered structure keyed descending by
    accumulated weight, each entry paired with its candidate block".
    [nano::tally_t] is declared in [election.hpp]; [tally_a.emplace (amount,
    block)] is taken to keep every pair, a new one after the entries that
    are not smaller, as a [std::multimap] ordered by [std::greater] does. A
    container with unique keys would keep the first pair of every amount
    only. *)
Fixpoint tally_emplace (amount : N) (b : block.t) (tl : tally_t) : tally_t :=
  match tl with
  | [] => [(amount, b)]
  | (a', b') :: rest =>
      if a' <? amount then (amount, b) :: tl
      else (a', b') :: tally_emplace amount b rest
  end.

Definition have_quorum (n : node_t) (tally_a : tally_t) : outcome bool :=
  match tally_a with
  | [] => Err undefined_behaviour
  | (first, _) :: i =>
      let second := match i with (w, _) :: _ => w | [] => 0 end in
      let delta_l := online_reps_delta n in
      if first <? second then Err release_assert_failed
      else Ok (delta_l <=? sub128 first second)
  end.

(** [weights[hash] += amount] *)
Definition add_weight (weights : gmap N N) (hash_a amount : N) : gmap N N :=
  <[ hash_a := add128 (default 0 (weights !! hash_a)) amount ]> weights.

(** The body of the first loop of [tally_impl]: the weight of one voter
    goes to the voted hash, and to its final weight for a final vote. *)
Definition count_vote (n : node_t) (acc : gmap N N * gmap N N)
    (av : N * vote_info) : gmap N N * gmap N N :=
  let rep_weight := ledger_weight n av.1 in
  (add_weight acc.1 (vote_hash av.2) rep_weight,
   if timestamp av.2 =? uint64_max
   then add_weight acc.2 (vote_hash av.2) rep_weight
   else acc.2).

Definition vote_weights (n : node_t) (votes : list (N * vote_info))
    : gmap N N * gmap N N :=
  foldl (count_vote n) (∅, ∅) votes.

(** The body of the second loop: an entry for a hash whose block the
    election still holds. *)
Definition tally_entry (blocks : gmap N block.t) (result : tally_t)
    (ha : N * N) : tally_t :=
  match blocks !! ha.1 with
  | Some b => tally_emplace ha.2 b result
  | None => result
  end.

Definition tally_of (blocks : gmap N block.t) (weights : list (N * N)) : tally_t :=
  foldl (tally_entry blocks) [] weights.

Definition map_is_empty {V : Type} (m : gmap N V) : bool :=
  match map_to_list m with [] => true | _ :: _ => false end.

(** [tally_impl]: returns the tally and stores the [mutable] [last_tally]
    and [final_weight]. *)
Definition tally_impl (n : node_t) (e : t) : tally_t * t :=
  let weights := vote_weights n (map_to_list (last_votes e)) in
  let block_weights := weights.1 in
  let final_weights_l := weights.2 in
  let result := tally_of (last_blocks e) (map_to_list block_weights) in
  let final_weight' :=
    match result with
    | (_, winner_block) :: _ =>
        if negb (map_is_empty final_weights_l) then
          match final_weights_l !! block.hash winner_block with
          | Some w => w
          | None => final_weight e
          end
        else final_weight e
    | [] => final_weight e
    end in
  (result, set_tally_cache block_weights final_weight' e).

Definition remove_votes (n : node_t) (hash_a : N) (e : t) : t :=
  if enable_voting n && (0 <? wallets_reps_voting n) then
    emit [history_erase (root e)]
      (set_last_votes
         (foldl (fun votes voter => delete voter votes) (last_votes e)
                (history_votes n (root e) hash_a))
         e)
  else e.

(** The first branch of [confirm_if_quorum]: a new best block replaces
    the recorded winner once the tallied weight reaches the delta. *)
Definition promote_winner (n : node_t) (tally_l : tally_t) (block_l : block.t)
    (e : t) : t :=
  let winner_hash_l := block.hash block_l in
  let status_winner_hash_l := block.hash (winner (status e)) in
  let sum := foldl (fun acc i => add128 acc i.1) 0 tally_l in
  if (online_reps_delta n <=? sum)
     && negb (winner_hash_l =? status_winner_hash_l)
  then emit [block_processor_force block_l]
         (remove_votes n status_winner_hash_l
            (set_status (set_winner block_l) e))
  else e.

(** The final vote of this node, requested once: [is_quorum.exchange (true)]
    is evaluated only when the canary holds. *)
Definition request_final_vote (n : node_t) (e : t) : t :=
  if final_votes_confirmation_canary n then
    let seen := is_quorum e in
    let e' := set_is_quorum true e in
    if negb seen && enable_voting n && (0 <? wallets_reps_voting n)
    then emit [final_generator_add (root e') (block.hash (winner (status e')))] e'
    else e'
  else e.

Definition confirm_if_quorum (n : node_t) (e : t) : outcome t :=
  let (tally_l, e1) := tally_impl n e in
  match tally_l with
  | [] => Err undefined_behaviour
  | (winner_amount, block_l) :: _ =>
      let e2 := set_status (set_tallies winner_amount (final_weight e1)) e1 in
      let e3 := promote_winner n tally_l block_l e2 in
      quorum ← have_quorum n tally_l;
      if quorum : bool then
        let e4 := request_final_vote n e3 in
        if negb (final_votes_confirmation_canary n)
           || (online_reps_delta n <=? final_weight e4)
        then Ok (confirm_once n active_confirmed_quorum e4)
        else Ok e4
      else Ok e3
  end.

(** ** Votes *)

(** The tail of [vote]: the vote passed every check and is recorded. *)
Definition record_vote (n : node_t) (rep timestamp_a block_hash_a : N)
    (vote_source_a : vote_source) (e : t) : outcome (election_vote_result * t) :=
  let e1 := set_last_votes
              (<[ rep := {| time := now n; timestamp := timestamp_a;
                            vote_hash := block_hash_a |} ]> (last_votes e)) e in
  let e2 := match vote_source_a with
            | live => emit [live_vote_action rep; stat_vote_new] e1
            | cache => emit [stat_vote_cached] e1
            end in
  e3 ← (if negb (confirmed n e2) then confirm_if_quorum n e2 else Ok e2);
  Ok ({| replay := false; processed := true |}, e3).

Definition vote (n : node_t) (rep timestamp_a block_hash_a : N)
    (vote_source_a : vote_source) (e : t) : outcome (election_vote_result * t) :=
  let weight := ledger_weight n rep in
  if negb (is_dev_network n) && (weight <=? minimum_principal_weight n) then
    Ok ({| replay := false; processed := false |}, e)
  else
    match last_votes e !! rep with
    | Some last_vote_l =>
        if timestamp_a <? timestamp last_vote_l then
          Ok ({| replay := true; processed := false |}, e)
        else if (timestamp last_vote_l =? timestamp_a)
                && negb (vote_hash last_vote_l <? block_hash_a) then
          Ok ({| replay := true; processed := false |}, e)
        else
          let max_vote := (timestamp_a =? uint64_max)
                          && (timestamp last_vote_l <? timestamp_a) in
          let past_cooldown :=
            match vote_source_a with
            | live => (time last_vote_l <=? now n - cooldown_time n weight * seconds)%Z
            | cache => true
            end in
          if negb max_vote && negb past_cooldown then
            Ok ({| replay := false; processed := false |}, e)
          else record_vote n rep timestamp_a block_hash_a vote_source_a e
    | None => record_vote n rep timestamp_a block_hash_a vote_source_a e
    end.

(** [fill_from_cache]: the voters of a cache entry vote in turn; the count
    of the votes that were processed is returned. *)
Fixpoint fill_from_cache (n : node_t) (entry_hash : N) (voters : list (N * N))
    (e : t) : outcome (nat * t) :=
  match voters with
  | [] => Ok (0%nat, e)
  | (rep, timestamp_a) :: rest =>
      r ← vote n rep timestamp_a entry_hash cache e;
      k ← fill_from_cache n entry_hash rest r.2;
      Ok ((if processed r.1 then S k.1 else k.1), k.2)
  end.

(** ** Candidate blocks *)

Definition remove_block (hash_a : N) (e : t) : t :=
  if negb (block.hash (winner (status e)) =? hash_a) then
    match last_blocks e !! hash_a with
    | Some existing =>
        let e1 := set_last_votes
                    (filter (fun av => vote_hash av.2 ≠ hash_a) (last_votes e)) e in
        let e2 := emit [publish_filter_clear existing] e1 in
        set_last_blocks (delete hash_a (last_blocks e2)) e2
    | None => e
    end
  else e.

(** [std::sort] with the comparison [left.second < right.second]; entries
    of equal weight come out in an order the library chooses (here: the
    order of insertion sort). *)
Fixpoint insert_ascending (x : N * N) (l : list (N * N)) : list (N * N) :=
  match l with
  | [] => [x]
  | y :: rest =>
      if x.2 <? y.2 then x :: l else y :: insert_ascending x rest
  end.

Definition sort_ascending (l : list (N * N)) : list (N * N) :=
  foldr insert_ascending [] l.

Definition replace_by_weight (n : node_t) (hash_a : N) (e : t)
    : outcome (bool * t) :=
  let winner_hash := block.hash (winner (status e)) in
  let sorted := sort_ascending (map_to_list (last_tally e)) in
  let inactive_tally := default 0 (inactive_vote_cache_find n hash_a) in
  replaced_block ←
    (if (0 <? inactive_tally) && (length sorted <? max_blocks)%nat then
       (* remove any block without tally *)
       match List.find (fun hb =>
                 negb (existsb (fun item => item.1 =? hb.1) sorted)
                 && negb (hb.1 =? winner_hash))
               (map_to_list (last_blocks e)) with
       | Some hb => Ok hb.1
       | None => Ok 0
       end
     else if 0 <? inactive_tally then
       match sorted with
       | [] => Err undefined_behaviour
       | front :: rest =>
           if front.2 <? inactive_tally then
             if negb (front.1 =? winner_hash) then Ok front.1
             else
               match rest with
               | [] => Err undefined_behaviour
               | second :: _ =>
                   if second.2 <? inactive_tally then Ok second.1 else Ok 0
               end
           else Ok 0
       end
     else Ok 0);
  if negb (replaced_block =? 0 : bool) then
    Ok (true, remove_block replaced_block
                (emit [active_erase_hash replaced_block] e))
  else Ok (false, e).

Definition publish (n : node_t) (block_a : block.t) (e : t) : outcome (bool * t) :=
  let hash_a := block.hash block_a in
  let result := confirmed n e in
  re ← (if negb result
           && (max_blocks <=? size (last_blocks e))%nat
           && negb (bool_decide (is_Some (last_blocks e !! hash_a)))
        then
          r ← replace_by_weight n hash_a e;
          if negb r.1 then Ok (true, emit [publish_filter_clear block_a] r.2)
          else Ok (result, r.2)
        else Ok (result, e));
  let result1 : bool := re.1 in
  let e1 : t := re.2 in
  if negb result1 then
    match last_blocks e1 !! hash_a with
    | None =>
        Ok (result1, set_last_blocks (<[ hash_a := block_a ]> (last_blocks e1)) e1)
    | Some _ =>
        let e2 := set_last_blocks (<[ hash_a := block_a ]> (last_blocks e1)) e1 in
        if block.hash (winner (status e2)) =? hash_a then
          Ok (true, emit [flood_block block_a] (set_status (set_winner block_a) e2))
        else Ok (true, e2)
    end
  else Ok (result1, e1).

(** ** Timers *)

Definition broadcast_vote_impl (n : node_t) (e : t) : outcome t :=
  if enable_voting n && (0 <? wallets_reps_voting n) then
    let e1 := emit [stat_generate_vote] e in
    final ← (if confirmed n e1 then Ok (true, e1)
             else
               let (tally_l, e2) := tally_impl n e1 in
               q ← have_quorum n tally_l; Ok (q, e2));
    let e3 : t := final.2 in
    if final.1 : bool then
      Ok (emit [stat_generate_vote_final;
                final_generator_add (root e3) (block.hash (winner (status e3)))] e3)
    else
      Ok (emit [stat_generate_vote_normal;
                generator_add (root e3) (block.hash (winner (status e3)))] e3)
  else Ok e.

Definition broadcast_vote (n : node_t) (e : t) : outcome t :=
  if (last_vote e + vote_broadcast_interval n * ms <? now n)%Z then
    e1 ← broadcast_vote_impl n e;
    Ok (set_clocks (last_req e1) (last_block e1) (now n)
          (confirmation_request_count e1) e1)
  else Ok e.

Definition broadcast_block (n : node_t) (e : t) : t :=
  if (base_latency n * 15 <? now n - last_block e)%Z then
    if negb (solicitor_broadcast n) then
      set_clocks (last_req e) (now n) (last_vote e)
        (confirmation_request_count e) e
    else e
  else e.

Definition send_confirm_req (n : node_t) (e : t) : t :=
  if (confirm_req_time n e <? now n - last_req e)%Z then
    if negb (solicitor_add n) then
      set_clocks (now n) (last_block e) (last_vote e)
        (confirmation_request_count e + 1) e
    else e
  else e.

Definition transition_active (n : node_t) (e : t) : t :=
  (state_change n state_t.passive state_t.active e).2.

(** [transition_time]. In the two expired states the source has
    [debug_assert (false)], which is compiled out here as everywhere: the
    call falls through to the expiry test. *)
Definition transition_time (n : node_t) (e : t) : outcome (bool * t) :=
  re ← match state_m e with
       | state_t.passive =>
           if (base_latency n * passive_duration_factor <? now n - state_start e)%Z
           then Ok (false, (state_change n state_t.passive state_t.active e).2)
           else Ok (false, e)
       | state_t.active =>
           e1 ← broadcast_vote n e;
           Ok (false, send_confirm_req n (broadcast_block n e1))
       | state_t.confirmed =>
           Ok (true, (state_change n state_t.confirmed
                        state_t.expired_confirmed e).2)
       | state_t.expired_unconfirmed | state_t.expired_confirmed =>
           Ok (false, e)
       end;
  let result : bool := re.1 in
  let e1 : t := re.2 in
  if negb (confirmed n e1) && (time_to_live e1 <? now n - election_start e1)%Z then
    let ce := state_change n (state_m e1) state_t.expired_unconfirmed e1 in
    if negb ce.1 then
      let e2 := if election_expiration_tally_logging n
                then (tally_impl n ce.2).2 else ce.2 in
      Ok (true, set_status (set_election_status_type stopped) e2)
    else Ok (result, ce.2)
  else Ok (result, e1).

Definition force_confirm (n : node_t) (type_a : election_status_type) (e : t)
    : outcome t :=
  if is_dev_network n then Ok (confirm_once n type_a e)
  else Err release_assert_failed.

(** The public [tally ()]. *)
Definition tally (n : node_t) (e : t) : tally_t * t := tally_impl n e.

End election.

(** * The block processor *)

Module block_processor.

(** [nano::process_result] *)
Inductive process_result : Set :=
| progress | bad_signature | old | negative_spend | fork | unreceivable
| gap_previous | gap_source | gap_epoch_open_pending | opened_burn_account
| balance_mismatch | representative_mismatch | block_position
| insufficient_work.

(** The counters the processor increments: [stats.inc (type, detail)]. *)
Inductive stat : Set :=
| blockprocessor_overfill
| blockprocessor_insufficient_work
| ledger_gap_previous
| ledger_gap_source
| ledger_old
| ledger_fork
| blockprocessor_result (code : process_result).  (* to_stat_detail (result.code) *)

Definition process_result_eqb (a b : process_result) : bool :=
  match a, b with
  | progress, progress | bad_signature, bad_signature | old, old
  | negative_spend, negative_spend | fork, fork | unreceivable, unreceivable
  | gap_previous, gap_previous | gap_source, gap_source
  | gap_epoch_open_pending, gap_epoch_open_pending
  | opened_burn_account, opened_burn_account
  | balance_mismatch, balance_mismatch
  | representative_mismatch, representative_mismatch
  | block_position, block_position
  | insufficient_work, insufficient_work => true
  | _, _ => false
  end.

Definition stat_eqb (a b : stat) : bool :=
  match a, b with
  | blockprocessor_overfill, blockprocessor_overfill
  | blockprocessor_insufficient_work, blockprocessor_insufficient_work
  | ledger_gap_previous, ledger_gap_previous
  | ledger_gap_source, ledger_gap_source
  | ledger_old, ledger_old
  | ledger_fork, ledger_fork => true
  | blockprocessor_result x, blockprocessor_result y => process_result_eqb x y
  | _, _ => false
  end.

(** What the processor reads from its collaborators. *)
Record config_t : Type := {
  block_processor_full_size : nat;              (* flags.block_processor_full_size () *)
  validate_entry : block.t -> bool;             (* network_params.work: true is an error *)
  ledger_process : block.t -> process_result;   (* ledger.process (transaction, block).code *)
  ledger_block_source : block.t -> N;           (* ledger.block_source (transaction, block) *)
  epoch_max : N                                 (* nano::epoch::max *)
}.

(** Modelled from the spec: the unchecked table and the signature
    verification stage, which the sources only reach through handles.
    The table holds (dependency, block) entries; [put] adds one and
    [trigger] releases the entries waiting on a dependency (section 3). The
    verification stage is a queue whose length counts as pending
    (section 4.1). *)
Definition unchecked_map : Set := list (N * block.t).

Record t : Type := {
  blocks : list block.t;
  forced : list block.t;
  state_block_signature_verification : list block.t;
  unchecked : unchecked_map;
  satisfied : list block.t;     (* entries released by [unchecked.trigger] *)
  gap_cache_erased : list N;    (* [gap_cache.erase] calls *)
  block_arrival : list N;
  stats : list stat             (* [stats.inc] calls, the latest first *)
}.

Definition stats_inc (d : stat) (p : t) : t :=
  {| blocks := blocks p; forced := forced p;
     state_block_signature_verification := state_block_signature_verification p;
     unchecked := unchecked p; satisfied := satisfied p;
     gap_cache_erased := gap_cache_erased p;
     block_arrival := block_arrival p; stats := d :: stats p |}.

(** The value of a counter. *)
Definition stat_count (d : stat) (p : t) : nat :=
  length (List.filter (stat_eqb d) (stats p)).

Definition unchecked_put (dependency : N) (b : block.t) (p : t) : t :=
  {| blocks := blocks p; forced := forced p;
     state_block_signature_verification := state_block_signature_verification p;
     unchecked := unchecked p ++ [(dependency, b)]; satisfied := satisfied p;
     gap_cache_erased := gap_cache_erased p;
     block_arrival := block_arrival p; stats := stats p |}.

Definition unchecked_trigger (dependency : N) (p : t) : t :=
  {| blocks := blocks p; forced := forced p;
     state_block_signature_verification := state_block_signature_verification p;
     unchecked := List.filter (fun kb => negb (kb.1 =? dependency)) (unchecked p);
     satisfied := satisfied p
                  ++ map snd (List.filter (fun kb => kb.1 =? dependency) (unchecked p));
     gap_cache_erased := gap_cache_erased p;
     block_arrival := block_arrival p; stats := stats p |}.

Definition size (p : t) : nat :=
  length (blocks p) + length (state_block_signature_verification p)
  + length (forced p).

Definition full (c : config_t) (p : t) : bool :=
  (block_processor_full_size c <=? size p)%nat.

Definition half_full (c : config_t) (p : t) : bool :=
  (block_processor_full_size c / 2 <=? size p)%nat.

Definition add_impl (b : block.t) (p : t) : t :=
  if block_type_eqb (block.type b) bt_state || block_type_eqb (block.type b) bt_open
  then
    {| blocks := blocks p; forced := forced p;
       state_block_signature_verification :=
         state_block_signature_verification p ++ [b];
       unchecked := unchecked p; satisfied := satisfied p;
       gap_cache_erased := gap_cache_erased p;
       block_arrival := block_arrival p; stats := stats p |}
  else
    {| blocks := blocks p ++ [b]; forced := forced p;
       state_block_signature_verification := state_block_signature_verification p;
       unchecked := unchecked p; satisfied := satisfied p;
       gap_cache_erased := gap_cache_erased p;
       block_arrival := block_arrival p; stats := stats p |}.

Definition add (c : config_t) (b : block.t) (p : t) : t :=
  if full c p then stats_inc blockprocessor_overfill p
  else if validate_entry c b then stats_inc blockprocessor_insufficient_work p
  else add_impl b p.

Definition process_active (c : config_t) (incoming : block.t) (p : t) : t :=
  add c incoming
    {| blocks := blocks p; forced := forced p;
       state_block_signature_verification := state_block_signature_verification p;
       unchecked := unchecked p; satisfied := satisfied p;
       gap_cache_erased := gap_cache_erased p;
       block_arrival := block_arrival p ++ [block.hash incoming];
       stats := stats p |}.

Definition force (block_a : block.t) (p : t) : t :=
  {| blocks := blocks p; forced := forced p ++ [block_a];
     state_block_signature_verification := state_block_signature_verification p;
     unchecked := unchecked p; satisfied := satisfied p;
     gap_cache_erased := gap_cache_erased p;
     block_arrival := block_arrival p; stats := stats p |}.

Definition have_blocks_ready (p : t) : bool :=
  negb (match blocks p with [] => true | _ => false end)
  || negb (match forced p with [] => true | _ => false end).

Definition have_blocks (p : t) : bool :=
  have_blocks_ready p
  || negb (length (state_block_signature_verification p) =? 0)%nat.

Definition queue_unchecked (hash_or_account_a : N) (p : t) : t :=
  let p1 := unchecked_trigger hash_or_account_a p in
  {| blocks := blocks p1; forced := forced p1;
     state_block_signature_verification := state_block_signature_verification p1;
     unchecked := unchecked p1; satisfied := satisfied p1;
     gap_cache_erased := gap_cache_erased p1 ++ [hash_or_account_a];
     block_arrival := block_arrival p1; stats := stats p1 |}.

(** [process_one]; the log lines are left out. *)
Definition process_one (c : config_t) (b : block.t) (forced_a : bool) (p : t)
    : process_result * t :=
  let hash := block.hash b in
  let result := ledger_process c b in
  let p1 :=
    match result with
    | progress =>
        let p' := queue_unchecked hash p in
        if block_type_eqb (block.type b) bt_send
           || (block_type_eqb (block.type b) bt_state
               && block.is_send b && (block.epoch b <? epoch_max c))
        then queue_unchecked
               (if block.destination b =? 0 then block.link b
                else block.destination b) p'
        else p'
    | gap_previous =>
        stats_inc ledger_gap_previous (unchecked_put (block.previous b) b p)
    | gap_source =>
        stats_inc ledger_gap_source (unchecked_put (ledger_block_source c b) b p)
    | gap_epoch_open_pending =>
        stats_inc ledger_gap_source (unchecked_put (block.account b) b p)
    | old => stats_inc ledger_old p
    | fork => stats_inc ledger_fork p
    | bad_signature | negative_spend | unreceivable | opened_burn_account
    | balance_mismatch | representative_mismatch | block_position
    | insufficient_work => p
    end in
  (result, stats_inc (blockprocessor_result result) p1).

End block_processor.

(** * The commit loop of the block processor *)

Module block_processor_loop.

Import block_processor.

(** The ledger as the commit loop uses it, over ledger states [L]:
    [ledger.process], [ledger.successor], [ledger.rollback] (true is a
    failure; the blocks rolled back are listed either way),
    [ledger.block_source] and [ledger.is_epoch_link]. *)
Record ledger_t (L : Type) : Type := {
  process : L -> block.t -> process_result * L;
  successor : L -> N -> option block.t;
  rollback : L -> N -> bool * list block.t * L;
  block_source : L -> block.t -> N;
  is_epoch_link : N -> bool
}.
Arguments process {L} _ _ _.
Arguments successor {L} _ _ _.
Arguments rollback {L} _ _ _.
Arguments block_source {L} _ _ _.
Arguments is_epoch_link {L} _ _.

(** The limits of a batch. [deadline_reached k] is the reading of the batch
    timer at the loop test that follows [k] processed blocks. *)
Record limits_t : Type := {
  block_processor_batch_size : nat;    (* flags.block_processor_batch_size () *)
  max_block_write_batch_num : nat;     (* store.max_block_write_batch_num () *)
  deadline_reached : nat -> bool
}.

(** The processor together with the ledger it writes to, the count of
    failed rollbacks ([stat::detail::rollback_failed]) and the calls of the
    [blocks_rolled_back] callback. *)
Record state (L : Type) : Type := {
  processor : t;
  ledger : L;
  rollback_failed : nat;
  blocks_rolled_back : list (list block.t * block.t)
}.
Arguments processor {L} _.
Arguments ledger {L} _.
Arguments rollback_failed {L} _.
Arguments blocks_rolled_back {L} _.

(** The configuration [process_one] sees in ledger state [l]. *)
Definition config_at {L : Type} (c : config_t) (lg : ledger_t L) (l : L) : config_t :=
  {| block_processor_full_size := block_processor_full_size c;
     validate_entry := validate_entry c;
     ledger_process := fun b => (process lg l b).1;
     ledger_block_source := fun b => block_source lg (process lg l b).2 b;
     epoch_max := epoch_max c |}.

Definition rollback_competitor {L : Type} (lg : ledger_t L) (b : block.t)
    (s : state L) : state L :=
  let hash := block.hash b in
  match successor lg (ledger s) (block.qualified_root b) with
  | Some successor_l =>
      if negb (block.hash successor_l =? hash) then
        let r := rollback lg (ledger s) (block.hash successor_l) in
        {| processor := processor s;
           ledger := r.2;
           rollback_failed := if r.1.1 then S (rollback_failed s)
                              else rollback_failed s;
           blocks_rolled_back := blocks_rolled_back s ++ [(r.1.2, successor_l)] |}
      else s
  | None => s
  end.

Definition set_queues (blocks_a forced_a : list block.t) (p : t) : t :=
  {| blocks := blocks_a; forced := forced_a;
     state_block_signature_verification := state_block_signature_verification p;
     unchecked := unchecked p; satisfied := satisfied p;
     gap_cache_erased := gap_cache_erased p;
     block_arrival := block_arrival p; stats := stats p |}.

(** One turn of the loop of [process_batch] on the block taken from the
    front of a queue: a forced block first displaces its competitor. *)
Definition process_next {L : Type} (c : config_t) (lg : ledger_t L)
    (b : block.t) (force_a : bool) (s : state L)
    : (process_result * block.t) * state L :=
  let s1 := if force_a then rollback_competitor lg b s else s in
  let r := process_one (config_at c lg (ledger s1)) b force_a (processor s1) in
  ((r.1, b),
   {| processor := r.2;
      ledger := (process lg (ledger s1) b).2;
      rollback_failed := rollback_failed s1;
      blocks_rolled_back := blocks_rolled_back s1 |}).

(** The loop of [process_batch], with no other thread adding to the queues
    while the lock is released; [fuel] bounds its turns, and the blocks
    queued are enough of it. It returns the processed entries, the count of
    forced blocks among them and the state reached. *)
Fixpoint process_batch_loop {L : Type} (fuel : nat) (c : config_t)
    (m : limits_t) (lg : ledger_t L)
    (number_of_blocks_processed number_of_forced_processed : nat)
    (processed : list (process_result * block.t)) (s : state L)
    : list (process_result * block.t) * nat * state L :=
  match fuel with
  | O => (processed, number_of_forced_processed, s)
  | S fuel' =>
      if have_blocks_ready (processor s)
         && (negb (deadline_reached m number_of_blocks_processed)
             || negb (block_processor_batch_size m <=? number_of_blocks_processed)%nat)
         && negb (max_block_write_batch_num m <=? number_of_blocks_processed)%nat
      then
        match forced (processor s), blocks (processor s) with
        | [], b :: rest =>
            let s0 := {| processor := set_queues rest [] (processor s);
                         ledger := ledger s;
                         rollback_failed := rollback_failed s;
                         blocks_rolled_back := blocks_rolled_back s |} in
            let r := process_next c lg b false s0 in
            process_batch_loop fuel' c m lg (S number_of_blocks_processed)
              number_of_forced_processed (processed ++ [r.1]) r.2
        | b :: rest, _ =>
            let s0 := {| processor := set_queues (blocks (processor s)) rest
                                        (processor s);
                         ledger := ledger s;
                         rollback_failed := rollback_failed s;
                         blocks_rolled_back := blocks_rolled_back s |} in
            let r := process_next c lg b true s0 in
            process_batch_loop fuel' c m lg (S number_of_blocks_processed)
              (S number_of_forced_processed) (processed ++ [r.1]) r.2
        | [], [] => (processed, number_of_forced_processed, s)
        end
      else (processed, number_of_forced_processed, s)
  end.

Definition process_batch {L : Type} (c : config_t) (m : limits_t)
    (lg : ledger_t L) (s : state L)
    : list (process_result * block.t) * nat * state L :=
  process_batch_loop (length (forced (processor s)) + length (blocks (processor s)))
    c m lg 0 0 [] s.

(** [process_verified_state_blocks]: one verification result per item, taken
    from the front; a block whose link is an epoch link is queued whatever
    the result, any other block only when its signature verified. Taking an
    item from an empty deque is undefined. *)
Fixpoint process_verified_state_blocks {L : Type} (lg : ledger_t L)
    (items : list block.t) (verifications : list Z) (p : t)
    : outcome (list block.t * t) :=
  match verifications with
  | [] => Ok (items, p)
  | v :: verifications' =>
      match items with
      | [] => Err undefined_behaviour
      | b :: items' =>
          let p1 :=
            if negb (block.link b =? 0) && is_epoch_link lg (block.link b)
            then set_queues (blocks p ++ [b]) (forced p) p
            else if (v =? 1)%Z
                 then set_queues (blocks p ++ [b]) (forced p) p
                 else p in
          process_verified_state_blocks lg items' verifications' p1
      end
  end.

End block_processor_loop.

(** * Broadcasts of the network *)

Module network.

(** What the broadcasts hand to the channels and to the caller, in the
    order of the calls. A timed task runs the function it was given again,
    and its effects follow those of the call that scheduled it; the node is
    taken to outlive its tasks. Channels are named by numbers. *)
Inductive effect : Set :=
| flood_block (b : block.t)
| send_confirm_req (channel hash_a root_a : N)
| send_confirm_req_batch (channel : N) (roots_hashes : list (N * N))
| callback.

Definition broadcast_interval_ms : nat := 10.
Definition confirm_req_hashes_max : nat := 7.
Definition max_reps : nat := 10.

(** [flood_block_many]: the first block is flooded, the others by a timed
    task; the callback, when there is one, runs after the last block. The
    delay of the task is [delay_a + std::rand () % delay_a]: with blocks
    left to flood, a [delay_a] of zero divides by zero. *)
Fixpoint flood_block_many (blocks_a : list block.t) (callback_a : bool)
    (delay_a : N) : outcome (list effect) :=
  match blocks_a with
  | [] => Ok []
  | block_l :: rest =>
      match rest with
      | [] => Ok (flood_block block_l :: if callback_a then [callback] else [])
      | _ :: _ =>
          if delay_a =? 0 then Err undefined_behaviour
          else
            later ← flood_block_many rest callback_a delay_a;
            Ok (flood_block block_l :: later)
      end
  end.

(** [endpoints_a->back ()] and [pop_back ()] on a vector listed from its
    front. *)
Definition pop_back (endpoints : list N) : option (N * list N) :=
  match rev endpoints with
  | [] => None
  | channel :: others => Some (channel, rev others)
  end.

(** The loop of [broadcast_confirm_req_base], with [budget] requests left
    of the [max_reps] of a call: the requests sent and the vector left. *)
Fixpoint solicit (budget : nat) (block_a : block.t) (endpoints : list N)
    : list effect * list N :=
  match budget with
  | O => ([], endpoints)
  | S budget' =>
      match pop_back endpoints with
      | None => ([], endpoints)
      | Some (channel, others) =>
          let r := solicit budget' block_a others in
          (send_confirm_req channel (block.hash block_a) (block.root block_a) :: r.1,
           r.2)
      end
  end.

(** [broadcast_confirm_req_base] with its timed tasks: [fuel] bounds the
    number of tasks, and the length of the vector is enough of it. *)
Fixpoint broadcast_confirm_req_base_tasks (fuel : nat) (block_a : block.t)
    (endpoints : list N) : list effect :=
  let r := solicit max_reps block_a endpoints in
  match r.2 with
  | [] => r.1
  | _ :: _ =>
      match fuel with
      | O => r.1
      | S fuel' => r.1 ++ broadcast_confirm_req_base_tasks fuel' block_a r.2
      end
  end.

Definition broadcast_confirm_req_base (block_a : block.t) (endpoints : list N)
    : list effect :=
  broadcast_confirm_req_base_tasks (length endpoints) block_a endpoints.

(** The inner loop of [broadcast_confirm_req_batched_many], with room for
    [budget] more pairs in the request: the pairs taken from the front of
    the deque and the deque left. *)
Fixpoint fill_request (budget : nat) (queue : list (N * N))
    : list (N * N) * list (N * N) :=
  match budget with
  | O => ([], queue)
  | S budget' =>
      match queue with
      | [] => ([], [])
      | pair_l :: rest =>
          let r := fill_request budget' rest in (pair_l :: r.1, r.2)
      end
  end.

(** One pass of [broadcast_confirm_req_batched_many] over the bundle: a
    request to every channel, in the order the map is iterated, and the
    bundle left, from which the channels with an empty deque are erased. *)
Definition batch_round (request_bundle_a : gmap N (list (N * N)))
    : list effect * gmap N (list (N * N)) :=
  (map (fun entry : N * list (N * N) =>
          send_confirm_req_batch entry.1
            (fill_request confirm_req_hashes_max entry.2).1)
       (map_to_list request_bundle_a),
   omap (fun queue : list (N * N) =>
           match (fill_request confirm_req_hashes_max queue).2 with
           | [] => None
           | pair_l :: rest => Some (pair_l :: rest)
           end) request_bundle_a).

(** [broadcast_confirm_req_batched_many] with its timed tasks; [fuel]
    bounds their number. *)
Fixpoint broadcast_confirm_req_batched_many_tasks (fuel : nat)
    (request_bundle_a : gmap N (list (N * N))) (callback_a : bool)
    : list effect :=
  let r := batch_round request_bundle_a in
  if negb (election.map_is_empty r.2) then
    match fuel with
    | O => r.1
    | S fuel' =>
        r.1 ++ broadcast_confirm_req_batched_many_tasks fuel' r.2 callback_a
    end
  else r.1 ++ (if callback_a then [callback] else []).

(** The pairs of the bundle are fuel enough: a task runs only while a
    deque has pairs left. *)
Definition broadcast_confirm_req_batched_many
    (request_bundle_a : gmap N (list (N * N))) (callback_a : bool)
    : list effect :=
  broadcast_confirm_req_batched_many_tasks
    (length (concat (map snd (map_to_list request_bundle_a))))
    request_bundle_a callback_a.

End network.

(** * The optimistic scheduler *)

Module optimistic.

Definition uint64_modulus : N := 2 ^ 64.
Definition wrap64 (x : N) : N := x mod uint64_modulus.

Record optimistic_config : Set := {
  enabled : bool;
  gap_threshold : N;
  max_size : N
}.

(** A candidate: the account and the time it was activated at. *)
Record entry : Set := {
  account : N;
  timestamp : Z
}.

(** The scheduler: the candidates in the order of the sequenced index,
    and the [activated] counter of the statistics. *)
Record t : Set := {
  candidates : list entry;
  activated : N
}.

(** [activate_predicate]: [block_count ()] and [height ()] are [uint64_t]
    counts, so their difference wraps around when the [debug_assert] of
    [activate] does not hold. *)
Definition activate_predicate (config : optimistic_config)
    (block_count height : N) : bool :=
  if gap_threshold config <? wrap64 (block_count + uint64_modulus - wrap64 height)
  then true
  else if wrap64 height =? 0 then true
  else false.

(** [candidates.get<tag_account> ().contains (account)]. *)
Definition contains (s : t) (account_a : N) : bool :=
  existsb (fun c => account c =? account_a) (candidates s).

(** [activate]: whether the account was activated, and the scheduler
    after the call ([clock_now] is [nano::clock::now ()]). *)
Definition activate (config : optimistic_config) (clock_now : Z)
    (account_a block_count height : N) (s : t) : bool * t :=
  if negb (enabled config) then (false, s)
  else if activate_predicate config block_count height then
    if contains s account_a then (false, s)
    else if max_size config <=? N.of_nat (length (candidates s)) then (false, s)
    else (true, {| candidates := candidates s
                                 ++ [{| account := account_a; timestamp := clock_now |}];
                   activated := activated s + 1 |})
  else (false, s).

(** The step of the loop of [run]: [candidates.front ()] and
    [candidates.pop_front ()], taken when [predicate] found a candidate. *)
Definition pop_front (s : t) : option (entry * t) :=
  match candidates s with
  | [] => None
  | candidate :: rest =>
      Some (candidate, {| candidates := rest; activated := activated s |})
  end.

End optimistic.

(** * Statements *)

Import election.

(** ** Vocabulary of the statements *)

(** *** States *)

(** The six legal transitions of the election state machine. *)
Definition legal_transition (a b : state_t.t) : Prop :=
  (a = state_t.passive /\ b = state_t.active) \/
  (a = state_t.passive /\ b = state_t.confirmed) \/
  (a = state_t.passive /\ b = state_t.expired_unconfirmed) \/
  (a = state_t.active /\ b = state_t.confirmed) \/
  (a = state_t.active /\ b = state_t.expired_unconfirmed) \/
  (a = state_t.confirmed /\ b = state_t.expired_confirmed).

Definition terminal (s : state_t.t) : bool :=
  match s with
  | state_t.expired_unconfirmed | state_t.expired_confirmed => true
  | _ => false
  end.

(** *** Tallies *)

(** Amounts listed from the largest to the smallest. *)
Fixpoint descending (l : list N) : bool :=
  match l with
  | a :: (b :: _) as rest => (b <=? a) && descending rest
  | _ => true
  end.

(** What every [tally_t] satisfies: the order of the multimap, and amounts
    that fit 128 bits. *)
Definition tally_ordered (tl : tally_t) : bool :=
  descending (map fst tl) && forallb (fun x => x.1 <? uint128_modulus) tl.

(** The highest amount of a tally, 0 when it is empty. *)
Definition top_weight (tl : tally_t) : N :=
  match tl with
  | (w, _) :: _ => w
  | [] => 0
  end.

(** The second-highest amount of a tally, 0 when there is none. *)
Definition second_weight (tl : tally_t) : N :=
  match tl with
  | _ :: (w, _) :: _ => w
  | _ => 0
  end.

(** The order of a [tally_t], as a relation between entries. *)
Definition not_below (x y : N * block.t) : Prop := y.1 <= x.1.

(** The invariant of the second loop of [tally_impl]. *)
Definition tally_inv (tl : tally_t) : Prop :=
  StronglySorted not_below tl /\ Forall (fun x => x.1 < uint128_modulus) tl.

(** *** Votes *)

(** The vote is not turned away for the weight of its voter. *)
Definition passes_weight_check (n : node_t) (rep : N) : Prop :=
  is_dev_network n = true \/ minimum_principal_weight n < ledger_weight n rep.

(** A vote with timestamp [ts] for [h] is a replay of the recorded [lv]. *)
Definition stale (lv : vote_info) (ts h : N) : Prop :=
  ts < timestamp lv \/ (ts = timestamp lv /\ h <= vote_hash lv).

Definition rejected (replay_a : bool) : election_vote_result :=
  {| replay := replay_a; processed := false |}.

Definition accepted : election_vote_result :=
  {| replay := false; processed := true |}.

(** The node [n] with another minimum principal weight. *)
Definition with_minimum (m : N) (n : node_t) : node_t :=
  {| is_dev_network := is_dev_network n; ledger_weight := ledger_weight n;
     minimum_principal_weight := m;
     online_reps_trended := online_reps_trended n;
     online_reps_delta := online_reps_delta n;
     block_confirmed := block_confirmed n; enable_voting := enable_voting n;
     wallets_reps_voting := wallets_reps_voting n;
     history_votes := history_votes n;
     final_votes_confirmation_canary := final_votes_confirmation_canary n;
     election_winner_details_count := election_winner_details_count n;
     inactive_vote_cache_find := inactive_vote_cache_find n;
     vote_broadcast_interval := vote_broadcast_interval n;
     solicitor_add := solicitor_add n;
     solicitor_broadcast := solicitor_broadcast n;
     election_expiration_tally_logging := election_expiration_tally_logging n;
     now := now n |}.

(** A run of [vote] calls that returned, after each of which voter [r] is
    on record. *)
Inductive vote_run (r : N) : t -> t -> Prop :=
| vote_run_done (e : t) : vote_run r e e
| vote_run_step (e e1 e2 : t) (n : node_t) (rep ts h : N) (src : vote_source)
    (res : election_vote_result) :
    vote n rep ts h src e = Ok (res, e1) ->
    is_Some (last_votes e1 !! r) ->
    vote_run r e1 e2 ->
    vote_run r e e2.

(** *** Candidates and winners *)

(** [b] is one of the candidate blocks. *)
Definition candidate (blocks : gmap N block.t) (b : block.t) : Prop :=
  exists k : N, blocks !! k = Some b.

(** Candidates are filed under their own hash. *)
Definition blocks_keyed (blocks : gmap N block.t) : Prop :=
  forall (k : N) (b : block.t), blocks !! k = Some b -> block.hash b = k.

(** The invariant of an election: the winner is one of the candidates. *)
Definition winner_tracked (e : t) : Prop :=
  blocks_keyed (last_blocks e)
  /\ is_Some (last_blocks e !! block.hash (winner (status e))).

(** A step that touches neither the candidates nor the winner. *)
Definition same_candidates (e e' : t) : Prop :=
  last_blocks e' = last_blocks e /\ winner (status e') = winner (status e).

(** A step that keeps the candidates, only forgets votes, and keeps the
    winner or makes a candidate the winner. *)
Definition evolves (e e' : t) : Prop :=
  last_blocks e' = last_blocks e
  /\ (forall r : N, last_votes e' !! r = None
                    \/ last_votes e' !! r = last_votes e !! r)
  /\ (winner (status e') = winner (status e)
      \/ candidate (last_blocks e) (winner (status e'))).

(** The states an election goes through: construction, then calls of its
    public member functions that return. *)
Inductive reachable : t -> Prop :=
| reach_make (n : node_t) (b : block.t) (behavior : election_behavior) :
    reachable (make n b behavior)
| reach_vote (n : node_t) (rep ts h : N) (src : vote_source) (e e' : t)
    (res : election_vote_result) :
    reachable e -> vote n rep ts h src e = Ok (res, e') -> reachable e'
| reach_fill_from_cache (n : node_t) (h : N) (voters : list (N * N)) (e e' : t)
    (inserted : nat) :
    reachable e -> fill_from_cache n h voters e = Ok (inserted, e') ->
    reachable e'
| reach_publish (n : node_t) (b : block.t) (e e' : t) (r : bool) :
    reachable e -> publish n b e = Ok (r, e') -> reachable e'
| reach_transition_time (n : node_t) (e e' : t) (r : bool) :
    reachable e -> transition_time n e = Ok (r, e') -> reachable e'
| reach_transition_active (n : node_t) (e : t) :
    reachable e -> reachable (transition_active n e)
| reach_force_confirm (n : node_t) (ty : election_status_type) (e e' : t) :
    reachable e -> force_confirm n ty e = Ok e' -> reachable e'
| reach_tally (n : node_t) (e : t) :
    reachable e -> reachable (tally n e).2.

(** *** The block processor *)

(** The three pending queues of the block processor. *)
Definition pending (p : block_processor.t)
    : list block.t * list block.t * list block.t :=
  (block_processor.state_block_signature_verification p,
   block_processor.blocks p, block_processor.forced p).

(** The commit results that park a block in the unchecked table. *)
Definition is_gap (r : block_processor.process_result) : bool :=
  match r with
  | block_processor.gap_previous | block_processor.gap_source
  | block_processor.gap_epoch_open_pending => true
  | _ => false
  end.

(** The commit results that drop the block: validation rejections,
    duplicates and forks. *)
Definition is_rejection (r : block_processor.process_result) : bool :=
  match r with
  | block_processor.bad_signature | block_processor.negative_spend
  | block_processor.unreceivable | block_processor.opened_burn_account
  | block_processor.balance_mismatch | block_processor.representative_mismatch
  | block_processor.block_position | block_processor.insufficient_work
  | block_processor.old | block_processor.fork => true
  | _ => false
  end.

(** *** The tally *)

(** The weight behind hash [h] among [votes], before any wrap-around. *)
Definition votes_for (n : node_t) (votes : list (N * vote_info)) (h : N) : N :=
  foldr (fun av s => if vote_hash av.2 =? h then ledger_weight n av.1 + s else s)
        0 votes.

(** Some vote among [votes] is for hash [h]. *)
Definition voted (votes : list (N * vote_info)) (h : N) : bool :=
  existsb (fun av => vote_hash av.2 =? h) votes.

(** The entry a voted hash contributes to the tally, if the election holds
    its block. *)
Definition tally_entry_of (blocks : gmap N block.t) (ha : N * N)
    : option (N * block.t) :=
  match blocks !! ha.1 with
  | Some b => Some (ha.2, b)
  | None => None
  end.

(** *** Votes and timers *)

(** This node does not vote: voting is off or it holds no representative. *)
Definition not_voting (n : node_t) : Prop :=
  enable_voting n && (0 <? wallets_reps_voting n) = false.

(** The entry [vote] writes for a vote it accepts. *)
Definition recorded (n : node_t) (ts h : N) : vote_info :=
  {| time := now n; timestamp := ts; vote_hash := h |}.

(** The votes of [e'] after a call on [e] that recorded the vote [lv] of
    [rep]: the old votes with the entry of [rep] replaced by [lv]. The
    exception is a call that also replaced the winner on a node that votes
    itself: [remove_votes] then erases the votes this node cast for the old
    winner, which may be the entry of [rep]. *)
Definition supersedes (n : node_t) (rep : N) (lv : vote_info) (e e' : t) : Prop :=
  last_votes e' = <[ rep := lv ]> (last_votes e)
  \/ (~ not_voting n
      /\ block.hash (winner (status e')) <> block.hash (winner (status e))
      /\ (last_votes e' !! rep = None \/ last_votes e' !! rep = Some lv)).

(** The first half of [transition_time]: the work of the current state. *)
Definition timer_stage (n : node_t) (e : t) : outcome (bool * t) :=
  match state_m e with
  | state_t.passive =>
      if (base_latency n * passive_duration_factor <? now n - state_start e)%Z
      then Ok (false, (state_change n state_t.passive state_t.active e).2)
      else Ok (false, e)
  | state_t.active =>
      e1 ← broadcast_vote n e;
      Ok (false, send_confirm_req n (broadcast_block n e1))
  | state_t.confirmed =>
      Ok (true, (state_change n state_t.confirmed
                   state_t.expired_confirmed e).2)
  | state_t.expired_unconfirmed | state_t.expired_confirmed =>
      Ok (false, e)
  end.

(** The second half: an election older than its time to live whose winner
    is not confirmed expires. *)
Definition expire_stage (n : node_t) (result : bool) (e1 : t) : outcome (bool * t) :=
  if negb (confirmed n e1) && (time_to_live e1 <? now n - election_start e1)%Z then
    let ce := state_change n (state_m e1) state_t.expired_unconfirmed e1 in
    if negb ce.1 then
      let e2 := if election_expiration_tally_logging n
                then (tally_impl n ce.2).2 else ce.2 in
      Ok (true, set_status (set_election_status_type stopped) e2)
    else Ok (result, ce.2)
  else Ok (result, e1).

(** A step that leaves the state, the age and the behaviour of an election
    and its winner alone. *)
Definition same_clockwork (e e' : t) : Prop :=
  state_m e' = state_m e /\ election_start e' = election_start e
  /\ behavior_m e' = behavior_m e /\ winner (status e') = winner (status e).

(** *** The commit loop *)

(** The queues of blocks ready to commit, the forced ones first. *)
Definition ready (p : block_processor.t) : list block.t :=
  block_processor.forced p ++ block_processor.blocks p.

(** The loop test of [process_batch] after [k] processed blocks lets the
    batch go on. *)
Definition batch_open (m : block_processor_loop.limits_t) (k : nat) : bool :=
  (negb (block_processor_loop.deadline_reached m k)
   || negb (block_processor_loop.block_processor_batch_size m <=? k)%nat)
  && negb (block_processor_loop.max_block_write_batch_num m <=? k)%nat.

(** A block of the verification stage reaches the commit queue. *)
Definition passes_verification {L : Type} (lg : block_processor_loop.ledger_t L)
    (bv : block.t * Z) : bool :=
  (negb (block.link bv.1 =? 0)
   && block_processor_loop.is_epoch_link lg (block.link bv.1))
  || (bv.2 =? 1)%Z.

(** *** Broadcasts *)

(** The requests for [block_a], one per channel. *)
Definition requests_to (block_a : block.t) (channels : list N)
    : list network.effect :=
  map (fun channel =>
         network.send_confirm_req channel (block.hash block_a) (block.root block_a))
      channels.

(** The batched requests handed to channel [ch], in order. *)
Definition batches_to (ch : N) (effects : list network.effect)
    : list (list (N * N)) :=
  omap (fun x => match x with
                 | network.send_confirm_req_batch c roots_hashes =>
                     if c =? ch then Some roots_hashes else None
                 | _ => None
                 end) effects.

(** The requests [broadcast_confirm_req_batched_many] cuts a deque into:
    up to [confirm_req_hashes_max] pairs each, from the front; an empty
    deque gives one empty request. *)
Fixpoint chunked (fuel : nat) (queue : list (N * N)) : list (list (N * N)) :=
  take network.confirm_req_hashes_max queue ::
  match drop network.confirm_req_hashes_max queue with
  | [] => []
  | _ :: _ =>
      match fuel with
      | O => []
      | S fuel' => chunked fuel' (drop network.confirm_req_hashes_max queue)
      end
  end.

(** *** The optimistic scheduler *)

(** What [activate] keeps of the candidates: an account at most once, and
    no more than [max_size] of them. *)
Definition candidates_inv (config : optimistic.optimistic_config)
    (s : optimistic.t) : Prop :=
  NoDup (map optimistic.account (optimistic.candidates s))
  /\ N.of_nat (length (optimistic.candidates s)) <= optimistic.max_size config.

(** The schedulers a run of [activate] calls and loop steps leads to. *)
Inductive scheduled (config : optimistic.optimistic_config)
    : optimistic.t -> Prop :=
| scheduled_start :
    scheduled config {| optimistic.candidates := []; optimistic.activated := 0 |}
| scheduled_activate (clock_now : Z) (account_a block_count height : N)
    (s : optimistic.t) :
    scheduled config s ->
    scheduled config
      (optimistic.activate config clock_now account_a block_count height s).2
| scheduled_pop_front (s s' : optimistic.t) (candidate : optimistic.entry) :
    scheduled config s ->
    optimistic.pop_front s = Some (candidate, s') ->
    scheduled config s'.

(** ** Sample data *)

(** A state block with hash [h]. *)
Definition sample_block (h : N) : block.t :=
  {| block.hash := h; block.type := bt_state; block.previous := 1;
     block.account := 2; block.link := 0; block.destination := 0;
     block.root := 1; block.qualified_root := 1; block.work := 0;
     block.is_send := false; block.epoch := 0; block.height := 2 |}.

(** A legacy send block with hash [h], previous hash 11 and account 12. *)
Definition sample_legacy_block (h : N) : block.t :=
  {| block.hash := h; block.type := bt_send; block.previous := 11;
     block.account := 12; block.link := 0; block.destination := 13;
     block.root := 11; block.qualified_root := 11; block.work := 0;
     block.is_send := false; block.epoch := 0; block.height := 2 |}.

(** Voter 7 holds 50 units, voter 8 holds 200, everyone else nothing. *)
Definition sample_weights (a : N) : N :=
  if a =? 7 then 50 else if a =? 8 then 200 else 0.

(** A node on the network chosen by [dev], with the given weights,
    principal-weight minimum, quorum delta and clock; it trends 1000 units
    of online weight, does not vote itself and requires no final votes. *)
Definition sample_node (dev : bool) (weights : N -> N) (minimum delta : N)
    (clock : Z) : node_t :=
  {| is_dev_network := dev; ledger_weight := weights;
     minimum_principal_weight := minimum; online_reps_trended := 1000;
     online_reps_delta := delta; block_confirmed := fun _ => false;
     enable_voting := false; wallets_reps_voting := 0;
     history_votes := fun _ _ => []; final_votes_confirmation_canary := false;
     election_winner_details_count := fun _ => 0;
     inactive_vote_cache_find := fun _ => None;
     vote_broadcast_interval := 100%Z; solicitor_add := false;
     solicitor_broadcast := false;
     election_expiration_tally_logging := false; now := clock |}.

(** A live-network node with minimum 10 and delta 100 that votes itself with
    one representative, and whose vote history for the root holds the votes
    of [own]. *)
Definition sample_voting_node (own : list N) (clock : Z) : node_t :=
  {| is_dev_network := false; ledger_weight := sample_weights;
     minimum_principal_weight := 10; online_reps_trended := 1000;
     online_reps_delta := 100; block_confirmed := fun _ => false;
     enable_voting := true; wallets_reps_voting := 1;
     history_votes := fun _ _ => own; final_votes_confirmation_canary := false;
     election_winner_details_count := fun _ => 0;
     inactive_vote_cache_find := fun _ => None;
     vote_broadcast_interval := 100%Z; solicitor_add := false;
     solicitor_broadcast := false;
     election_expiration_tally_logging := false; now := clock |}.

(** The state a call leaves behind ([e] itself when the call stopped). *)
Definition after {A : Type} (e : t) (r : outcome (A * t)) : t :=
  match r with
  | Ok (_, e') => e'
  | Err _ => e
  end.

(** An election on block 5, created at time 0. *)
Definition sample_election : t :=
  make (sample_node false sample_weights 10 100 0%Z) (sample_block 5) normal.

(** ... in which voter 7 voted for block 5 with timestamp 5, at second 1. *)
Definition sample_election_voted : t :=
  after sample_election
    (vote (sample_node false sample_weights 10 100 seconds) 7 5 5 live
       sample_election).

(** ... with block 6 published as a second candidate. *)
Definition sample_election_fork : t :=
  after sample_election_voted
    (publish (sample_node false sample_weights 10 100 seconds) (sample_block 6)
       sample_election_voted).

(** ... after voter 8, with more weight, voted for block 6 at second 20, on
    a node whose own vote history for the root holds a vote of voter 7. *)
Definition sample_election_swung : t :=
  after sample_election_fork
    (vote (sample_voting_node [7] (20 * seconds)) 8 1 6 live sample_election_fork).

(** The sample election after the tick at second 301, past its time to
    live of five minutes. *)
Definition sample_election_expired : t :=
  after sample_election
    (transition_time (sample_node false sample_weights 10 100 (301 * seconds))
       sample_election).

(** The sample election on the dev network, with block 6 published as a
    second candidate, ... *)
Definition sample_election_tied_fork : t :=
  after sample_election
    (publish (sample_node true sample_weights 10 100 seconds) (sample_block 6)
       sample_election).

(** ... the vote of 3, who holds nothing, for block 5, ... *)
Definition sample_election_tied_one : t :=
  after sample_election_tied_fork
    (vote (sample_node true sample_weights 10 100 seconds) 3 1 5 live
       sample_election_tied_fork).

(** ... and the vote of 4, who holds nothing either, for block 6. *)
Definition sample_election_tied : t :=
  after sample_election_tied_one
    (vote (sample_node true sample_weights 10 100 seconds) 4 1 6 live
       sample_election_tied_one).

(** A processor configuration with capacity [cap], whose work validation
    fails on the hashes [bad] and whose ledger answers [code] and names
    the link of a block plus 100 as its source. *)
Definition sample_config (cap : nat) (bad : N -> bool)
    (code : block_processor.process_result) : block_processor.config_t :=
  {| block_processor.block_processor_full_size := cap;
     block_processor.validate_entry := fun b => bad (block.hash b);
     block_processor.ledger_process := fun _ => code;
     block_processor.ledger_block_source := fun b => block.link b + 100;
     block_processor.epoch_max := 4 |}.

(** A processor with [queued] waiting for commit and nothing else. *)
Definition sample_processor (queued : list block.t) : block_processor.t :=
  {| block_processor.blocks := queued; block_processor.forced := [];
     block_processor.state_block_signature_verification := [];
     block_processor.unchecked := []; block_processor.satisfied := [];
     block_processor.gap_cache_erased := [];
     block_processor.block_arrival := []; block_processor.stats := [] |}.

(** A ledger without state that accepts every block, knows no successor,
    rolls back nothing, and takes 99 for the one epoch link. *)
Definition sample_ledger : block_processor_loop.ledger_t unit :=
  {| block_processor_loop.process := fun _ _ => (block_processor.progress, tt);
     block_processor_loop.successor := fun _ _ => None;
     block_processor_loop.rollback := fun _ _ => (false, [], tt);
     block_processor_loop.block_source := fun _ b => block.link b + 100;
     block_processor_loop.is_epoch_link := fun l => l =? 99 |}.

(** Batches of two blocks once the deadline passed, which it has from the
    start, and of three at most. *)
Definition sample_limits : block_processor_loop.limits_t :=
  {| block_processor_loop.block_processor_batch_size := 2;
     block_processor_loop.max_block_write_batch_num := 3;
     block_processor_loop.deadline_reached := fun _ => true |}.

(** The processor with [queued] waiting for commit, on the sample ledger. *)
Definition sample_state (queued : list block.t)
    : block_processor_loop.state unit :=
  {| block_processor_loop.processor := sample_processor queued;
     block_processor_loop.ledger := tt;
     block_processor_loop.rollback_failed := 0;
     block_processor_loop.blocks_rolled_back := [] |}.

(** An enabled scheduler for gaps above 32 blocks and two candidates. *)
Definition sample_optimistic_config : optimistic.optimistic_config :=
  {| optimistic.enabled := true; optimistic.gap_threshold := 32;
     optimistic.max_size := 2 |}.

(** Nine pairs of a hash and a root. *)
Definition sample_pairs : list (N * N) :=
  [(1, 11); (2, 12); (3, 13); (4, 14); (5, 15); (6, 16); (7, 17); (8, 18);
   (9, 19)].

(** A bundle with the nine pairs for channel 3 and none for channel 4. *)
Definition sample_bundle : gmap N (list (N * N)) :=
  <[ 4 := [] ]> {[ 3 := sample_pairs ]}.

(** * Proofs *)

(** ** The state machine *)

Section election_states.

Lemma state_eqb_eq (a b : state_t.t) : state_t.eqb a b = true <-> a = b.
Proof. destruct a, b; simpl; split; congruence. Qed.

Lemma state_eqb_refl (a : state_t.t) : state_t.eqb a a = true.
Proof. now apply state_eqb_eq. Qed.

Lemma valid_change_iff (x d : state_t.t) :
  valid_change x d = true <-> legal_transition x d.
Proof.
  unfold legal_transition. split.
  - destruct x, d; simpl; intros H; try discriminate H; tauto.
  - intros H.
    repeat (destruct H as [H | H]; [destruct H as [-> ->]; reflexivity |]).
    destruct H as [-> ->]. reflexivity.
Qed.

Lemma state_change_cases (n : node_t) (x d : state_t.t) (e : t) :
  (valid_change x d = true /\ state_m e = x
   /\ state_change n x d e = (false, set_state d (now n) e))
  \/ (~ (valid_change x d = true /\ state_m e = x)
      /\ state_change n x d e = (true, e)).
Proof.
  unfold state_change.
  destruct (valid_change x d) eqn:Hv.
  - destruct (state_t.eqb (state_m e) x) eqn:Hs.
    + left. apply state_eqb_eq in Hs. auto.
    + right. split; [| reflexivity]. intros [_ Heq].
      apply state_eqb_eq in Heq. congruence.
  - right. split; [| reflexivity]. intros [Hf _]. discriminate Hf.
Qed.

(** C3, amended. A state change is legal exactly for the six pairs
    passive->active, passive->confirmed, passive->expired_unconfirmed,
    active->confirmed, active->expired_unconfirmed and
    confirmed->expired_confirmed. [state_change] succeeds (returns false)
    exactly when the pair is one of the six and the election is in the
    expected state, and then the election is in the desired state; in
    every other case it is rejected and the election is left as it was, so
    that [state_change] never leaves expired_unconfirmed or
    expired_confirmed. [confirm_once] does not go through [state_change]:
    whatever the state was, also an expired one, the election is confirmed
    afterwards. *)
Theorem valid_change_six_pairs :
  (forall x d : state_t.t, valid_change x d = true <-> legal_transition x d)
  /\ (forall (n : node_t) (x d : state_t.t) (e : t),
        (state_change n x d e).1 = false
        <-> (legal_transition x d /\ state_m e = x))
  /\ (forall (n : node_t) (x d : state_t.t) (e : t),
        legal_transition x d -> state_m e = x ->
        state_m (state_change n x d e).2 = d)
  /\ (forall (n : node_t) (x d : state_t.t) (e : t),
        (state_change n x d e).1 = true -> (state_change n x d e).2 = e)
  /\ (forall (n : node_t) (x d : state_t.t) (e : t),
        terminal (state_m e) = true -> state_change n x d e = (true, e))
  /\ (forall (n : node_t) (ty : election_status_type) (e : t),
        state_m (confirm_once n ty e) = state_t.confirmed).
Proof.
  split; [exact valid_change_iff |]. split; [| split; [| split; [| split]]].
  - intros n x d e. rewrite <- valid_change_iff.
    destruct (state_change_cases n x d e) as [(Hv & Hs & ->) | (Hno & ->)];
      cbn [fst]; split.
    + auto.
    + reflexivity.
    + discriminate.
    + intros H. now elim Hno.
  - intros n x d e Hl Hs. apply valid_change_iff in Hl.
    destruct (state_change_cases n x d e) as [(_ & _ & ->) | (Hno & _)].
    + reflexivity.
    + elim Hno. now split.
  - intros n x d e.
    destruct (state_change_cases n x d e) as [(_ & _ & ->) | (_ & ->)];
      cbn [fst snd]; [discriminate | reflexivity].
  - intros n x d e Ht.
    destruct (state_change_cases n x d e) as [(Hv & Hs & _) | (_ & Heq)];
      [| exact Heq].
    subst x. destruct (state_m e); simpl in Ht, Hv; discriminate.
  - intros n ty e. unfold confirm_once. destruct (_ && _); reflexivity.
Qed.

(** C3 on a passive election, which becomes active, and on an election
    that expired after confirmation, which [state_change] leaves as it
    is. *)
Lemma valid_change_six_pairs_witness :
  state_m (state_change (sample_node false sample_weights 10 100 seconds)
             state_t.passive state_t.active sample_election).2
  = state_t.active
  /\ state_change (sample_node false sample_weights 10 100 seconds)
       state_t.expired_confirmed state_t.passive
       (set_state state_t.expired_confirmed 0%Z sample_election)
     = (true, set_state state_t.expired_confirmed 0%Z sample_election).
Proof.
  destruct valid_change_six_pairs as (_ & _ & Hmoves & _ & Hterminal & _).
  split.
  - apply (Hmoves (sample_node false sample_weights 10 100 seconds)
             state_t.passive state_t.active sample_election).
    + left. split; reflexivity.
    + reflexivity.
  - apply Hterminal. reflexivity.
Defined.

(** C3 as stated fails: the sample election expires unconfirmed at second
    301, a state the election can be in; the vote of voter 8 for its block
    one second later reaches quorum, and [confirm_once] makes the expired
    election confirmed. *)
Lemma terminal_state_left_counterexample :
  reachable sample_election_expired
  /\ state_m sample_election_expired = state_t.expired_unconfirmed
  /\ vote (sample_node false sample_weights 10 100 (302 * seconds)) 8 1 5 live
       sample_election_expired
     = Ok ({| replay := false; processed := true |},
           after sample_election_expired
             (vote (sample_node false sample_weights 10 100 (302 * seconds))
                8 1 5 live sample_election_expired))
  /\ state_m (after sample_election_expired
                (vote (sample_node false sample_weights 10 100 (302 * seconds))
                   8 1 5 live sample_election_expired))
     = state_t.confirmed.
Proof.
  split; [| split; [| split]]; try (vm_compute; reflexivity).
  apply (reach_transition_time
           (sample_node false sample_weights 10 100 (301 * seconds))
           sample_election sample_election_expired true);
    [| vm_compute; reflexivity].
  apply reach_make.
Qed.

(** C8: [state_change] returns false exactly when the transition is legal
    for [valid_change] and the current state is the expected one; the state
    is then the desired one, the state-start clock is the time of the call
    and nothing else changes. In every other case it returns true and the
    election is unchanged. *)
Theorem state_change_result (n : node_t) (x d : state_t.t) (e : t) :
  ((state_change n x d e).1 = false
     <-> (valid_change x d = true /\ state_m e = x))
  /\ ((state_change n x d e).1 = false ->
        state_m (state_change n x d e).2 = d
        /\ state_start (state_change n x d e).2 = now n
        /\ (state_change n x d e).2 = set_state d (now n) e)
  /\ ((state_change n x d e).1 = true ->
        (state_change n x d e).2 = e).
Proof.
  destruct (state_change_cases n x d e) as [(Hv & Hs & Heq) | (Hn & Heq)];
    rewrite Heq; simpl.
  - split; [tauto |]. split; [auto | discriminate].
  - split; [split; [discriminate | intros H; elim (Hn H)] |].
    split; [discriminate | reflexivity].
Qed.

(** C8 on an election that is passive: the change to active is made and
    stamped with the time of the call. *)
Lemma state_change_result_witness :
  state_m (state_change (sample_node false sample_weights 10 100 seconds)
             state_t.passive state_t.active sample_election).2 = state_t.active
  /\ state_start (state_change (sample_node false sample_weights 10 100 seconds)
                    state_t.passive state_t.active sample_election).2 = seconds.
Proof.
  destruct (state_change_result (sample_node false sample_weights 10 100 seconds)
              state_t.passive state_t.active sample_election)
    as (_ & Hdone & _).
  destruct Hdone as (Hs & Ht & _); [reflexivity |].
  split; [exact Hs | exact Ht].
Defined.

End election_states.

(** ** The tally and the quorum margin *)

Section tally.

Lemma wrap128_lt (x : N) : wrap128 x < uint128_modulus.
Proof. unfold wrap128. apply N.mod_lt. discriminate. Qed.

Lemma wrap128_small (x : N) : x < uint128_modulus -> wrap128 x = x.
Proof. unfold wrap128. apply N.mod_small. Qed.

Lemma sub128_exact (a b : N) :
  b <= a -> a < uint128_modulus -> sub128 a b = a - b.
Proof.
  intros Hle Hlt. unfold sub128.
  rewrite (wrap128_small b) by lia.
  replace (a + uint128_modulus - b) with ((a - b) + 1 * uint128_modulus) by lia.
  unfold wrap128. rewrite N.Div0.mod_add. apply N.mod_small. lia.
Qed.

Lemma Forall_tally_emplace (P : N * block.t -> Prop) amount b tl :
  P (amount, b) -> Forall P tl -> Forall P (tally_emplace amount b tl).
Proof.
  intros Hp. induction 1 as [| [a' b'] rest Hx Hrest IH]; simpl.
  - constructor; [exact Hp | constructor].
  - destruct (a' <? amount); repeat constructor; assumption.
Qed.

Lemma tally_emplace_sorted amount b tl :
  StronglySorted not_below tl ->
  StronglySorted not_below (tally_emplace amount b tl).
Proof.
  induction 1 as [| [a' b'] rest Hs IH Hall]; simpl.
  - repeat constructor.
  - destruct (a' <? amount) eqn:Hcmp.
    + apply N.ltb_lt in Hcmp.
      constructor; [constructor; assumption |].
      constructor; [unfold not_below; simpl; lia |].
      eapply Forall_impl; [exact Hall |].
      intros [y ?]. unfold not_below. simpl. lia.
    + apply N.ltb_ge in Hcmp.
      constructor; [exact IH |].
      apply Forall_tally_emplace; [unfold not_below; simpl; lia | exact Hall].
Qed.

Lemma tally_emplace_nonempty amount b tl : tally_emplace amount b tl <> [].
Proof. destruct tl as [| [a' b'] rest]; simpl; [| destruct (a' <? amount)]; discriminate. Qed.

Lemma sorted_descending (tl : tally_t) :
  StronglySorted not_below tl -> descending (map fst tl) = true.
Proof.
  induction 1 as [| [a b] rest Hs IH Hall]; [reflexivity |].
  destruct rest as [| [a' b'] rest']; [reflexivity |].
  change (((a' <=? a) && descending (map fst ((a', b') :: rest'))) = true).
  rewrite IH, andb_true_r. apply N.leb_le.
  inversion Hall as [| ? ? Hh _]; subst. exact Hh.
Qed.

Lemma tally_inv_ordered (tl : tally_t) : tally_inv tl -> tally_ordered tl = true.
Proof.
  intros [Hs Hr]. unfold tally_ordered.
  rewrite sorted_descending by exact Hs. simpl.
  apply forallb_forall. intros x Hx.
  apply N.ltb_lt. rewrite Forall_forall in Hr. apply Hr.
  apply list_elem_of_In. exact Hx.
Qed.

Lemma tally_fold_inv (blocks : gmap N block.t) (weights : list (N * N)) :
  forall acc : tally_t,
  Forall (fun ha => ha.2 < uint128_modulus) weights ->
  tally_inv acc ->
  tally_inv (foldl (tally_entry blocks) acc weights).
Proof.
  induction weights as [| [h a] rest IH]; intros acc Hw Hacc; [exact Hacc |].
  simpl. inversion Hw as [| ? ? Hh Hrest]; subst. apply IH; [exact Hrest |].
  unfold tally_entry. simpl.
  destruct (blocks !! h) as [b |]; [| exact Hacc].
  destruct Hacc as [Hs Hr]. split.
  - now apply tally_emplace_sorted.
  - now apply Forall_tally_emplace.
Qed.

Lemma add128_lt (a b : N) : add128 a b < uint128_modulus.
Proof. apply wrap128_lt. Qed.

Lemma add_weight_bounded (m : gmap N N) (h w : N) :
  map_Forall (fun _ v => v < uint128_modulus) m ->
  map_Forall (fun _ v => v < uint128_modulus) (add_weight m h w).
Proof.
  intros Hm. unfold add_weight. apply map_Forall_insert_2; [| exact Hm].
  apply add128_lt.
Qed.

Lemma vote_weights_bounded (n : node_t) (votes : list (N * vote_info)) :
  forall acc : gmap N N * gmap N N,
  map_Forall (fun _ v => v < uint128_modulus) acc.1 ->
  map_Forall (fun _ v => v < uint128_modulus) (foldl (count_vote n) acc votes).1.
Proof.
  induction votes as [| av rest IH]; intros acc Hacc; [exact Hacc |].
  simpl. apply IH. simpl. now apply add_weight_bounded.
Qed.

Lemma tally_impl_inv (n : node_t) (e : t) : tally_inv (tally_impl n e).1.
Proof.
  unfold tally_impl. simpl. unfold tally_of.
  apply tally_fold_inv; [| split; constructor].
  apply Forall_forall. intros [h a] Hin. simpl.
  apply elem_of_map_to_list in Hin.
  assert (Hb : map_Forall (fun _ v => v < uint128_modulus)
                 (vote_weights n (map_to_list (last_votes e))).1).
  { unfold vote_weights. apply vote_weights_bounded. simpl.
    apply map_Forall_empty. }
  exact (Hb h a Hin).
Qed.

Lemma ordered_head (top : N) (b : block.t) (rest : tally_t) :
  tally_ordered ((top, b) :: rest) = true ->
  second_weight ((top, b) :: rest) <= top /\ top < uint128_modulus.
Proof.
  unfold tally_ordered. intros H. apply andb_true_iff in H as [Hd Hr].
  simpl in Hr. apply andb_true_iff in Hr as [Ht _]. apply N.ltb_lt in Ht.
  split; [| exact Ht].
  destruct rest as [| [w b'] rest']; simpl; [lia |].
  simpl in Hd. apply andb_true_iff in Hd as [Hle _]. now apply N.leb_le.
Qed.

Lemma have_quorum_ordered (n : node_t) (tl : tally_t) :
  tl <> [] -> tally_ordered tl = true ->
  have_quorum n tl
  = Ok (online_reps_delta n <=? top_weight tl - second_weight tl).
Proof.
  intros Hne Hord. destruct tl as [| [top b] rest]; [congruence |].
  destruct (ordered_head top b rest Hord) as [Hle Hlt].
  unfold have_quorum. simpl top_weight.
  replace (match rest with (w, _) :: _ => w | [] => 0 end)
    with (second_weight ((top, b) :: rest)) by (destruct rest as [| [? ?] ?]; reflexivity).
  destruct (top <? second_weight ((top, b) :: rest)) eqn:Hcmp.
  - apply N.ltb_lt in Hcmp. lia.
  - now rewrite sub128_exact.
Qed.

(** C1: on a non-empty tally (ordered from the highest amount, as a
    [tally_t] is) [have_quorum] returns, and it returns true if and only if
    the highest amount minus the second-highest one (0 when there is no
    second entry) is at least the quorum delta of the node. *)
Theorem have_quorum_margin (n : node_t) (tl : tally_t) :
  tl <> [] -> tally_ordered tl = true ->
  exists r : bool,
    have_quorum n tl = Ok r
    /\ (r = true <->
        (Z.of_N (online_reps_delta n)
         <= Z.of_N (top_weight tl) - Z.of_N (second_weight tl))%Z).
Proof.
  intros Hne Hord. eexists. split; [now apply have_quorum_ordered |].
  destruct tl as [| [top b] rest]; [congruence |].
  destruct (ordered_head top b rest Hord) as [Hle _].
  simpl top_weight. rewrite N.leb_le. lia.
Qed.

(** C1, at delta = 100: 150 against 40 is a quorum, 150 against 60 is not. *)
Lemma have_quorum_margin_witness :
  have_quorum (sample_node false (fun _ => 0) 0 100 0%Z)
    [(150, sample_block 1); (40, sample_block 2)] = Ok true
  /\ have_quorum (sample_node false (fun _ => 0) 0 100 0%Z)
       [(150, sample_block 1); (60, sample_block 2)] = Ok false.
Proof.
  split.
  - destruct (have_quorum_margin (sample_node false (fun _ => 0) 0 100 0%Z)
                [(150, sample_block 1); (40, sample_block 2)])
      as [r [Hr Hiff]]; [discriminate | reflexivity |].
    rewrite Hr. f_equal. apply Hiff. vm_compute. discriminate.
  - destruct (have_quorum_margin (sample_node false (fun _ => 0) 0 100 0%Z)
                [(150, sample_block 1); (60, sample_block 2)])
      as [r [Hr Hiff]]; [discriminate | reflexivity |].
    rewrite Hr. f_equal. destruct r; [| reflexivity].
    exfalso. assert (Hle := proj1 Hiff eq_refl). vm_compute in Hle.
    apply Hle. reflexivity.
Defined.

(** C10: the tally that [tally_impl] builds is ordered from the highest
    amount and its amounts fit 128 bits; on a non-empty ordered tally the
    second amount is at most the first, so the [release_assert] of
    [have_quorum] passes, the subtraction does not wrap around and a result
    is returned; on an empty tally [have_quorum] has no defined result. *)
Theorem have_quorum_assertion_holds :
  (forall (n : node_t) (e : t), tally_ordered (tally_impl n e).1 = true)
  /\ (forall (n : node_t) (tl : tally_t),
        tl <> [] -> tally_ordered tl = true ->
        second_weight tl <= top_weight tl
        /\ Z.of_N (sub128 (top_weight tl) (second_weight tl))
           = (Z.of_N (top_weight tl) - Z.of_N (second_weight tl))%Z
        /\ have_quorum n tl <> Err release_assert_failed
        /\ exists r : bool, have_quorum n tl = Ok r)
  /\ (forall n : node_t, have_quorum n [] = Err undefined_behaviour).
Proof.
  split; [| split].
  - intros n e. apply tally_inv_ordered, tally_impl_inv.
  - intros n tl Hne Hord.
    rewrite (have_quorum_ordered n tl Hne Hord).
    destruct tl as [| [top b] rest]; [congruence |].
    destruct (ordered_head top b rest Hord) as [Hle Hlt].
    simpl top_weight. split; [exact Hle |]. split.
    + rewrite sub128_exact by assumption. lia.
    + split; [discriminate | eauto].
  - reflexivity.
Qed.

(** C10 on the tally 150, 40: the second amount is below the first. *)
Lemma have_quorum_assertion_holds_witness :
  second_weight [(150, sample_block 1); (40, sample_block 2)]
  <= top_weight [(150, sample_block 1); (40, sample_block 2)].
Proof.
  destruct have_quorum_assertion_holds as (_ & Hassert & _).
  destruct (Hassert (sample_node false (fun _ => 0) 0 100 0%Z)
              [(150, sample_block 1); (40, sample_block 2)])
    as (Hle & _); [discriminate | reflexivity |].
  exact Hle.
Defined.

End tally.

(** ** The block processor *)

Section processor.
Import block_processor.

Lemma stat_eqb_refl (d : stat) : stat_eqb d d = true.
Proof. destruct d as [| | | | | | r]; try reflexivity. destruct r; reflexivity. Qed.

Lemma stat_count_inc_same (d : stat) (p : t) :
  stat_count d (stats_inc d p) = S (stat_count d p).
Proof. unfold stat_count. simpl. now rewrite stat_eqb_refl. Qed.

(** C6: [add] on a processor whose pending count (verification, normal
    and forced queues together) has reached the configured capacity, the
    capacity itself included, increments the overfill counter and leaves
    the queues as they were; below capacity a block that fails the work
    validation increments the insufficient-work counter and is not queued;
    any other block is queued, one more pending: state and open blocks at
    the back of the verification queue, the others at the back of the
    queue of blocks to commit, and no counter moves. *)
Theorem add_backpressure (c : config_t) (b : block.t) (p : t) :
  ((block_processor_full_size c <= size p)%nat ->
     add c b p = stats_inc blockprocessor_overfill p
     /\ pending (add c b p) = pending p
     /\ stat_count blockprocessor_overfill (add c b p)
        = S (stat_count blockprocessor_overfill p))
  /\ ((size p < block_processor_full_size c)%nat -> validate_entry c b = true ->
        add c b p = stats_inc blockprocessor_insufficient_work p
        /\ pending (add c b p) = pending p
        /\ stat_count blockprocessor_insufficient_work (add c b p)
           = S (stat_count blockprocessor_insufficient_work p))
  /\ ((size p < block_processor_full_size c)%nat -> validate_entry c b = false ->
        size (add c b p) = S (size p)
        /\ stats (add c b p) = stats p
        /\ pending (add c b p)
           = if block_type_eqb (block.type b) bt_state
                || block_type_eqb (block.type b) bt_open
             then (state_block_signature_verification p ++ [b], blocks p, forced p)
             else (state_block_signature_verification p, blocks p ++ [b], forced p)).
Proof.
  unfold add, full. split; [| split].
  - intros Hfull. apply Nat.leb_le in Hfull. rewrite Hfull.
    split; [reflexivity |]. split; [reflexivity |]. apply stat_count_inc_same.
  - intros Hroom Hwork. apply Nat.leb_gt in Hroom. rewrite Hroom, Hwork.
    split; [reflexivity |]. split; [reflexivity |]. apply stat_count_inc_same.
  - intros Hroom Hwork. apply Nat.leb_gt in Hroom. rewrite Hroom, Hwork.
    unfold add_impl, size, pending.
    destruct (_ || _); simpl; rewrite length_app; simpl;
      (split; [lia | split; reflexivity]).
Qed.

(** C6 on a processor of capacity 2: with two blocks pending a third one
    only moves the overfill counter; with one pending, a block with bad
    work only moves the insufficient-work counter and a good one is
    queued. *)
Lemma add_backpressure_witness :
  (pending (add (sample_config 2 (fun _ => false) progress) (sample_block 3)
              (sample_processor [sample_block 1; sample_block 2]))
   = ([], [sample_block 1; sample_block 2], [])
   /\ stat_count blockprocessor_overfill
        (add (sample_config 2 (fun _ => false) progress) (sample_block 3)
           (sample_processor [sample_block 1; sample_block 2])) = 1%nat)
  /\ (pending (add (sample_config 2 (fun _ => true) progress) (sample_block 3)
                 (sample_processor [sample_block 1]))
      = ([], [sample_block 1], [])
      /\ stat_count blockprocessor_insufficient_work
           (add (sample_config 2 (fun _ => true) progress) (sample_block 3)
              (sample_processor [sample_block 1])) = 1%nat)
  /\ pending (add (sample_config 2 (fun _ => false) progress) (sample_block 3)
                (sample_processor [sample_block 1]))
     = ([sample_block 3], [sample_block 1], []).
Proof.
  split; [| split].
  - destruct (add_backpressure (sample_config 2 (fun _ => false) progress)
                (sample_block 3)
                (sample_processor [sample_block 1; sample_block 2]))
      as [Hfull _].
    destruct Hfull as (_ & Hq & Hc); [vm_compute; lia |].
    rewrite Hq, Hc. split; reflexivity.
  - destruct (add_backpressure (sample_config 2 (fun _ => true) progress)
                (sample_block 3) (sample_processor [sample_block 1]))
      as (_ & Hwork & _).
    destruct Hwork as (_ & Hq & Hc); [vm_compute; lia | reflexivity |].
    rewrite Hq, Hc. split; reflexivity.
  - destruct (add_backpressure (sample_config 2 (fun _ => false) progress)
                (sample_block 3) (sample_processor [sample_block 1]))
      as (_ & _ & Hok).
    destruct Hok as (_ & _ & Hq); [vm_compute; lia | reflexivity |].
    rewrite Hq. reflexivity.
Defined.

Lemma filter_subset {A : Type} (f : A -> bool) (l : list A) (x : A) :
  In x (List.filter f l) -> In x l.
Proof. intros H. apply filter_In in H. tauto. Qed.

(** C7: [process_one] returns the result of the ledger commit. On gap_previous
    it adds the block to the unchecked table under the block's previous
    hash, on gap_source under the source the ledger names for the block, on
    gap_epoch_open_pending under the block's account. On a validation
    rejection, a duplicate or a fork the table is left as it was, and on
    any result that is not a gap nothing is added to it. *)
Theorem process_one_parks_gaps (c : config_t) (b : block.t) (forced_a : bool) (p : t) :
  (process_one c b forced_a p).1 = ledger_process c b
  /\ (ledger_process c b = gap_previous ->
        unchecked (process_one c b forced_a p).2
        = unchecked p ++ [(block.previous b, b)])
  /\ (ledger_process c b = gap_source ->
        unchecked (process_one c b forced_a p).2
        = unchecked p ++ [(ledger_block_source c b, b)])
  /\ (ledger_process c b = gap_epoch_open_pending ->
        unchecked (process_one c b forced_a p).2
        = unchecked p ++ [(block.account b, b)])
  /\ (is_rejection (ledger_process c b) = true ->
        unchecked (process_one c b forced_a p).2 = unchecked p)
  /\ (is_gap (ledger_process c b) = false ->
        forall entry : N * block.t,
          In entry (unchecked (process_one c b forced_a p).2) ->
          In entry (unchecked p)).
Proof.
  unfold process_one. split; [reflexivity |].
  repeat split.
  - intros ->. reflexivity.
  - intros ->. reflexivity.
  - intros ->. reflexivity.
  - destruct (ledger_process c b); simpl; intros H; try discriminate H; reflexivity.
  - destruct (ledger_process c b); simpl; intros H entry Hin;
      try discriminate H; try exact Hin.
    destruct (_ || _); simpl in Hin.
    + apply filter_subset in Hin. now apply filter_subset in Hin.
    + now apply filter_subset in Hin.
Qed.

(** C7 on a legacy send block with previous hash 11, account 12 and the
    source 100 named by the ledger: the three gaps park it under 11, 100
    and 12, a bad signature parks nothing. *)
Lemma process_one_parks_gaps_witness :
  unchecked (process_one (sample_config 2 (fun _ => false) gap_previous)
               (sample_legacy_block 9) false (sample_processor [])).2
  = [(11, sample_legacy_block 9)]
  /\ unchecked (process_one (sample_config 2 (fun _ => false) gap_source)
                  (sample_legacy_block 9) false (sample_processor [])).2
     = [(100, sample_legacy_block 9)]
  /\ unchecked (process_one (sample_config 2 (fun _ => false) gap_epoch_open_pending)
                  (sample_legacy_block 9) false (sample_processor [])).2
     = [(12, sample_legacy_block 9)]
  /\ unchecked (process_one (sample_config 2 (fun _ => false) bad_signature)
                  (sample_legacy_block 9) false (sample_processor [])).2
     = [].
Proof.
  split; [| split; [| split]].
  - destruct (process_one_parks_gaps (sample_config 2 (fun _ => false) gap_previous)
                (sample_legacy_block 9) false (sample_processor []))
      as (_ & H & _).
    rewrite H; reflexivity.
  - destruct (process_one_parks_gaps (sample_config 2 (fun _ => false) gap_source)
                (sample_legacy_block 9) false (sample_processor []))
      as (_ & _ & H & _).
    rewrite H; reflexivity.
  - destruct (process_one_parks_gaps
                (sample_config 2 (fun _ => false) gap_epoch_open_pending)
                (sample_legacy_block 9) false (sample_processor []))
      as (_ & _ & _ & H & _).
    rewrite H; reflexivity.
  - destruct (process_one_parks_gaps (sample_config 2 (fun _ => false) bad_signature)
                (sample_legacy_block 9) false (sample_processor []))
      as (_ & _ & _ & _ & H & _).
    rewrite H; reflexivity.
Defined.

End processor.

(** ** Votes *)

Section votes.

(** *** What confirmation leaves in place *)

Lemma foldl_delete_lookup (l : list N) :
  forall (m : gmap N vote_info) (r : N),
    foldl (fun votes voter => delete voter votes) m l !! r = None
    \/ foldl (fun votes voter => delete voter votes) m l !! r = m !! r.
Proof.
  induction l as [| a l IH]; intros m r; simpl; [now right |].
  destruct (IH (delete a m) r) as [H | H]; [now left |].
  rewrite H. destruct (decide (a = r)) as [-> | Hne].
  - left. apply lookup_delete_eq.
  - right. now apply lookup_delete_ne.
Qed.

Lemma remove_votes_lookup (n : node_t) (h : N) (e : t) (r : N) :
  last_votes (remove_votes n h e) !! r = None
  \/ last_votes (remove_votes n h e) !! r = last_votes e !! r.
Proof.
  unfold remove_votes. destruct (_ && _); simpl; [| now right].
  apply foldl_delete_lookup.
Qed.

Lemma remove_votes_frame (n : node_t) (h : N) (e : t) :
  last_blocks (remove_votes n h e) = last_blocks e
  /\ status (remove_votes n h e) = status e
  /\ state_m (remove_votes n h e) = state_m e.
Proof. unfold remove_votes. destruct (_ && _); simpl; auto. Qed.

Lemma confirm_once_frame (n : node_t) (ty : election_status_type) (e : t) :
  last_votes (confirm_once n ty e) = last_votes e
  /\ last_blocks (confirm_once n ty e) = last_blocks e
  /\ winner (status (confirm_once n ty e)) = winner (status e).
Proof. unfold confirm_once. destruct (_ && _); simpl; auto. Qed.

Lemma tally_impl_frame (n : node_t) (e : t) :
  last_votes (tally_impl n e).2 = last_votes e
  /\ last_blocks (tally_impl n e).2 = last_blocks e
  /\ status (tally_impl n e).2 = status e
  /\ state_m (tally_impl n e).2 = state_m e.
Proof. unfold tally_impl. simpl. auto. Qed.

Lemma tally_fold_blocks (blocks : gmap N block.t) (weights : list (N * N)) :
  forall acc : tally_t,
  Forall (fun x => candidate blocks x.2) acc ->
  Forall (fun x => candidate blocks x.2)
    (foldl (tally_entry blocks) acc weights).
Proof.
  induction weights as [| [h a] rest IH]; intros acc Hacc; [exact Hacc |].
  simpl. apply IH. unfold tally_entry. simpl.
  destruct (blocks !! h) as [b |] eqn:Hb; [| exact Hacc].
  apply Forall_tally_emplace; [| exact Hacc]. now exists h.
Qed.

Lemma tally_impl_blocks (n : node_t) (e : t) :
  Forall (fun x => candidate (last_blocks e) x.2) (tally_impl n e).1.
Proof. unfold tally_impl. simpl. apply tally_fold_blocks. constructor. Qed.

Lemma evolves_refl (e : t) : evolves e e.
Proof. repeat split; auto. Qed.

Lemma evolves_trans (e1 e2 e3 : t) : evolves e1 e2 -> evolves e2 e3 -> evolves e1 e3.
Proof.
  intros (Hb1 & Hv1 & Hw1) (Hb2 & Hv2 & Hw2). split; [congruence |]. split.
  - intros r. destruct (Hv2 r) as [H | H]; [now left |].
    rewrite H. apply Hv1.
  - destruct Hw2 as [H | H]; [rewrite H; exact Hw1 |].
    right. now rewrite <- Hb1.
Qed.

Lemma evolves_same (e e' : t) :
  last_blocks e' = last_blocks e -> last_votes e' = last_votes e ->
  winner (status e') = winner (status e) -> evolves e e'.
Proof. intros Hb Hv Hw. split; [exact Hb |]. split; [rewrite Hv |]; auto. Qed.

Lemma promote_winner_evolves (n : node_t) (tl : tally_t) (bl : block.t) (e : t) :
  candidate (last_blocks e) bl -> evolves e (promote_winner n tl bl e).
Proof.
  intros Hc. unfold promote_winner. destruct (_ && _); [| apply evolves_refl].
  destruct (remove_votes_frame n (block.hash (winner (status e)))
              (set_status (set_winner bl) e)) as (Hb & Hs & _).
  split; [simpl; now rewrite Hb |]. split.
  - intros r. simpl. apply (remove_votes_lookup n _ (set_status (set_winner bl) e) r).
  - right. simpl. rewrite Hs. exact Hc.
Qed.

Lemma request_final_vote_evolves (n : node_t) (e : t) :
  evolves e (request_final_vote n e).
Proof.
  unfold request_final_vote. destruct (final_votes_confirmation_canary n);
    [| apply evolves_refl].
  destruct (_ && _); now apply evolves_same.
Qed.

Lemma confirm_once_evolves (n : node_t) (ty : election_status_type) (e : t) :
  evolves e (confirm_once n ty e).
Proof. destruct (confirm_once_frame n ty e) as (? & ? & ?). now apply evolves_same. Qed.

Lemma confirm_if_quorum_evolves (n : node_t) (e e' : t) :
  confirm_if_quorum n e = Ok e' -> evolves e e'.
Proof.
  unfold confirm_if_quorum.
  pose proof (tally_impl_blocks n e) as Hcand.
  destruct (tally_impl_frame n e) as (Hv & Hb & Hs & _).
  destruct (tally_impl n e) as [tl e1]. simpl in Hcand, Hv, Hb, Hs.
  destruct tl as [| [amount bl] rest]; [discriminate |].
  inversion Hcand as [| ? ? Hbl _]; subst. simpl in Hbl.
  set (e2 := set_status (set_tallies amount (final_weight e1)) e1).
  assert (H12 : evolves e e2).
  { apply evolves_same; simpl; congruence. }
  assert (H23 : evolves e2 (promote_winner n ((amount, bl) :: rest) bl e2)).
  { apply promote_winner_evolves. simpl. now rewrite Hb. }
  destruct (have_quorum n ((amount, bl) :: rest)) as [q |]; [| discriminate].
  simpl. destruct q.
  - destruct (_ || _); intros [= <-].
    + eapply evolves_trans; [exact H12 |]. eapply evolves_trans; [exact H23 |].
      eapply evolves_trans; [apply request_final_vote_evolves |].
      apply confirm_once_evolves.
    + eapply evolves_trans; [exact H12 |]. eapply evolves_trans; [exact H23 |].
      apply request_final_vote_evolves.
  - intros [= <-]. eapply evolves_trans; [exact H12 | exact H23].
Qed.

(** *** When a vote is tallied *)

Lemma add_weight_keeps (m : gmap N N) (h w k : N) :
  is_Some (m !! k) -> is_Some (add_weight m h w !! k).
Proof.
  intros Hk. unfold add_weight. destruct (decide (h = k)) as [-> | Hne].
  - rewrite lookup_insert_eq. eauto.
  - now rewrite lookup_insert_ne.
Qed.

Lemma vote_weights_keeps (n : node_t) (votes : list (N * vote_info)) :
  forall (acc : gmap N N * gmap N N) (k : N),
  is_Some (acc.1 !! k) -> is_Some ((foldl (count_vote n) acc votes).1 !! k).
Proof.
  induction votes as [| av rest IH]; intros acc k Hk; [exact Hk |].
  simpl. apply IH. simpl. now apply add_weight_keeps.
Qed.

Lemma vote_weights_covers (n : node_t) (votes : list (N * vote_info)) :
  forall (acc : gmap N N * gmap N N) (av : N * vote_info),
  In av votes ->
  is_Some ((foldl (count_vote n) acc votes).1 !! vote_hash av.2).
Proof.
  induction votes as [| x rest IH]; intros acc av Hin; [destruct Hin |].
  simpl. destruct Hin as [-> | Hin]; [| now apply IH].
  apply vote_weights_keeps. simpl. unfold add_weight.
  rewrite lookup_insert_eq. eauto.
Qed.

Lemma tally_fold_keeps (blocks : gmap N block.t) (weights : list (N * N)) :
  forall acc : tally_t,
  acc <> [] -> foldl (tally_entry blocks) acc weights <> [].
Proof.
  induction weights as [| ha rest IH]; intros acc Hacc; [exact Hacc |].
  simpl. apply IH. unfold tally_entry.
  destruct (blocks !! ha.1); [apply tally_emplace_nonempty | exact Hacc].
Qed.

Lemma tally_fold_covers (blocks : gmap N block.t) (weights : list (N * N)) :
  forall (acc : tally_t) (ha : N * N),
  In ha weights -> is_Some (blocks !! ha.1) ->
  foldl (tally_entry blocks) acc weights <> [].
Proof.
  induction weights as [| x rest IH]; intros acc ha Hin Hb; [destruct Hin |].
  simpl. destruct Hin as [-> | Hin]; [| now apply (IH _ ha)].
  apply tally_fold_keeps. unfold tally_entry. destruct Hb as [b ->].
  apply tally_emplace_nonempty.
Qed.

(** A recorded vote for a candidate block makes the tally non-empty. *)
Lemma tally_impl_nonempty (n : node_t) (e : t) (rep : N) (info : vote_info) :
  last_votes e !! rep = Some info ->
  is_Some (last_blocks e !! vote_hash info) ->
  (tally_impl n e).1 <> [].
Proof.
  intros Hv Hb. unfold tally_impl. simpl. unfold tally_of.
  assert (Hin : In (rep, info) (map_to_list (last_votes e))).
  { apply list_elem_of_In, elem_of_map_to_list. exact Hv. }
  destruct (vote_weights_covers n _ (∅, ∅) (rep, info) Hin) as [amount Ha].
  simpl in Ha.
  apply (tally_fold_covers _ _ [] (vote_hash info, amount)); [| exact Hb].
  apply list_elem_of_In, elem_of_map_to_list. exact Ha.
Qed.

Lemma confirm_if_quorum_returns (n : node_t) (e : t) :
  (tally_impl n e).1 <> [] -> exists e' : t, confirm_if_quorum n e = Ok e'.
Proof.
  intros Hne. unfold confirm_if_quorum.
  pose proof (tally_inv_ordered _ (tally_impl_inv n e)) as Hord.
  destruct (tally_impl n e) as [tl e1]. simpl in Hne, Hord.
  destruct tl as [| [amount bl] rest]; [congruence |].
  rewrite (have_quorum_ordered n _ Hne Hord). simpl.
  destruct (_ <=? _); [destruct (_ || _) |]; eauto.
Qed.

(** *** The checks of [vote] *)

Lemma weight_check_dec (n : node_t) (rep : N) :
  negb (is_dev_network n) && (ledger_weight n rep <=? minimum_principal_weight n)
  = false <-> passes_weight_check n rep.
Proof.
  unfold passes_weight_check. destruct (is_dev_network n); simpl.
  - split; auto.
  - rewrite N.leb_gt. split; [auto | intros [H | H]; [discriminate | exact H]].
Qed.

Lemma vote_weight_rejects (n : node_t) (rep ts h : N) (src : vote_source) (e : t) :
  is_dev_network n = false ->
  ledger_weight n rep <= minimum_principal_weight n ->
  vote n rep ts h src e = Ok (rejected false, e).
Proof.
  intros Hdev Hw. unfold vote. rewrite Hdev. simpl.
  apply N.leb_le in Hw. now rewrite Hw.
Qed.

Lemma vote_stale_replay (n : node_t) (rep ts h : N) (src : vote_source) (e : t)
    (lv : vote_info) :
  passes_weight_check n rep -> last_votes e !! rep = Some lv -> stale lv ts h ->
  vote n rep ts h src e = Ok (rejected true, e).
Proof.
  intros Hg Hlv Hst. unfold vote.
  apply weight_check_dec in Hg. rewrite Hg, Hlv.
  destruct Hst as [Hlt | [-> Hle]].
  - apply N.ltb_lt in Hlt. now rewrite Hlt.
  - rewrite N.ltb_irrefl, N.eqb_refl. simpl.
    apply N.ltb_ge in Hle. now rewrite Hle.
Qed.

Lemma not_stale (lv : vote_info) (ts h : N) :
  (ts <? timestamp lv) = false ->
  (timestamp lv =? ts) && negb (vote_hash lv <? h) = false ->
  timestamp lv < ts \/ (timestamp lv = ts /\ vote_hash lv < h).
Proof.
  intros H1 H2. apply N.ltb_ge in H1.
  destruct (timestamp lv =? ts) eqn:He; cbn [andb] in H2.
  - apply N.eqb_eq in He. rewrite negb_false_iff, N.ltb_lt in H2. now right.
  - apply N.eqb_neq in He. left. lia.
Qed.

(** Every way [vote] returns. *)
Lemma vote_cases (n : node_t) (rep ts h : N) (src : vote_source) (e : t)
    (res : election_vote_result) (e' : t) :
  vote n rep ts h src e = Ok (res, e') ->
  (processed res = false /\ e' = e)
  \/ (passes_weight_check n rep
      /\ record_vote n rep ts h src e = Ok (res, e')
      /\ forall lv : vote_info, last_votes e !! rep = Some lv ->
           (timestamp lv < ts \/ (timestamp lv = ts /\ vote_hash lv < h))
           /\ (src = live ->
               (ts = uint64_max /\ timestamp lv < ts)
               \/ (time lv + cooldown_time n (ledger_weight n rep) * seconds
                   <= now n)%Z)).
Proof.
  unfold vote.
  destruct (negb (is_dev_network n) && _) eqn:Hg;
    [intros [= <- <-]; now left |].
  apply weight_check_dec in Hg.
  destruct (last_votes e !! rep) as [lv |] eqn:Hlv.
  - destruct (ts <? timestamp lv) eqn:H1; [intros [= <- <-]; now left |].
    destruct ((timestamp lv =? ts) && negb (vote_hash lv <? h)) eqn:H2;
      [intros [= <- <-]; now left |].
    destruct (negb _ && negb _) eqn:H3; [intros [= <- <-]; now left |].
    intros Hr. right. split; [exact Hg |]. split; [exact Hr |].
    intros lv' [= <-]. split; [now apply not_stale |].
    intros ->. apply andb_false_iff in H3 as [H3 | H3].
    + left. rewrite negb_false_iff, andb_true_iff in H3. destruct H3 as [Ha Hb].
      apply N.eqb_eq in Ha. apply N.ltb_lt in Hb. now split.
    + right. rewrite negb_false_iff, Z.leb_le in H3. lia.
  - intros Hr. right. split; [exact Hg |]. split; [exact Hr |].
    intros lv [=].
Qed.

Lemma record_vote_evolves (n : node_t) (rep ts h : N) (src : vote_source) (e : t)
    (res : election_vote_result) (e' : t) :
  record_vote n rep ts h src e = Ok (res, e') ->
  res = accepted
  /\ evolves (set_last_votes
                (<[ rep := {| time := now n; timestamp := ts; vote_hash := h |} ]>
                   (last_votes e)) e) e'.
Proof.
  unfold record_vote.
  set (e1 := set_last_votes _ e).
  set (e2 := match src with live => _ | cache => _ end).
  assert (H12 : evolves e1 e2).
  { subst e2. destruct src; now apply evolves_same. }
  destruct (negb (confirmed n e2)).
  - destruct (confirm_if_quorum n e2) as [e3 |] eqn:Hc; [| discriminate].
    simpl. intros [= <- <-]. split; [reflexivity |].
    eapply evolves_trans; [exact H12 |]. exact (confirm_if_quorum_evolves n _ _ Hc).
  - simpl. intros [= <- <-]. split; [reflexivity | exact H12].
Qed.

Lemma record_vote_returns (n : node_t) (rep ts h : N) (src : vote_source) (e : t) :
  is_Some (last_blocks e !! h) ->
  exists e' : t, record_vote n rep ts h src e = Ok (accepted, e').
Proof.
  intros Hb. unfold record_vote.
  set (e1 := set_last_votes _ e).
  set (e2 := match src with live => _ | cache => _ end).
  destruct (negb (confirmed n e2)); [| simpl; eauto].
  destruct (confirm_if_quorum_returns n e2) as [e3 He3].
  - apply (tally_impl_nonempty n e2 rep
             {| time := now n; timestamp := ts; vote_hash := h |}).
    + subst e2 e1. destruct src; simpl; apply lookup_insert_eq.
    + subst e2 e1. destruct src; exact Hb.
  - rewrite He3. simpl. eauto.
Qed.

Lemma record_vote_minimum (m : N) (n : node_t) (rep ts h : N) (src : vote_source) (e : t) :
  record_vote (with_minimum m n) rep ts h src e = record_vote n rep ts h src e.
Proof. destruct n. reflexivity. Qed.

Lemma vote_keeps_order (n : node_t) (rep ts h : N) (src : vote_source) (e e' : t)
    (res : election_vote_result) (r : N) (lv lv' : vote_info) :
  vote n rep ts h src e = Ok (res, e') ->
  last_votes e !! r = Some lv -> last_votes e' !! r = Some lv' ->
  timestamp lv < timestamp lv'
  \/ (timestamp lv = timestamp lv' /\ vote_hash lv <= vote_hash lv').
Proof.
  intros Hv Hlv Hlv'.
  destruct (vote_cases _ _ _ _ _ _ _ _ Hv) as [[_ ->] | (_ & Hr & Hfresh)].
  - rewrite Hlv in Hlv'. injection Hlv' as <-. right. split; [reflexivity | lia].
  - apply record_vote_evolves in Hr as [_ (_ & Hvotes & _)].
    destruct (Hvotes r) as [Hnone | Hsame]; [congruence |].
    rewrite Hlv' in Hsame. simpl in Hsame.
    destruct (decide (rep = r)) as [-> | Hne].
    + rewrite lookup_insert_eq in Hsame. injection Hsame as ->. simpl.
      destruct (Hfresh lv Hlv) as [[Hlt | [Heq Hh]] _]; [now left |].
      right. split; [exact Heq | lia].
    + rewrite lookup_insert_ne in Hsame by exact Hne.
      rewrite Hlv in Hsame. injection Hsame as ->. right. split; [reflexivity | lia].
Qed.

(** C5: outside the dev network a vote of a representative whose ledger
    weight is below the minimum principal weight (or equal to it) is turned
    away with replay = false and processed = false, and the election is
    left exactly as it was. On
    the dev network the minimum plays no part: the outcome of [vote] is the
    same for every value of it, and a first vote for a candidate block is
    processed whatever the weight of the voter. *)
Theorem vote_minimum_weight :
  (forall (n : node_t) (rep ts h : N) (src : vote_source) (e : t),
     is_dev_network n = false ->
     ledger_weight n rep <= minimum_principal_weight n ->
     vote n rep ts h src e = Ok ({| replay := false; processed := false |}, e))
  /\ (forall (n : node_t) (rep ts h : N) (src : vote_source) (e : t) (m : N),
        is_dev_network n = true ->
        vote (with_minimum m n) rep ts h src e = vote n rep ts h src e)
  /\ (forall (n : node_t) (rep ts h : N) (src : vote_source) (e : t),
        is_dev_network n = true ->
        last_votes e !! rep = None -> is_Some (last_blocks e !! h) ->
        exists e' : t,
          vote n rep ts h src e = Ok ({| replay := false; processed := true |}, e')).
Proof.
  split; [| split].
  - intros n rep ts h src e Hdev Hw. now apply vote_weight_rejects.
  - intros n rep ts h src e m Hdev. unfold vote. simpl.
    rewrite Hdev. simpl. rewrite !record_vote_minimum.
    destruct n; reflexivity.
  - intros n rep ts h src e Hdev Hnone Hb. unfold vote.
    rewrite Hdev, Hnone. simpl. now apply record_vote_returns.
Qed.

(** C5 on voter 7, whose weight 50 is below a minimum of 100. *)
Lemma vote_minimum_weight_witness :
  vote (sample_node false sample_weights 100 100 seconds) 7 5 5 live sample_election
  = Ok ({| replay := false; processed := false |}, sample_election).
Proof.
  apply (proj1 vote_minimum_weight); [reflexivity | vm_compute; discriminate].
Defined.

Lemma weight_check_cases (n : node_t) (rep : N) :
  passes_weight_check n rep
  \/ (is_dev_network n = false /\ ledger_weight n rep <= minimum_principal_weight n).
Proof.
  unfold passes_weight_check. destruct (is_dev_network n); [left; left; reflexivity |].
  destruct (N.le_gt_cases (ledger_weight n rep) (minimum_principal_weight n)); auto.
Qed.

Lemma vote_run_order (r : N) (e e' : t) :
  vote_run r e e' ->
  forall lv lv' : vote_info,
    last_votes e !! r = Some lv -> last_votes e' !! r = Some lv' ->
    timestamp lv <= timestamp lv'.
Proof.
  induction 1 as [e | e e1 e2 n rep ts h src res Hv [lv1 Hlv1] _ IH];
    intros lv lv' Hlv Hlv'.
  - rewrite Hlv in Hlv'. injection Hlv' as <-. lia.
  - pose proof (vote_keeps_order _ _ _ _ _ _ _ _ _ _ _ Hv Hlv Hlv1) as Hstep.
    pose proof (IH _ _ Hlv1 Hlv'). lia.
Qed.

(** C2, amended: for a voter on record whose vote passes the
    minimum-weight check (dev network, or a weight above the minimum), a vote
    with a smaller timestamp than the recorded one, or with the same
    timestamp and a hash that does not exceed the recorded hash, returns
    replay = true and processed = false and leaves the election as it was.
    With or without that check such a vote is never processed and changes
    nothing. Over any run of [vote] calls during which the voter stays on
    record, the recorded timestamp never decreases. *)
Theorem vote_replay_rejected :
  (forall (n : node_t) (rep ts h : N) (src : vote_source) (e : t) (lv : vote_info),
     passes_weight_check n rep -> last_votes e !! rep = Some lv -> stale lv ts h ->
     vote n rep ts h src e = Ok ({| replay := true; processed := false |}, e))
  /\ (forall (n : node_t) (rep ts h : N) (src : vote_source) (e : t) (lv : vote_info),
        last_votes e !! rep = Some lv -> stale lv ts h ->
        exists res : election_vote_result,
          vote n rep ts h src e = Ok (res, e) /\ processed res = false)
  /\ (forall (r : N) (e e' : t) (lv lv' : vote_info),
        vote_run r e e' ->
        last_votes e !! r = Some lv -> last_votes e' !! r = Some lv' ->
        timestamp lv <= timestamp lv').
Proof.
  split; [| split].
  - intros. eapply vote_stale_replay; eassumption.
  - intros n rep ts h src e lv Hlv Hst.
    destruct (weight_check_cases n rep) as [Hg | [Hdev Hw]].
    + exists (rejected true). split; [| reflexivity].
      eapply vote_stale_replay; eassumption.
    + exists (rejected false). split; [| reflexivity].
      now apply vote_weight_rejects.
  - intros r e e' lv lv' Hrun. now apply vote_run_order.
Qed.

(** C2 on voter 7, on record with timestamp 5, voting with timestamp 3. *)
Lemma vote_replay_rejected_witness :
  vote (sample_node false sample_weights 10 100 (2 * seconds)) 7 3 5 live
    sample_election_voted
  = Ok ({| replay := true; processed := false |}, sample_election_voted).
Proof.
  apply (proj1 vote_replay_rejected)
    with (lv := {| time := seconds; timestamp := 5; vote_hash := 5 |}).
  - right. reflexivity.
  - vm_compute. reflexivity.
  - left. reflexivity.
Defined.

(** C2 as stated fails twice. Voter 7 is on record with timestamp 5; once
    the minimum principal weight has risen above the weight of 7, a vote of
    7 with timestamp 3 returns replay = false. And when the vote of voter 8
    changes the winner, the entry of 7 (a vote of this node) is erased, so
    that the next vote of 7 is recorded with timestamp 3, below 5. *)
Lemma vote_replay_counterexample :
  vote (sample_node false sample_weights 10 100 seconds) 7 5 5 live sample_election
  = Ok ({| replay := false; processed := true |}, sample_election_voted)
  /\ timestamp <$> last_votes sample_election_voted !! 7 = Some 5
  /\ vote (sample_node false sample_weights 100 100 (2 * seconds)) 7 3 5 live
       sample_election_voted
     = Ok ({| replay := false; processed := false |}, sample_election_voted)
  /\ exists e1 e2 : t,
       vote (sample_voting_node [7] (20 * seconds)) 8 1 6 live sample_election_fork
       = Ok ({| replay := false; processed := true |}, e1)
       /\ vote (sample_voting_node [7] (21 * seconds)) 7 3 6 live e1
          = Ok ({| replay := false; processed := true |}, e2)
       /\ timestamp <$> last_votes sample_election_fork !! 7 = Some 5
       /\ timestamp <$> last_votes e2 !! 7 = Some 3.
Proof.
  split; [vm_compute; reflexivity |].
  split; [vm_compute; reflexivity |].
  split; [vm_compute; reflexivity |].
  eexists. eexists.
  split; [vm_compute; reflexivity |].
  split; [vm_compute; reflexivity |].
  split; vm_compute; reflexivity.
Qed.

Lemma cooldown_tiers (n : node_t) (w : N) :
  (online_reps_trended n < 20 * w -> cooldown_time n w = 1%Z)
  /\ (20 * w <= online_reps_trended n -> online_reps_trended n < 100 * w ->
      cooldown_time n w = 5%Z)
  /\ (100 * w <= online_reps_trended n -> cooldown_time n w = 15%Z).
Proof.
  unfold cooldown_time.
  assert (H20 : online_reps_trended n / 20 < w <-> online_reps_trended n < 20 * w).
  { split; intros H.
    - pose proof (N.mul_succ_div_gt (online_reps_trended n) 20). lia.
    - apply N.Div0.div_lt_upper_bound. exact H. }
  assert (H100 : online_reps_trended n / 100 < w <-> online_reps_trended n < 100 * w).
  { split; intros H.
    - pose proof (N.mul_succ_div_gt (online_reps_trended n) 100). lia.
    - apply N.Div0.div_lt_upper_bound. exact H. }
  repeat split.
  - intros H. apply H20, N.ltb_lt in H. now rewrite H.
  - intros Ha Hb.
    destruct (online_reps_trended n / 20 <? w) eqn:E20.
    + apply N.ltb_lt, H20 in E20. lia.
    + apply H100, N.ltb_lt in Hb. now rewrite Hb.
  - intros Ha.
    destruct (online_reps_trended n / 20 <? w) eqn:E20.
    + apply N.ltb_lt, H20 in E20. lia.
    + destruct (online_reps_trended n / 100 <? w) eqn:E100; [| reflexivity].
      apply N.ltb_lt, H100 in E100. lia.
Qed.

Lemma request_final_vote_frame (n : node_t) (e : t) :
  last_votes (request_final_vote n e) = last_votes e
  /\ winner (status (request_final_vote n e)) = winner (status e).
Proof.
  unfold request_final_vote.
  destruct (final_votes_confirmation_canary n); [| auto].
  destruct (_ && _); auto.
Qed.

Lemma confirm_if_quorum_votes (n : node_t) (e e' : t) :
  confirm_if_quorum n e = Ok e' ->
  last_votes e' = last_votes e
  \/ (~ not_voting n
      /\ block.hash (winner (status e')) <> block.hash (winner (status e))
      /\ forall r : N, last_votes e' !! r = None
                       \/ last_votes e' !! r = last_votes e !! r).
Proof.
  unfold confirm_if_quorum.
  destruct (tally_impl_frame n e) as (Hv & _ & Hst & _).
  destruct (tally_impl n e) as [tl e1]. cbn [fst snd] in Hv, Hst.
  destruct tl as [| [amount bl] rest]; [discriminate |].
  set (e2 := set_status (set_tallies amount (final_weight e1)) e1).
  set (e3 := promote_winner n ((amount, bl) :: rest) bl e2).
  assert (H2 : last_votes e2 = last_votes e
               /\ winner (status e2) = winner (status e)).
  { subst e2. simpl. now rewrite Hv, Hst. }
  destruct H2 as [Hv2 Hw2].
  assert (H3 : (last_votes e3 = last_votes e)
               \/ (~ not_voting n
                   /\ block.hash (winner (status e3))
                      <> block.hash (winner (status e))
                   /\ forall r : N, last_votes e3 !! r = None
                                    \/ last_votes e3 !! r = last_votes e !! r)).
  { subst e3. unfold promote_winner.
    destruct (_ && _) eqn:Hpromote; [| now left].
    apply andb_true_iff in Hpromote as [_ Hnew].
    apply negb_true_iff, N.eqb_neq in Hnew. rewrite Hw2 in Hnew.
    destruct (enable_voting n && (0 <? wallets_reps_voting n)) eqn:Hvoting.
    - right. split; [unfold not_voting; congruence |]. split.
      + destruct (remove_votes_frame n (block.hash (winner (status e)))
                    (set_status (set_winner bl) e2)) as (_ & Hstatus & _).
        cbn [status emit]. rewrite Hw2.
        change (status (emit [block_processor_force bl]
                          (remove_votes n (block.hash (winner (status e)))
                             (set_status (set_winner bl) e2))))
          with (status (remove_votes n (block.hash (winner (status e)))
                          (set_status (set_winner bl) e2))).
        rewrite Hstatus. exact Hnew.
      + intros r. rewrite <- Hv2.
        exact (remove_votes_lookup n _ (set_status (set_winner bl) e2) r).
    - left. unfold remove_votes. rewrite Hvoting. exact Hv2. }
  assert (Hkeep : forall x : t,
             (last_votes x = last_votes e3
              /\ winner (status x) = winner (status e3)) ->
             last_votes x = last_votes e
             \/ (~ not_voting n
                 /\ block.hash (winner (status x))
                    <> block.hash (winner (status e))
                 /\ forall r : N, last_votes x !! r = None
                                  \/ last_votes x !! r = last_votes e !! r)).
  { intros x [Hvx Hwx]. rewrite Hvx, Hwx. exact H3. }
  destruct (have_quorum n _) as [q |]; [| discriminate]. cbn [mbind outcome_bind].
  destruct (request_final_vote_frame n e3) as [Hv4 Hw4].
  destruct q; [destruct (_ || _) |]; intros [= <-].
  - apply Hkeep.
    destruct (confirm_once_frame n active_confirmed_quorum
                (request_final_vote n e3)) as (-> & _ & ->).
    now split.
  - apply Hkeep. now split.
  - exact H3.
Qed.

Lemma record_vote_supersedes (n : node_t) (rep ts h : N) (src : vote_source)
    (e e' : t) (res : election_vote_result) :
  record_vote n rep ts h src e = Ok (res, e') ->
  res = accepted /\ supersedes n rep (recorded n ts h) e e'.
Proof.
  unfold record_vote, supersedes, recorded.
  set (lv := {| time := now n; timestamp := ts; vote_hash := h |}).
  set (e1 := set_last_votes _ e).
  set (e2 := match src with live => _ | cache => _ end).
  assert (H2 : last_votes e2 = <[ rep := lv ]> (last_votes e)
               /\ winner (status e2) = winner (status e)).
  { subst e2 e1. destruct src; split; reflexivity. }
  destruct H2 as [Hv2 Hw2].
  destruct (negb (confirmed n e2)).
  - destruct (confirm_if_quorum n e2) as [e3 |] eqn:Hc; [| discriminate].
    cbn [mbind outcome_bind]. intros [= <- <-]. split; [reflexivity |].
    destruct (confirm_if_quorum_votes n e2 e3 Hc) as [Hsame | (Hn & Hw & Hr)].
    + left. now rewrite Hsame.
    + right. split; [exact Hn |]. split; [now rewrite <- Hw2 |].
      destruct (Hr rep) as [Hnone | Hkept]; [now left |].
      right. rewrite Hkept, Hv2. apply lookup_insert_eq.
  - cbn [mbind outcome_bind]. intros [= <- <-]. split; [reflexivity |].
    now left.
Qed.

Lemma supersedes_replaces (n : node_t) (rep : N) (lv lv' : vote_info) (e e' : t) :
  supersedes n rep lv' e e' -> lv <> lv' -> last_votes e' !! rep <> Some lv.
Proof.
  intros [Hall | (_ & _ & [Hnone | Hnew])] Hne.
  - rewrite Hall, lookup_insert_eq. congruence.
  - rewrite Hnone. discriminate.
  - rewrite Hnew. congruence.
Qed.

(** C4. The cooldown is 1 second for a weight above 5% of the trended
    online weight, 5 seconds above 1%, 15 seconds otherwise. A live vote of
    a voter on record that is not a final vote over a non-final one is
    processed only if the cooldown has passed since the recorded vote time,
    and a live non-final vote that comes earlier is not processed and
    changes nothing. Past the minimum-weight check that [vote] starts with,
    a final vote over a non-final one, from either source and at any time,
    is never turned away: a call that returns has processed it and
    recorded it in place of the old vote, which is no longer on record,
    and the call returns when the block is a candidate. The same holds at
    any time for a cached vote that is not a replay. *)
Theorem vote_cooldown :
  (forall (n : node_t) (w : N),
     (online_reps_trended n < 20 * w -> cooldown_time n w = 1%Z)
     /\ (20 * w <= online_reps_trended n -> online_reps_trended n < 100 * w ->
         cooldown_time n w = 5%Z)
     /\ (100 * w <= online_reps_trended n -> cooldown_time n w = 15%Z))
  /\ (forall (n : node_t) (rep ts h : N) (e e' : t) (lv : vote_info)
             (res : election_vote_result),
        last_votes e !! rep = Some lv ->
        ~ (ts = uint64_max /\ timestamp lv < uint64_max) ->
        vote n rep ts h live e = Ok (res, e') -> processed res = true ->
        (time lv + cooldown_time n (ledger_weight n rep) * seconds <= now n)%Z)
  /\ (forall (n : node_t) (rep ts h : N) (e : t) (lv : vote_info),
        last_votes e !! rep = Some lv -> ts <> uint64_max ->
        (now n < time lv + cooldown_time n (ledger_weight n rep) * seconds)%Z ->
        exists res : election_vote_result,
          vote n rep ts h live e = Ok (res, e) /\ processed res = false)
  /\ (forall (n : node_t) (rep h : N) (src : vote_source) (e : t) (lv : vote_info),
        passes_weight_check n rep ->
        last_votes e !! rep = Some lv -> timestamp lv < uint64_max ->
        (forall (res : election_vote_result) (e' : t),
           vote n rep uint64_max h src e = Ok (res, e') ->
           res = accepted
           /\ supersedes n rep (recorded n uint64_max h) e e'
           /\ last_votes e' !! rep <> Some lv)
        /\ (is_Some (last_blocks e !! h) ->
            exists e' : t,
              vote n rep uint64_max h src e
              = Ok ({| replay := false; processed := true |}, e')))
  /\ (forall (n : node_t) (rep ts h : N) (e : t) (lv : vote_info),
        passes_weight_check n rep ->
        last_votes e !! rep = Some lv ->
        timestamp lv < ts \/ (timestamp lv = ts /\ vote_hash lv < h) ->
        (forall (res : election_vote_result) (e' : t),
           vote n rep ts h cache e = Ok (res, e') ->
           res = accepted
           /\ supersedes n rep (recorded n ts h) e e'
           /\ last_votes e' !! rep <> Some lv)
        /\ (is_Some (last_blocks e !! h) ->
            exists e' : t,
              vote n rep ts h cache e
              = Ok ({| replay := false; processed := true |}, e'))).
Proof.
  split; [exact cooldown_tiers |]. split; [| split; [| split]].
  - intros n rep ts h e e' lv res Hlv Hnf Hv Hp.
    destruct (vote_cases _ _ _ _ _ _ _ _ Hv) as [[Hp' _] | (_ & _ & Hfresh)];
      [congruence |].
    destruct (Hfresh lv Hlv) as [_ Hcool].
    destruct (Hcool eq_refl) as [[-> Hlt] | Hok]; [| exact Hok].
    elim Hnf. now split.
  - intros n rep ts h e lv Hlv Hts Hearly.
    destruct (vote n rep ts h live e) as [[res e'] | f] eqn:Hv.
    + destruct (vote_cases _ _ _ _ _ _ _ _ Hv) as [[Hp ->] | (_ & _ & Hfresh)];
        [eauto |].
      destruct (Hfresh lv Hlv) as [_ Hcool].
      destruct (Hcool eq_refl) as [[-> _] | Hok]; [congruence | lia].
    + exfalso. revert Hv. unfold vote.
      destruct (_ && _); [discriminate |]. rewrite Hlv.
      destruct (ts <? timestamp lv); [discriminate |].
      destruct ((timestamp lv =? ts) && _); [discriminate |].
      apply N.eqb_neq in Hts. rewrite Hts. simpl.
      apply Z.leb_gt in Hearly.
      replace (time lv <=? now n - cooldown_time n (ledger_weight n rep) * seconds)%Z
        with false; [discriminate |].
      symmetry. apply Z.leb_gt. apply Z.leb_gt in Hearly. lia.
  - intros n rep h src e lv Hg Hlv Hlt.
    assert (Hrecord : vote n rep uint64_max h src e
                      = record_vote n rep uint64_max h src e).
    { unfold vote. apply weight_check_dec in Hg. rewrite Hg, Hlv.
      assert (H1 : (uint64_max <? timestamp lv) = false) by (apply N.ltb_ge; lia).
      assert (H2 : (timestamp lv =? uint64_max) = false) by (apply N.eqb_neq; lia).
      rewrite H1, H2. cbn [andb]. rewrite N.eqb_refl.
      apply N.ltb_lt in Hlt. rewrite Hlt. reflexivity. }
    rewrite Hrecord. split.
    + intros res e' Hr.
      destruct (record_vote_supersedes _ _ _ _ _ _ _ _ Hr) as [-> Hs].
      split; [reflexivity |]. split; [exact Hs |].
      apply (supersedes_replaces _ _ _ _ _ _ Hs).
      intros ->. cbn [recorded timestamp] in Hlt. lia.
    + apply record_vote_returns.
  - intros n rep ts h e lv Hg Hlv Hfresh.
    assert (Hrecord : vote n rep ts h cache e = record_vote n rep ts h cache e).
    { unfold vote. apply weight_check_dec in Hg. rewrite Hg, Hlv.
      assert (H1 : (ts <? timestamp lv) = false) by (apply N.ltb_ge; lia).
      assert (H2 : (timestamp lv =? ts) && negb (vote_hash lv <? h) = false).
      { destruct Hfresh as [Hlt | [-> Hh]].
        - replace (timestamp lv =? ts) with false; [reflexivity |].
          symmetry. apply N.eqb_neq. lia.
        - apply N.ltb_lt in Hh. rewrite Hh. apply andb_false_r. }
      rewrite H1, H2. rewrite andb_false_r. reflexivity. }
    rewrite Hrecord. split.
    + intros res e' Hr.
      destruct (record_vote_supersedes _ _ _ _ _ _ _ _ Hr) as [-> Hs].
      split; [reflexivity |]. split; [exact Hs |].
      apply (supersedes_replaces _ _ _ _ _ _ Hs).
      intros ->. cbn [recorded timestamp vote_hash] in Hfresh. lia.
    + apply record_vote_returns.
Qed.

(** C4 on voter 7 (weight 50, cooldown 5 seconds) who voted at second 1:
    at second 2 a vote with timestamp 6 is not processed, while a final
    vote is processed and takes the place of the recorded vote. *)
Lemma vote_cooldown_witness :
  (exists res : election_vote_result,
     vote (sample_node false sample_weights 10 100 (2 * seconds)) 7 6 5 live
       sample_election_voted = Ok (res, sample_election_voted)
     /\ processed res = false)
  /\ exists e' : t,
       vote (sample_node false sample_weights 10 100 (2 * seconds)) 7 uint64_max 5
         live sample_election_voted
       = Ok ({| replay := false; processed := true |}, e')
       /\ supersedes (sample_node false sample_weights 10 100 (2 * seconds)) 7
            (recorded (sample_node false sample_weights 10 100 (2 * seconds))
               uint64_max 5)
            sample_election_voted e'.
Proof.
  destruct vote_cooldown as (_ & _ & Hearly & Hfinal & _). split.
  - apply Hearly with (lv := {| time := seconds; timestamp := 5; vote_hash := 5 |}).
    + vm_compute. reflexivity.
    + vm_compute. discriminate.
    + vm_compute. reflexivity.
  - destruct (Hfinal (sample_node false sample_weights 10 100 (2 * seconds))
                7 5 live sample_election_voted
                {| time := seconds; timestamp := 5; vote_hash := 5 |})
      as [Hrecorded Hreturns].
    + right. reflexivity.
    + vm_compute. reflexivity.
    + reflexivity.
    + destruct Hreturns as [e' He']; [vm_compute; eauto |].
      exists e'. split; [exact He' |].
      exact (proj1 (proj2 (Hrecorded _ e' He'))).
Defined.

End votes.

(** ** The winner and the candidates *)

Section winners.

Lemma same_candidates_refl (e : t) : same_candidates e e.
Proof. split; reflexivity. Qed.

Lemma same_candidates_trans (e1 e2 e3 : t) :
  same_candidates e1 e2 -> same_candidates e2 e3 -> same_candidates e1 e3.
Proof. intros [? ?] [? ?]. split; congruence. Qed.

Lemma same_candidates_tracked (e e' : t) :
  same_candidates e e' -> winner_tracked e -> winner_tracked e'.
Proof. intros [Hb Hw] [Hk Hin]. unfold winner_tracked. now rewrite Hb, Hw. Qed.

Lemma evolves_tracked (e e' : t) :
  evolves e e' -> winner_tracked e -> winner_tracked e'.
Proof.
  intros (Hb & _ & Hw) [Hk Hin]. unfold winner_tracked. rewrite Hb.
  split; [exact Hk |]. destruct Hw as [-> | [k Hc]]; [exact Hin |].
  rewrite (Hk _ _ Hc). eauto.
Qed.

Lemma state_change_same (n : node_t) (x d : state_t.t) (e : t) :
  same_candidates e (state_change n x d e).2.
Proof.
  unfold state_change. destruct (valid_change x d); [| apply same_candidates_refl].
  destruct (state_t.eqb _ _); split; reflexivity.
Qed.

Lemma tally_impl_same (n : node_t) (e : t) : same_candidates e (tally_impl n e).2.
Proof. split; reflexivity. Qed.

Lemma confirm_once_same (n : node_t) (ty : election_status_type) (e : t) :
  same_candidates e (confirm_once n ty e).
Proof. destruct (confirm_once_frame n ty e) as (_ & ? & ?). now split. Qed.

Lemma broadcast_vote_impl_same (n : node_t) (e e' : t) :
  broadcast_vote_impl n e = Ok e' -> same_candidates e e'.
Proof.
  unfold broadcast_vote_impl. destruct (_ && _); [| intros [= <-]; apply same_candidates_refl].
  destruct (confirmed n _).
  - simpl. intros [= <-]. split; reflexivity.
  - destruct (tally_impl n _) as [tl e2] eqn:Ht.
    pose proof (tally_impl_same n (emit [stat_generate_vote] e)) as Hs.
    rewrite Ht in Hs. unfold same_candidates in Hs. simpl in Hs.
    destruct (have_quorum n tl) as [q |]; [| discriminate]. simpl.
    destruct Hs as [Hb Hw].
    destruct q; intros [= <-]; split; simpl; congruence.
Qed.

Lemma broadcast_vote_same (n : node_t) (e e' : t) :
  broadcast_vote n e = Ok e' -> same_candidates e e'.
Proof.
  unfold broadcast_vote. destruct (_ <? _)%Z; [| intros [= <-]; apply same_candidates_refl].
  destruct (broadcast_vote_impl n e) as [e1 |] eqn:Hb; [| discriminate].
  simpl. intros [= <-]. apply broadcast_vote_impl_same in Hb as [? ?].
  split; simpl; congruence.
Qed.

Lemma broadcast_block_same (n : node_t) (e : t) : same_candidates e (broadcast_block n e).
Proof.
  unfold broadcast_block. destruct (_ <? _)%Z; [| apply same_candidates_refl].
  destruct (negb _); split; reflexivity.
Qed.

Lemma send_confirm_req_same (n : node_t) (e : t) : same_candidates e (send_confirm_req n e).
Proof.
  unfold send_confirm_req. destruct (_ <? _)%Z; [| apply same_candidates_refl].
  destruct (negb _); split; reflexivity.
Qed.

Lemma transition_time_same (n : node_t) (e e' : t) (r : bool) :
  transition_time n e = Ok (r, e') -> same_candidates e e'.
Proof.
  unfold transition_time.
  set (first := match state_m e with state_t.passive => _ | _ => _ end).
  assert (Hfirst : forall re, first = Ok re -> same_candidates e re.2).
  { subst first. destruct (state_m e); intros re.
    - destruct (_ <? _)%Z; intros [= <-]; simpl;
        [apply state_change_same | apply same_candidates_refl].
    - destruct (broadcast_vote n e) as [e1 |] eqn:Hb; [| discriminate].
      simpl. intros [= <-]. simpl.
      eapply same_candidates_trans; [exact (broadcast_vote_same _ _ _ Hb) |].
      eapply same_candidates_trans; [apply broadcast_block_same |].
      apply send_confirm_req_same.
    - intros [= <-]. simpl. apply state_change_same.
    - intros [= <-]. apply same_candidates_refl.
    - intros [= <-]. apply same_candidates_refl. }
  destruct first as [re |]; [| discriminate]. simpl.
  specialize (Hfirst re eq_refl).
  destruct (_ && _); [| intros [= <- <-]; exact Hfirst].
  pose proof (state_change_same n (state_m re.2) state_t.expired_unconfirmed re.2) as Hsc.
  destruct (negb _); intros [= <- <-].
  - eapply same_candidates_trans; [exact Hfirst |].
    eapply same_candidates_trans; [exact Hsc |].
    destruct (election_expiration_tally_logging n); split; reflexivity.
  - eapply same_candidates_trans; [exact Hfirst | exact Hsc].
Qed.

Lemma remove_block_winner (h : N) (e : t) :
  winner (status (remove_block h e)) = winner (status e)
  /\ last_blocks (remove_block h e) !! block.hash (winner (status e))
     = last_blocks e !! block.hash (winner (status e))
  /\ (forall k b, last_blocks (remove_block h e) !! k = Some b ->
                  last_blocks e !! k = Some b).
Proof.
  unfold remove_block.
  destruct (negb (block.hash (winner (status e)) =? h)) eqn:Hne; [| auto].
  apply negb_true_iff, N.eqb_neq in Hne.
  destruct (last_blocks e !! h) as [existing |]; [| auto]. simpl.
  split; [reflexivity |]. split.
  - apply lookup_delete_ne. congruence.
  - intros k b Hk. apply lookup_delete_Some in Hk. tauto.
Qed.

Lemma remove_block_refuses_winner (e : t) :
  remove_block (block.hash (winner (status e))) e = e.
Proof. unfold remove_block. now rewrite N.eqb_refl. Qed.

Lemma remove_block_tracked (h : N) (e : t) :
  winner_tracked e -> winner_tracked (remove_block h e).
Proof.
  intros [Hk Hin]. destruct (remove_block_winner h e) as (Hw & Hl & Hsub).
  split.
  - intros k b Hb. apply Hk. now apply Hsub.
  - now rewrite Hw, Hl.
Qed.

Lemma replace_by_weight_winner (n : node_t) (h : N) (e e' : t) (r : bool) :
  replace_by_weight n h e = Ok (r, e') ->
  winner (status e') = winner (status e)
  /\ last_blocks e' !! block.hash (winner (status e))
     = last_blocks e !! block.hash (winner (status e))
  /\ (forall k b, last_blocks e' !! k = Some b -> last_blocks e !! k = Some b).
Proof.
  unfold replace_by_weight.
  match goal with |- context [mbind _ ?m] => destruct m as [replaced |] end;
    [| discriminate].
  simpl. destruct (negb _); intros [= <- <-]; [| auto].
  apply (remove_block_winner replaced (emit [active_erase_hash replaced] e)).
Qed.

Lemma publish_tracked (n : node_t) (b : block.t) (e e' : t) (r : bool) :
  publish n b e = Ok (r, e') -> winner_tracked e -> winner_tracked e'.
Proof.
  unfold publish. intros Hp [Hk Hin].
  set (first := if negb (confirmed n e) && _ && _ then _ else _) in Hp.
  assert (Hfirst : forall re, first = Ok re -> winner_tracked re.2).
  { subst first. intros re. destruct (_ && _ && _); [| intros [= <-]; now split].
    destruct (replace_by_weight n (block.hash b) e) as [[rr er] |] eqn:Hr;
      [| discriminate].
    apply replace_by_weight_winner in Hr as (Hw & Hl & Hsub).
    simpl. destruct (negb rr); intros [= <-]; unfold winner_tracked; simpl;
      (split; [intros k x Hx; apply Hk; now apply Hsub | now rewrite Hw, Hl]). }
  destruct first as [re |]; [| discriminate]. simpl in Hp.
  destruct (Hfirst re eq_refl) as [Hk1 Hin1].
  destruct (negb re.1); [| injection Hp as _ <-; now split].
  assert (Hkeyed : blocks_keyed (<[ block.hash b := b ]> (last_blocks re.2))).
  { intros k x Hx. apply lookup_insert_Some in Hx as [[<- <-] | [_ Hx]];
      [reflexivity | now apply Hk1]. }
  assert (Hstill : is_Some (<[ block.hash b := b ]> (last_blocks re.2)
                             !! block.hash (winner (status re.2)))).
  { apply lookup_insert_is_Some'. now right. }
  destruct (last_blocks re.2 !! block.hash b).
  - simpl in Hp. destruct (_ =? _) eqn:Heq; injection Hp as _ <-.
    + split; [exact Hkeyed |]. simpl. rewrite lookup_insert_eq. eauto.
    + split; [exact Hkeyed | exact Hstill].
  - injection Hp as _ <-. split; [exact Hkeyed | exact Hstill].
Qed.

Lemma make_tracked (n : node_t) (b : block.t) (behavior : election_behavior) :
  winner_tracked (make n b behavior).
Proof.
  split; simpl.
  - intros k x Hx. apply lookup_singleton_Some in Hx as [<- <-]. reflexivity.
  - rewrite lookup_singleton_eq. eauto.
Qed.

Lemma vote_tracked (n : node_t) (rep ts h : N) (src : vote_source) (e e' : t)
    (res : election_vote_result) :
  vote n rep ts h src e = Ok (res, e') -> winner_tracked e -> winner_tracked e'.
Proof.
  intros Hv Ht.
  destruct (vote_cases _ _ _ _ _ _ _ _ Hv) as [[_ ->] | (_ & Hr & _)]; [exact Ht |].
  apply record_vote_evolves in Hr as [_ Hev].
  apply (evolves_tracked _ _ Hev). exact Ht.
Qed.

Lemma fill_from_cache_tracked (n : node_t) (h : N) (voters : list (N * N)) :
  forall (e e' : t) (inserted : nat),
  fill_from_cache n h voters e = Ok (inserted, e') ->
  winner_tracked e -> winner_tracked e'.
Proof.
  induction voters as [| [rep ts] rest IH]; intros e e' inserted Hf Ht.
  - injection Hf as _ <-. exact Ht.
  - simpl in Hf.
    destruct (vote n rep ts h cache e) as [[res e1] |] eqn:Hv; [| discriminate].
    simpl in Hf.
    destruct (fill_from_cache n h rest e1) as [[k e2] |] eqn:Hrest;
      [| discriminate].
    simpl in Hf. injection Hf as _ <-.
    apply (IH e1 e2 k Hrest). exact (vote_tracked _ _ _ _ _ _ _ _ Hv Ht).
Qed.

Lemma reachable_tracked (e : t) : reachable e -> winner_tracked e.
Proof.
  induction 1 as [n b behavior | n rep ts h src e e' res _ IH Hv
                  | n h voters e e' inserted _ IH Hf
                  | n b e e' r _ IH Hp | n e e' r _ IH Ht | n e _ IH
                  | n ty e e' _ IH Hf | n e _ IH].
  - apply make_tracked.
  - exact (vote_tracked _ _ _ _ _ _ _ _ Hv IH).
  - exact (fill_from_cache_tracked _ _ _ _ _ _ Hf IH).
  - exact (publish_tracked _ _ _ _ _ Hp IH).
  - exact (same_candidates_tracked _ _ (transition_time_same _ _ _ _ Ht) IH).
  - exact (same_candidates_tracked _ _ (state_change_same _ _ _ _) IH).
  - unfold force_confirm in Hf. destruct (is_dev_network n); [| discriminate].
    injection Hf as <-.
    exact (same_candidates_tracked _ _ (confirm_once_same _ _ _) IH).
  - exact (same_candidates_tracked _ _ (tally_impl_same _ _) IH).
Qed.

(** C9: in every state an election reaches, the hash of the status winner
    is a key of [last_blocks]. The constructor files the first block, which
    is the winner, under its hash; [confirm_if_quorum] leaves the candidates
    alone and either keeps the winner or makes a candidate the winner;
    [remove_block] does nothing when asked to remove the winner, and
    neither it nor [replace_by_weight] changes the winner or its entry. *)
Theorem winner_is_candidate :
  (forall e : t,
     reachable e -> is_Some (last_blocks e !! block.hash (winner (status e))))
  /\ (forall (n : node_t) (b : block.t) (behavior : election_behavior),
        winner (status (make n b behavior)) = b
        /\ last_blocks (make n b behavior) !! block.hash b = Some b)
  /\ (forall (n : node_t) (e e' : t),
        confirm_if_quorum n e = Ok e' ->
        last_blocks e' = last_blocks e
        /\ (winner (status e') = winner (status e)
            \/ candidate (last_blocks e) (winner (status e'))))
  /\ (forall e : t, remove_block (block.hash (winner (status e))) e = e)
  /\ (forall (h : N) (e : t),
        winner (status (remove_block h e)) = winner (status e)
        /\ last_blocks (remove_block h e) !! block.hash (winner (status e))
           = last_blocks e !! block.hash (winner (status e)))
  /\ (forall (n : node_t) (h : N) (e e' : t) (r : bool),
        replace_by_weight n h e = Ok (r, e') ->
        winner (status e') = winner (status e)
        /\ last_blocks e' !! block.hash (winner (status e))
           = last_blocks e !! block.hash (winner (status e))).
Proof.
  split; [intros e He; exact (proj2 (reachable_tracked e He)) |].
  split.
  { intros n b behavior. split; [reflexivity |]. simpl. apply lookup_singleton_eq. }
  split.
  { intros n e e' Hc. apply confirm_if_quorum_evolves in Hc as (Hb & _ & Hw).
    now split. }
  split; [exact remove_block_refuses_winner |].
  split.
  { intros h e. destruct (remove_block_winner h e) as (Hw & Hl & _). now split. }
  intros n h e e' r Hr.
  apply replace_by_weight_winner in Hr as (Hw & Hl & _). now split.
Qed.

(** C9 on the election in which the vote of voter 8 made block 6 the
    winner: block 6 is a candidate. *)
Lemma winner_is_candidate_witness :
  block.hash (winner (status sample_election_swung)) = 6
  /\ is_Some (last_blocks sample_election_swung
              !! block.hash (winner (status sample_election_swung))).
Proof.
  split; [vm_compute; reflexivity |].
  apply (proj1 winner_is_candidate).
  apply (reach_vote (sample_voting_node [7] (20 * seconds)) 8 1 6 live
           sample_election_fork sample_election_swung
           {| replay := false; processed := true |});
    [| vm_compute; reflexivity].
  apply (reach_publish (sample_node false sample_weights 10 100 seconds)
           (sample_block 6) sample_election_voted sample_election_fork false);
    [| vm_compute; reflexivity].
  apply (reach_vote (sample_node false sample_weights 10 100 seconds) 7 5 5 live
           sample_election sample_election_voted
           {| replay := false; processed := true |});
    [| vm_compute; reflexivity].
  apply reach_make.
Defined.

End winners.

(** ** What the tally counts *)

Section tally_sums.

Lemma wrap128_add_l (a b : N) : wrap128 (wrap128 a + b) = wrap128 (a + b).
Proof. unfold wrap128. apply N.Div0.add_mod_idemp_l. Qed.

Lemma votes_for_none (n : node_t) (votes : list (N * vote_info)) (h : N) :
  voted votes h = false -> votes_for n votes h = 0.
Proof.
  induction votes as [| av rest IH]; [reflexivity |]. simpl.
  destruct (vote_hash av.2 =? h); simpl; [discriminate | exact IH].
Qed.

Lemma count_vote_lookup (n : node_t) (votes : list (N * vote_info)) (h : N) :
  forall acc : gmap N N * gmap N N,
  (foldl (count_vote n) acc votes).1 !! h
  = if voted votes h
    then Some (wrap128 (default 0 (acc.1 !! h) + votes_for n votes h))
    else acc.1 !! h.
Proof.
  induction votes as [| av rest IH]; intros acc; [reflexivity |].
  simpl. rewrite IH. simpl. unfold add_weight.
  destruct (vote_hash av.2 =? h) eqn:Hh; simpl.
  - apply N.eqb_eq in Hh. rewrite Hh, lookup_insert_eq. simpl.
    unfold add128.
    destruct (voted rest h) eqn:Hrest.
    + rewrite wrap128_add_l. f_equal. f_equal. lia.
    + rewrite (votes_for_none n rest h Hrest). f_equal. f_equal. lia.
  - apply N.eqb_neq in Hh. rewrite lookup_insert_ne by exact Hh. reflexivity.
Qed.

Lemma last_tally_sum (n : node_t) (e : t) (h : N) :
  last_tally (tally_impl n e).2 !! h
  = if voted (map_to_list (last_votes e)) h
    then Some (wrap128 (votes_for n (map_to_list (last_votes e)) h))
    else None.
Proof.
  unfold tally_impl. simpl. unfold vote_weights.
  rewrite count_vote_lookup. simpl. rewrite lookup_empty. reflexivity.
Qed.

Lemma tally_emplace_perm (amount : N) (b : block.t) (tl : tally_t) :
  tally_emplace amount b tl ≡ₚ (amount, b) :: tl.
Proof.
  induction tl as [| [a' b'] rest IH]; simpl; [reflexivity |].
  destruct (a' <? amount); [reflexivity |].
  rewrite IH. apply Permutation_swap.
Qed.

Lemma tally_fold_perm (blocks : gmap N block.t) (weights : list (N * N)) :
  forall acc : tally_t,
  foldl (tally_entry blocks) acc weights
  ≡ₚ omap (tally_entry_of blocks) weights ++ acc.
Proof.
  induction weights as [| ha rest IH]; intros acc; [reflexivity |].
  simpl. rewrite IH. unfold tally_entry, tally_entry_of.
  destruct (blocks !! ha.1) as [b |]; [| reflexivity].
  rewrite tally_emplace_perm. simpl. symmetry. apply Permutation_middle.
Qed.

Lemma tally_impl_perm (n : node_t) (e : t) :
  (tally_impl n e).1
  ≡ₚ omap (tally_entry_of (last_blocks e))
       (map_to_list (last_tally (tally_impl n e).2)).
Proof.
  unfold tally_impl. simpl. unfold tally_of.
  rewrite tally_fold_perm. now rewrite app_nil_r.
Qed.

Lemma tally_entry_of_hash (blocks : gmap N block.t) (weights : list (N * N)) :
  blocks_keyed blocks ->
  map (fun x => block.hash x.2) (omap (tally_entry_of blocks) weights)
  `sublist_of` map fst weights.
Proof.
  intros Hk. induction weights as [| [h a] rest IH]; simpl; [constructor |].
  unfold tally_entry_of at 1. simpl.
  destruct (blocks !! h) as [b |] eqn:Hb; simpl.
  - rewrite (Hk _ _ Hb). now constructor.
  - now constructor.
Qed.

Lemma tally_impl_entries (n : node_t) (e : t) :
  blocks_keyed (last_blocks e) ->
  NoDup (map (fun x => block.hash x.2) (tally_impl n e).1)
  /\ (forall (amount : N) (b : block.t),
        In (amount, b) (tally_impl n e).1 ->
        last_blocks e !! block.hash b = Some b
        /\ voted (map_to_list (last_votes e)) (block.hash b) = true
        /\ amount = wrap128 (votes_for n (map_to_list (last_votes e)) (block.hash b)))
  /\ (forall (h : N) (b : block.t),
        last_blocks e !! h = Some b ->
        voted (map_to_list (last_votes e)) h = true ->
        In (wrap128 (votes_for n (map_to_list (last_votes e)) h), b)
           (tally_impl n e).1).
Proof.
  intros Hk. pose proof (tally_impl_perm n e) as Hperm.
  split; [| split].
  - rewrite Hperm.
    eapply sublist_NoDup; [| apply tally_entry_of_hash; exact Hk].
    apply NoDup_fst_map_to_list.
  - intros amount b Hin. apply list_elem_of_In in Hin. rewrite Hperm in Hin.
    apply list_elem_of_omap in Hin as ([h a] & Hha & Hentry).
    unfold tally_entry_of in Hentry. simpl in Hentry.
    destruct (last_blocks e !! h) as [b' |] eqn:Hb; [| discriminate].
    injection Hentry as <- <-.
    apply elem_of_map_to_list in Hha. rewrite last_tally_sum in Hha.
    rewrite (Hk _ _ Hb).
    destruct (voted (map_to_list (last_votes e)) h); [| discriminate].
    injection Hha as <-. auto.
  - intros h b Hb Hv. apply list_elem_of_In. rewrite Hperm.
    apply list_elem_of_omap.
    exists (h, wrap128 (votes_for n (map_to_list (last_votes e)) h)). split.
    + apply elem_of_map_to_list. rewrite last_tally_sum, Hv. reflexivity.
    + unfold tally_entry_of. simpl. now rewrite Hb.
Qed.

(** X1: [tally_impl] counts every recorded vote once, whichever pairs of
    equal amount [nano::tally_t] keeps. Let [tl] be the tally, or any part
    of it that still has an entry for every amount (what a container with
    unique keys keeps). When the candidates are stored under their own
    hashes, [tl] holds no block twice; each of its entries is a candidate
    that some recorded vote names, with the sum, modulo [2^128], of the
    ledger weights of the voters whose last vote is for it; and the sum of
    every candidate that a recorded vote names is the amount of an
    entry. *)
Theorem tally_counts_each_voter_once (n : node_t) (e : t) (tl : tally_t) :
  blocks_keyed (last_blocks e) ->
  tl `sublist_of` (tally_impl n e).1 ->
  (forall (amount : N) (b : block.t),
     In (amount, b) (tally_impl n e).1 -> exists b' : block.t, In (amount, b') tl) ->
  NoDup (map (fun x => block.hash x.2) tl)
  /\ (forall (amount : N) (b : block.t),
        In (amount, b) tl ->
        last_blocks e !! block.hash b = Some b
        /\ voted (map_to_list (last_votes e)) (block.hash b) = true
        /\ amount = wrap128 (votes_for n (map_to_list (last_votes e)) (block.hash b)))
  /\ (forall (h : N) (b : block.t),
        last_blocks e !! h = Some b ->
        voted (map_to_list (last_votes e)) h = true ->
        exists b' : block.t,
          In (wrap128 (votes_for n (map_to_list (last_votes e)) h), b') tl).
Proof.
  intros Hk Hsub Hamounts.
  destruct (tally_impl_entries n e Hk) as (Hnodup & Hentries & Hall).
  split; [| split].
  - eapply sublist_NoDup; [exact Hnodup |].
    change (map (fun x : N * block.t => block.hash x.2) tl)
      with ((fun x : N * block.t => block.hash x.2) <$> tl).
    change (map (fun x : N * block.t => block.hash x.2) (tally_impl n e).1)
      with ((fun x : N * block.t => block.hash x.2) <$> (tally_impl n e).1).
    now apply fmap_sublist.
  - intros amount b Hin. apply Hentries.
    apply list_elem_of_In. apply list_elem_of_In in Hin.
    eapply elem_of_sublist; eassumption.
  - intros h b Hb Hv. apply (Hamounts _ b). now apply Hall.
Qed.

(** X1 on the election in which 3 voted for block 5 and 4 for block 6, both
    without weight: the tally has two entries of amount 0, and the first of
    them alone has an entry for the sum of either candidate. *)
Lemma tally_counts_each_voter_once_witness :
  length (tally_impl (sample_node true sample_weights 10 100 seconds)
            sample_election_tied).1 = 2%nat
  /\ forall (h : N) (b : block.t),
       last_blocks sample_election_tied !! h = Some b ->
       voted (map_to_list (last_votes sample_election_tied)) h = true ->
       exists b' : block.t,
         In (wrap128 (votes_for (sample_node true sample_weights 10 100 seconds)
                        (map_to_list (last_votes sample_election_tied)) h), b')
            (take 1 (tally_impl (sample_node true sample_weights 10 100 seconds)
                       sample_election_tied).1).
Proof.
  split; [vm_compute; reflexivity |].
  refine (proj2 (proj2 (tally_counts_each_voter_once
                          (sample_node true sample_weights 10 100 seconds)
                          sample_election_tied
                          (take 1 (tally_impl
                                     (sample_node true sample_weights 10 100 seconds)
                                     sample_election_tied).1) _ _ _))).
  - apply (vote_tracked (sample_node true sample_weights 10 100 seconds) 4 1 6
             live sample_election_tied_one sample_election_tied
             {| replay := false; processed := true |});
      [vm_compute; reflexivity |].
    apply (vote_tracked (sample_node true sample_weights 10 100 seconds) 3 1 5
             live sample_election_tied_fork sample_election_tied_one
             {| replay := false; processed := true |});
      [vm_compute; reflexivity |].
    apply (publish_tracked (sample_node true sample_weights 10 100 seconds)
             (sample_block 6) sample_election sample_election_tied_fork false);
      [vm_compute; reflexivity |].
    apply make_tracked.
  - apply sublist_take.
  - intros amount b Hin. vm_compute in Hin.
    destruct Hin as [Hin | [Hin | []]]; injection Hin as <- _;
      exists (sample_block 6); vm_compute; left; reflexivity.
Defined.

End tally_sums.

(** ** The steps of an election *)

Section election_steps.

(** X2: [remove_block] of a hash other than the winner's leaves no
    candidate under that hash and keeps every other candidate; when the
    hash was a candidate, exactly the votes for it are erased; when it was
    not, the election is unchanged. *)
Theorem remove_block_purges (h : N) (e : t) :
  block.hash (winner (status e)) <> h ->
  last_blocks (remove_block h e) !! h = None
  /\ (forall k : N, k <> h ->
        last_blocks (remove_block h e) !! k = last_blocks e !! k)
  /\ (is_Some (last_blocks e !! h) ->
      forall (r : N) (lv : vote_info),
        last_votes (remove_block h e) !! r = Some lv
        <-> (last_votes e !! r = Some lv /\ vote_hash lv <> h))
  /\ (last_blocks e !! h = None -> remove_block h e = e).
Proof.
  intros Hw. unfold remove_block.
  apply N.eqb_neq in Hw. rewrite Hw. simpl.
  destruct (last_blocks e !! h) as [existing |] eqn:Hb; simpl.
  - split; [apply lookup_delete_eq |]. split.
    + intros k Hk. apply lookup_delete_ne. congruence.
    + split; [| discriminate]. intros _ r lv.
      rewrite map_lookup_filter_Some. reflexivity.
  - split; [exact Hb |]. split; [reflexivity |].
    split; [intros [? [=]] | reflexivity].
Qed.

(** X2 on the election with candidates 5 and 6, for block 6. *)
Lemma remove_block_purges_witness :
  block.hash (winner (status sample_election_fork)) <> 6
  /\ last_blocks (remove_block 6 sample_election_fork) !! 6 = None.
Proof.
  assert (Hw : block.hash (winner (status sample_election_fork)) <> 6)
    by (vm_compute; discriminate).
  split; [exact Hw |].
  exact (proj1 (remove_block_purges 6 sample_election_fork Hw)).
Defined.

Lemma set_state_same (e : t) :
  set_state (state_m e) (state_start e) e = e.
Proof. destruct e. reflexivity. Qed.

(** X3: [confirm_once] leaves the election confirmed, changes nothing in an
    election that is confirmed already, so that a second call has no
    effect, and schedules the confirmation of the current winner at most
    once: the trace is unchanged or grows by the registration of the winner
    and one background call carrying the winner and the given type. *)
Theorem confirm_once_once (n : node_t) (ty : election_status_type) (e : t) :
  state_m (confirm_once n ty e) = state_t.confirmed
  /\ (state_m e = state_t.confirmed -> confirm_once n ty e = e)
  /\ (forall (n' : node_t) (ty' : election_status_type),
        confirm_once n' ty' (confirm_once n ty e) = confirm_once n ty e)
  /\ (trace (confirm_once n ty e) = trace e
      \/ exists s : election_status,
           trace (confirm_once n ty e)
           = trace e ++ [winner_details_emplace (block.hash (winner (status e)));
                         background_process_confirmed s]
           /\ winner s = winner (status e)
           /\ election_status_type_s s = ty).
Proof.
  assert (Hstate : forall n ty e, state_m (confirm_once n ty e) = state_t.confirmed).
  { intros n0 ty0 e0. unfold confirm_once. destruct (_ && _); reflexivity. }
  assert (Hid : forall n ty e, state_m e = state_t.confirmed -> confirm_once n ty e = e).
  { intros n0 ty0 e0 Hs. unfold confirm_once. rewrite Hs. simpl.
    rewrite <- Hs. apply set_state_same. }
  split; [apply Hstate |]. split; [apply Hid |]. split.
  - intros n' ty'. apply Hid, Hstate.
  - unfold confirm_once. destruct (_ && _); [| now left].
    right. eexists. split; [| split].
    + simpl. rewrite <- app_assoc. reflexivity.
    + reflexivity.
    + reflexivity.
Qed.

(** X3 on the sample election: a second confirmation changes nothing. *)
Lemma confirm_once_once_witness :
  confirm_once (sample_node false sample_weights 10 100 (2 * seconds))
    inactive_confirmation_height
    (confirm_once (sample_node false sample_weights 10 100 seconds)
       active_confirmed_quorum sample_election)
  = confirm_once (sample_node false sample_weights 10 100 seconds)
      active_confirmed_quorum sample_election.
Proof.
  destruct (confirm_once_once (sample_node false sample_weights 10 100 seconds)
              active_confirmed_quorum sample_election) as (_ & _ & Hagain & _).
  exact (Hagain (sample_node false sample_weights 10 100 (2 * seconds))
           inactive_confirmation_height).
Defined.

Lemma state_change_done (n : node_t) (x d : state_t.t) (e : t) :
  valid_change x d = true -> state_m e = x ->
  state_change n x d e = (false, set_state d (now n) e).
Proof.
  intros Hv Hs. unfold state_change. rewrite Hv, Hs, state_eqb_refl. reflexivity.
Qed.

Lemma state_change_refused (n : node_t) (x d : state_t.t) (e : t) :
  valid_change x d = false -> state_change n x d e = (true, e).
Proof. intros Hv. unfold state_change. now rewrite Hv. Qed.

(** X4: the tick after confirmation. On a confirmed election
    [transition_time] returns true and moves it to [expired_confirmed] at
    the time of the call, changing nothing else; so it does after
    [confirm_once], whatever the state of the election was before. *)
Theorem transition_time_ends (n : node_t) (e : t) :
  (state_m e = state_t.confirmed ->
     transition_time n e
     = Ok (true, set_state state_t.expired_confirmed (now n) e))
  /\ (forall (n0 : node_t) (ty : election_status_type),
        transition_time n (confirm_once n0 ty e)
        = Ok (true,
              set_state state_t.expired_confirmed (now n)
                (confirm_once n0 ty e))).
Proof.
  assert (Htick : forall x : t,
             state_m x = state_t.confirmed ->
             transition_time n x
             = Ok (true, set_state state_t.expired_confirmed (now n) x)).
  { intros x Hs. unfold transition_time. rewrite Hs.
    rewrite (state_change_done n state_t.confirmed state_t.expired_confirmed
               x eq_refl Hs).
    simpl. destruct (_ && _); reflexivity. }
  split; [apply Htick |].
  intros n0 ty. apply Htick.
  unfold confirm_once. destruct (_ && _); reflexivity.
Qed.

(** X4 on the sample election once confirmed, ticked at second 2. *)
Lemma transition_time_ends_witness :
  transition_time (sample_node false sample_weights 10 100 (2 * seconds))
    (confirm_once (sample_node false sample_weights 10 100 seconds)
       active_confirmed_quorum sample_election)
  = Ok (true,
        set_state state_t.expired_confirmed
          (now (sample_node false sample_weights 10 100 (2 * seconds)))
          (confirm_once (sample_node false sample_weights 10 100 seconds)
             active_confirmed_quorum sample_election)).
Proof.
  apply (proj1 (transition_time_ends
                  (sample_node false sample_weights 10 100 (2 * seconds))
                  (confirm_once (sample_node false sample_weights 10 100 seconds)
                     active_confirmed_quorum sample_election))).
  vm_compute; reflexivity.
Defined.

(** X5: [cooldown_time] never grows with the weight of the voter, and is
    one of 1, 5 and 15 seconds. *)
Theorem cooldown_time_antitone (n : node_t) (w1 w2 : N) :
  w1 <= w2 ->
  (cooldown_time n w2 <= cooldown_time n w1)%Z
  /\ (cooldown_time n w1 = 1 \/ cooldown_time n w1 = 5 \/ cooldown_time n w1 = 15)%Z.
Proof.
  intros Hle. unfold cooldown_time.
  destruct (online_reps_trended n / 20 <? w1) eqn:A1;
    destruct (online_reps_trended n / 100 <? w1) eqn:B1;
    destruct (online_reps_trended n / 20 <? w2) eqn:A2;
    destruct (online_reps_trended n / 100 <? w2) eqn:B2;
    rewrite ?N.ltb_lt, ?N.ltb_ge in *; (split; [lia | auto]); lia.
Qed.

(** X5 for the weights 5 and 60 with 1000 units online. *)
Lemma cooldown_time_antitone_witness :
  (cooldown_time (sample_node false sample_weights 10 100 seconds) 60
   <= cooldown_time (sample_node false sample_weights 10 100 seconds) 5)%Z.
Proof.
  refine (proj1 (cooldown_time_antitone
                   (sample_node false sample_weights 10 100 seconds) 5 60 _)).
  lia.
Defined.


(** *** Expiry *)

Lemma same_clockwork_refl (e : t) : same_clockwork e e.
Proof. repeat split. Qed.

Lemma same_clockwork_trans (e1 e2 e3 : t) :
  same_clockwork e1 e2 -> same_clockwork e2 e3 -> same_clockwork e1 e3.
Proof. intros (? & ? & ? & ?) (? & ? & ? & ?). repeat split; congruence. Qed.

Lemma broadcast_vote_clockwork (n : node_t) (e e' : t) :
  broadcast_vote n e = Ok e' -> same_clockwork e e'.
Proof.
  unfold broadcast_vote. destruct (_ <? _)%Z; [| intros [= <-]; apply same_clockwork_refl].
  unfold broadcast_vote_impl. destruct (_ && _).
  - destruct (confirmed n _).
    + simpl. intros [= <-]. repeat split.
    + destruct (tally_impl n _) as [tl e2] eqn:Ht.
      assert (He2 : e2 = (tally_impl n (emit [stat_generate_vote] e)).2)
        by now rewrite Ht.
      destruct (have_quorum n tl) as [q |]; [| discriminate]. simpl.
      destruct q; intros [= <-]; subst e2; repeat split.
  - simpl. intros [= <-]. repeat split.
Qed.

Lemma broadcast_block_clockwork (n : node_t) (e : t) :
  same_clockwork e (broadcast_block n e).
Proof.
  unfold broadcast_block. destruct (_ <? _)%Z; [| apply same_clockwork_refl].
  destruct (negb _); repeat split.
Qed.

Lemma send_confirm_req_clockwork (n : node_t) (e : t) :
  same_clockwork e (send_confirm_req n e).
Proof.
  unfold send_confirm_req. destruct (_ <? _)%Z; [| apply same_clockwork_refl].
  destruct (negb _); repeat split.
Qed.

Lemma transition_time_stages (n : node_t) (e : t) :
  transition_time n e = (re ← timer_stage n e; expire_stage n re.1 re.2).
Proof. reflexivity. Qed.

Lemma expire_stage_old (n : node_t) (r0 : bool) (e1 : t) :
  (state_m e1 = state_t.passive \/ state_m e1 = state_t.active) ->
  confirmed n e1 = false ->
  (time_to_live e1 < now n - election_start e1)%Z ->
  exists e' : t,
    expire_stage n r0 e1 = Ok (true, e')
    /\ state_m e' = state_t.expired_unconfirmed
    /\ election_status_type_s (status e') = stopped.
Proof.
  intros Hs1 Hc Ht. unfold expire_stage.
  apply Z.ltb_lt in Ht. rewrite Hc, Ht. cbn [negb andb].
  rewrite (state_change_done n (state_m e1) state_t.expired_unconfirmed e1);
    [| destruct Hs1 as [-> | ->]; reflexivity | reflexivity].
  cbn [fst snd negb].
  destruct (election_expiration_tally_logging n); eexists; repeat split.
Qed.

Lemma timer_stage_clockwork (n : node_t) (e : t) (re : bool * t) :
  (state_m e = state_t.passive \/ state_m e = state_t.active) ->
  timer_stage n e = Ok re ->
  (state_m re.2 = state_t.passive \/ state_m re.2 = state_t.active)
  /\ election_start re.2 = election_start e
  /\ behavior_m re.2 = behavior_m e
  /\ winner (status re.2) = winner (status e).
Proof.
  intros Hstate. unfold timer_stage. destruct Hstate as [Hs | Hs]; rewrite Hs.
  - destruct (_ <? _)%Z; intros [= <-].
    + rewrite (state_change_done n state_t.passive state_t.active e eq_refl Hs).
      simpl. auto.
    + simpl. auto.
  - destruct (broadcast_vote n e) as [e1 |] eqn:Hb; [| discriminate].
    cbn [mbind outcome_bind]. intros [= <-]. cbn [snd].
    apply broadcast_vote_clockwork in Hb.
    pose proof (same_clockwork_trans _ _ _ Hb
                  (same_clockwork_trans _ _ _ (broadcast_block_clockwork n e1)
                     (send_confirm_req_clockwork n (broadcast_block n e1))))
      as (Hs3 & Hst3 & Hb3 & Hw3).
    split; [right; congruence | auto].
Qed.

(** X6: an unconfirmed election older than its time to live expires on the
    next tick. For a passive or active election whose winner is not
    confirmed and whose age exceeds [time_to_live], every result of
    [transition_time] is true with the election in [expired_unconfirmed],
    failed, and its status of type [stopped]; and from [passive] the call
    does return. *)
Theorem transition_time_expires (n : node_t) (e : t) :
  (state_m e = state_t.passive \/ state_m e = state_t.active) ->
  confirmed n e = false ->
  (time_to_live e < now n - election_start e)%Z ->
  (forall (r : bool) (e' : t),
     transition_time n e = Ok (r, e') ->
     r = true /\ state_m e' = state_t.expired_unconfirmed
     /\ failed e' = true
     /\ election_status_type_s (status e') = stopped)
  /\ (state_m e = state_t.passive ->
      exists e' : t, transition_time n e = Ok (true, e')).
Proof.
  intros Hstate Hconf Hold.
  assert (Hnext : forall re : bool * t,
             timer_stage n e = Ok re ->
             exists e' : t,
               expire_stage n re.1 re.2 = Ok (true, e')
               /\ state_m e' = state_t.expired_unconfirmed
               /\ election_status_type_s (status e') = stopped).
  { intros re Hre.
    destruct (timer_stage_clockwork n e re Hstate Hre) as (Hs & Hst & Hb & Hw).
    apply expire_stage_old; [exact Hs | |].
    - unfold confirmed in *. now rewrite Hw.
    - unfold time_to_live in *. now rewrite Hst, Hb. }
  split.
  - intros r e'. rewrite transition_time_stages.
    destruct (timer_stage n e) as [re |] eqn:Hre; [| discriminate].
    cbn [mbind outcome_bind].
    destruct (Hnext re eq_refl) as (e2 & -> & Hs2 & Hty).
    intros [= <- <-]. unfold failed. rewrite Hs2. auto.
  - intros Hs. rewrite transition_time_stages.
    assert (Hreturns : exists re, timer_stage n e = Ok re).
    { unfold timer_stage. rewrite Hs. destruct (_ <? _)%Z; eauto. }
    destruct Hreturns as [re Hre]. rewrite Hre. cbn [mbind outcome_bind].
    destruct (Hnext re Hre) as (e2 & -> & _). eauto.
Qed.

(** X6 on the sample election, 301 seconds after its creation. *)
Lemma transition_time_expires_witness :
  exists e' : t,
    transition_time (sample_node false sample_weights 10 100 (301 * seconds))
      sample_election = Ok (true, e').
Proof.
  refine (proj2 (transition_time_expires
                   (sample_node false sample_weights 10 100 (301 * seconds))
                   sample_election _ _ _) _);
    [left; reflexivity | vm_compute; reflexivity | vm_compute; reflexivity
     | reflexivity].
Defined.


(** *** What a vote writes *)

Lemma remove_votes_idle (n : node_t) (h : N) (e : t) :
  not_voting n -> remove_votes n h e = e.
Proof. unfold not_voting, remove_votes. now intros ->. Qed.

Lemma confirm_if_quorum_votes_kept (n : node_t) (e e' : t) :
  not_voting n -> confirm_if_quorum n e = Ok e' -> last_votes e' = last_votes e.
Proof.
  intros Hn. unfold confirm_if_quorum.
  destruct (tally_impl_frame n e) as (Hv & _).
  destruct (tally_impl n e) as [tl e1]. simpl in Hv.
  destruct tl as [| [amount bl] rest]; [discriminate |].
  set (e2 := set_status (set_tallies amount (final_weight e1)) e1).
  assert (H3 : last_votes (promote_winner n ((amount, bl) :: rest) bl e2)
               = last_votes e).
  { unfold promote_winner. destruct (_ && _); [| exact Hv].
    rewrite remove_votes_idle by exact Hn. exact Hv. }
  assert (H4 : forall x, last_votes (request_final_vote n x) = last_votes x).
  { intros x. unfold request_final_vote.
    destruct (final_votes_confirmation_canary n); [| reflexivity].
    destruct (_ && _); reflexivity. }
  destruct (have_quorum n _) as [q |]; [| discriminate]. cbn [mbind outcome_bind].
  destruct q; [destruct (_ || _) |]; intros [= <-].
  - destruct (confirm_once_frame n active_confirmed_quorum
                (request_final_vote n (promote_winner n ((amount, bl) :: rest) bl e2)))
      as (-> & _).
    now rewrite H4.
  - now rewrite H4.
  - exact H3.
Qed.

Lemma vote_blocks_kept (n : node_t) (rep ts h : N) (src : vote_source) (e e' : t)
    (res : election_vote_result) :
  vote n rep ts h src e = Ok (res, e') -> last_blocks e' = last_blocks e.
Proof.
  intros Hv.
  destruct (vote_cases _ _ _ _ _ _ _ _ Hv) as [[_ ->] | (_ & Hr & _)];
    [reflexivity |].
  now apply record_vote_evolves in Hr as [_ (Hb & _)].
Qed.

(** X7: what [vote] writes. A call that returns never changes the
    candidates; a vote that is not processed changes nothing at all; after
    a processed vote the entry of the voter is the new vote (or was erased
    with the votes of a replaced winner), every other entry is unchanged
    or erased, and on a node that does not vote itself the votes are
    exactly the old ones with the entry of the voter replaced. *)
Theorem vote_records (n : node_t) (rep ts h : N) (src : vote_source) (e e' : t)
    (res : election_vote_result) :
  vote n rep ts h src e = Ok (res, e') ->
  last_blocks e' = last_blocks e
  /\ (processed res = false -> e' = e)
  /\ (processed res = true ->
      (last_votes e' !! rep = None \/ last_votes e' !! rep = Some (recorded n ts h))
      /\ (forall r : N, r <> rep ->
            last_votes e' !! r = None \/ last_votes e' !! r = last_votes e !! r)
      /\ (not_voting n -> last_votes e' = <[ rep := recorded n ts h ]> (last_votes e))).
Proof.
  intros Hv.
  destruct (vote_cases _ _ _ _ _ _ _ _ Hv) as [[Hp ->] | (_ & Hr & _)].
  - split; [reflexivity |]. split; [reflexivity |]. congruence.
  - pose proof Hr as Hr'.
    apply record_vote_evolves in Hr as [-> (Hb & Hvotes & _)].
    split; [exact Hb |]. split; [discriminate |]. intros _.
    split; [| split].
    + destruct (Hvotes rep) as [H | H]; [now left |]. right.
      rewrite H. simpl. apply lookup_insert_eq.
    + intros r Hne. destruct (Hvotes r) as [H | H]; [now left |]. right.
      rewrite H. simpl. now apply lookup_insert_ne.
    + intros Hn. revert Hr'. unfold record_vote.
      set (e1 := set_last_votes _ e).
      set (e2 := match src with live => _ | cache => _ end).
      assert (H2 : last_votes e2 = <[ rep := recorded n ts h ]> (last_votes e)).
      { subst e2 e1. destruct src; reflexivity. }
      destruct (negb (confirmed n e2)).
      * destruct (confirm_if_quorum n e2) as [e3 |] eqn:Hc; [| discriminate].
        cbn [mbind outcome_bind]. intros [= <-].
        now rewrite (confirm_if_quorum_votes_kept n e2 e3 Hn Hc).
      * cbn [mbind outcome_bind]. intros [= <-]. exact H2.
Qed.

(** X7 on the first vote of voter 7 in the sample election. *)
Lemma vote_records_witness :
  last_blocks sample_election_voted = last_blocks sample_election.
Proof.
  refine (proj1 (vote_records
                   (sample_node false sample_weights 10 100 seconds) 7 5 5 live
                   sample_election sample_election_voted
                   {| replay := false; processed := true |} _)).
  vm_compute; reflexivity.
Defined.

(** *** Votes from the cache *)

(** X8: [fill_from_cache] returns the number of cached votes it inserted,
    which is at most the number of cached voters, and keeps the candidates;
    on a live network, when no cached voter holds more than the minimum
    principal weight, it inserts nothing and leaves the election
    unchanged. *)
Theorem fill_from_cache_counts (n : node_t) (h : N) (voters : list (N * N)) :
  forall (e e' : t) (inserted : nat),
  fill_from_cache n h voters e = Ok (inserted, e') ->
  (inserted <= length voters)%nat
  /\ last_blocks e' = last_blocks e
  /\ (is_dev_network n = false ->
      Forall (fun v => ledger_weight n v.1 <= minimum_principal_weight n) voters ->
      inserted = 0%nat /\ e' = e).
Proof.
  induction voters as [| [rep ts] rest IH]; intros e e' inserted Hf.
  - injection Hf as <- <-. auto.
  - simpl in Hf.
    destruct (vote n rep ts h cache e) as [[res e1] |] eqn:Hv; [| discriminate].
    cbn [mbind outcome_bind snd fst] in Hf.
    destruct (fill_from_cache n h rest e1) as [[k e2] |] eqn:Hrest;
      [| discriminate].
    cbn [mbind outcome_bind snd fst] in Hf. injection Hf as <- <-.
    destruct (IH e1 e2 k Hrest) as (Hk & Hb & Hlow).
    pose proof (vote_blocks_kept _ _ _ _ _ _ _ _ Hv) as Hb1.
    split; [destruct (processed res); simpl; lia |].
    split; [congruence |].
    intros Hdev Hall. inversion Hall as [| ? ? Hw Hrestlow]; subst.
    simpl in Hw.
    rewrite (vote_weight_rejects n rep ts h cache e Hdev Hw) in Hv.
    injection Hv as <- <-. simpl.
    destruct (Hlow Hdev Hrestlow) as [-> ->]. auto.
Qed.

(** X8 on the sample election and a cache entry holding the vote of
    voter 7. *)
Lemma fill_from_cache_counts_witness :
  (1 <= length [(7, 5)])%nat
  /\ last_blocks
       (after sample_election
          (fill_from_cache (sample_node false sample_weights 10 100 seconds)
             5 [(7, 5)] sample_election))
     = last_blocks sample_election.
Proof.
  destruct (fill_from_cache_counts
              (sample_node false sample_weights 10 100 seconds) 5 [(7, 5)]
              sample_election
              (after sample_election
                 (fill_from_cache
                    (sample_node false sample_weights 10 100 seconds) 5 [(7, 5)]
                    sample_election))
              1%nat) as (Hcount & Hblocks & _);
    [vm_compute; reflexivity |].
  split; [exact Hcount | exact Hblocks].
Defined.


(** *** Published blocks *)

Lemma replace_by_weight_no_votes (n : node_t) (h : N) (e : t) :
  default 0 (inactive_vote_cache_find n h) = 0 ->
  replace_by_weight n h e = Ok (false, e).
Proof. intros H0. unfold replace_by_weight. rewrite H0. reflexivity. Qed.

(** X9: the results of [publish]. On a confirmed election the block is
    rejected and nothing changes. A block whose hash is a candidate
    already replaces the stored block (and the winner, when it is the
    winner), keeps the votes, and is reported as not new. A new block
    below the cap of [max_blocks] candidates is added. At the cap, a new
    block with no cached votes is rejected and cleared from the publish
    filter. A result of false always means that the block was not a
    candidate before and is one afterwards. *)
Theorem publish_outcome (n : node_t) (b : block.t) (e : t) :
  (confirmed n e = true -> publish n b e = Ok (true, e))
  /\ (confirmed n e = false -> is_Some (last_blocks e !! block.hash b) ->
      exists e' : t,
        publish n b e = Ok (true, e')
        /\ last_blocks e' = <[ block.hash b := b ]> (last_blocks e)
        /\ last_votes e' = last_votes e
        /\ winner (status e')
           = if block.hash (winner (status e)) =? block.hash b
             then b else winner (status e))
  /\ (confirmed n e = false -> last_blocks e !! block.hash b = None ->
      (size (last_blocks e) < max_blocks)%nat ->
      publish n b e
      = Ok (false, set_last_blocks (<[ block.hash b := b ]> (last_blocks e)) e))
  /\ (confirmed n e = false -> last_blocks e !! block.hash b = None ->
      (max_blocks <= size (last_blocks e))%nat ->
      default 0 (inactive_vote_cache_find n (block.hash b)) = 0 ->
      publish n b e = Ok (true, emit [publish_filter_clear b] e))
  /\ (forall e' : t,
        publish n b e = Ok (false, e') ->
        last_blocks e !! block.hash b = None
        /\ last_blocks e' !! block.hash b = Some b).
Proof.
  split; [| split; [| split; [| split]]].
  - intros Hc. unfold publish. rewrite Hc. reflexivity.
  - intros Hc [old Hold]. unfold publish. rewrite Hc.
    assert (Hd : bool_decide (is_Some (last_blocks e !! block.hash b)) = true)
      by (apply bool_decide_eq_true; eauto).
    rewrite Hd, andb_false_r. cbn [mbind outcome_bind fst snd negb].
    rewrite Hold. simpl.
    destruct (block.hash (winner (status e)) =? block.hash b); eexists; repeat split.
  - intros Hc Hnone Hsize. unfold publish. rewrite Hc.
    apply Nat.leb_gt in Hsize. rewrite Hsize. cbn [negb andb mbind outcome_bind fst snd].
    now rewrite Hnone.
  - intros Hc Hnone Hsize H0. unfold publish. rewrite Hc.
    apply Nat.leb_le in Hsize. rewrite Hsize.
    assert (Hd : bool_decide (is_Some (last_blocks e !! block.hash b)) = false).
    { apply bool_decide_eq_false. rewrite Hnone. intros [? [=]]. }
    rewrite Hd. cbn [negb andb].
    rewrite (replace_by_weight_no_votes n _ e H0). reflexivity.
  - intros e'. unfold publish.
    set (result := confirmed n e).
    destruct (negb result && (max_blocks <=? size (last_blocks e))%nat
              && negb (bool_decide (is_Some (last_blocks e !! block.hash b))))
      eqn:Hfull.
    + apply andb_true_iff in Hfull as [_ Hnew].
      apply negb_true_iff, bool_decide_eq_false in Hnew.
      assert (Hnone : last_blocks e !! block.hash b = None).
      { destruct (last_blocks e !! block.hash b); [elim Hnew; eauto | reflexivity]. }
      destruct (replace_by_weight n (block.hash b) e) as [[rr er] |]; [| discriminate].
      cbn [mbind outcome_bind fst snd].
      destruct (negb rr); cbn [mbind outcome_bind fst snd negb]; [discriminate |].
      destruct result; cbn [negb]; [discriminate |].
      destruct (last_blocks er !! block.hash b) eqn:Her.
      * destruct (_ =? _); discriminate.
      * intros [= <-]. split; [exact Hnone |]. simpl. apply lookup_insert_eq.
    + cbn [mbind outcome_bind fst snd].
      destruct result; cbn [negb]; [discriminate |].
      destruct (last_blocks e !! block.hash b) eqn:Her.
      * destruct (_ =? _); discriminate.
      * intros [= <-]. split; [reflexivity |]. simpl. apply lookup_insert_eq.
Qed.

(** X9 for block 6, new to the election that holds block 5 only. *)
Lemma publish_outcome_witness :
  publish (sample_node false sample_weights 10 100 seconds) (sample_block 6)
    sample_election_voted
  = Ok (false,
        set_last_blocks
          (<[ block.hash (sample_block 6) := sample_block 6 ]>
             (last_blocks sample_election_voted))
          sample_election_voted).
Proof.
  destruct (publish_outcome (sample_node false sample_weights 10 100 seconds)
              (sample_block 6) sample_election_voted)
    as (_ & _ & Hnew & _).
  apply Hnew; [vm_compute; reflexivity | vm_compute; reflexivity
               | vm_compute; lia].
Defined.

(** *** Solicitation rate *)

Lemma send_confirm_req_cases (n : node_t) (e : t) :
  send_confirm_req n e = e
  \/ send_confirm_req n e
     = set_clocks (now n) (last_block e) (last_vote e)
         (confirmation_request_count e + 1) e.
Proof.
  unfold send_confirm_req. destruct (_ <? _)%Z; [destruct (negb _) |]; auto.
Qed.

(** X10: [send_confirm_req] is rate-limited. Two calls no more than
    [confirm_req_time] apart count at most one confirmation request, and
    when the first call sent one the second call does nothing. *)
Theorem confirm_req_rate (n n' : node_t) (e : t) :
  is_dev_network n' = is_dev_network n ->
  (now n' - now n <= confirm_req_time n e)%Z ->
  confirmation_request_count (send_confirm_req n' (send_confirm_req n e))
  <= confirmation_request_count e + 1
  /\ (confirmation_request_count (send_confirm_req n e)
      = confirmation_request_count e + 1 ->
      send_confirm_req n' (send_confirm_req n e) = send_confirm_req n e).
Proof.
  intros Hdev Hsoon.
  assert (Htime : forall x, confirm_req_time n' x = confirm_req_time n x).
  { intros x. unfold confirm_req_time, base_latency. now rewrite Hdev. }
  destruct (send_confirm_req_cases n e) as [-> | ->].
  - split; [| lia].
    destruct (send_confirm_req_cases n' e) as [-> | ->]; simpl; lia.
  - set (e1 := set_clocks _ _ _ _ e).
    assert (Hidle : send_confirm_req n' e1 = e1).
    { unfold send_confirm_req. rewrite Htime.
      replace (confirm_req_time n e1) with (confirm_req_time n e) by reflexivity.
      replace (last_req e1) with (now n) by reflexivity.
      apply Z.ltb_ge in Hsoon. now rewrite Hsoon. }
    rewrite Hidle. split; [simpl; lia | reflexivity].
Qed.

(** X10 on the sample election, for calls at seconds 10 and 12. *)
Lemma confirm_req_rate_witness :
  confirmation_request_count
    (send_confirm_req (sample_node false sample_weights 10 100 (12 * seconds))
       (send_confirm_req (sample_node false sample_weights 10 100 (10 * seconds))
          sample_election))
  <= confirmation_request_count sample_election + 1.
Proof.
  refine (proj1 (confirm_req_rate
                   (sample_node false sample_weights 10 100 (10 * seconds))
                   (sample_node false sample_weights 10 100 (12 * seconds))
                   sample_election _ _));
    [reflexivity | vm_compute; discriminate].
Defined.

End election_steps.

(** ** The commit loop *)

Section batches.
Import block_processor.
Import block_processor_loop.
Context {L : Type}.

Lemma process_one_queues (c : config_t) (b : block.t) (f : bool) (p : t) :
  blocks (process_one c b f p).2 = blocks p
  /\ forced (process_one c b f p).2 = forced p
  /\ state_block_signature_verification (process_one c b f p).2
     = state_block_signature_verification p.
Proof.
  unfold process_one. destruct (ledger_process c b); simpl; auto.
  destruct (_ || _); simpl; auto.
Qed.

Lemma rollback_competitor_processor (lg : ledger_t L) (b : block.t) (s : state L) :
  processor (rollback_competitor lg b s) = processor s.
Proof.
  unfold rollback_competitor. destruct (successor lg _ _); [| reflexivity].
  destruct (negb _); reflexivity.
Qed.

Lemma process_next_queues (c : config_t) (lg : ledger_t L) (b : block.t)
    (f : bool) (s : state L) :
  blocks (processor (process_next c lg b f s).2) = blocks (processor s)
  /\ forced (processor (process_next c lg b f s).2) = forced (processor s)
  /\ state_block_signature_verification (processor (process_next c lg b f s).2)
     = state_block_signature_verification (processor s)
  /\ (process_next c lg b f s).1.2 = b.
Proof.
  unfold process_next. cbn [fst snd processor].
  set (s1 := if f then rollback_competitor lg b s else s).
  assert (Hp : processor s1 = processor s).
  { subst s1. destruct f; [apply rollback_competitor_processor | reflexivity]. }
  destruct (process_one_queues (config_at c lg (ledger s1)) b f (processor s1))
    as (Hb & Hf & Hv).
  rewrite Hb, Hf, Hv, Hp. auto.
Qed.

Lemma process_batch_loop_spec (c : config_t) (m : limits_t) (lg : ledger_t L) :
  forall (fuel k0 f0 : nat) (acc : list (process_result * block.t)) (s : state L),
  (length (ready (processor s)) <= fuel)%nat ->
  exists (j : nat) (done : list (process_result * block.t)),
    let r := process_batch_loop fuel c m lg k0 f0 acc s in
    r.1.1 = acc ++ done
    /\ map snd done = take j (ready (processor s))
    /\ (j <= length (ready (processor s)))%nat
    /\ forced (processor r.2) = drop j (forced (processor s))
    /\ blocks (processor r.2)
       = drop (j - length (forced (processor s))) (blocks (processor s))
    /\ state_block_signature_verification (processor r.2)
       = state_block_signature_verification (processor s)
    /\ r.1.2 = (f0 + Nat.min j (length (forced (processor s))))%nat
    /\ (forall i : nat, (i < j)%nat -> batch_open m (k0 + i) = true)
    /\ ((j < length (ready (processor s)))%nat -> batch_open m (k0 + j) = false).
Proof.
  induction fuel as [| fuel IH]; intros k0 f0 acc s Hfuel.
  - exists 0%nat, []. cbn [process_batch_loop fst snd].
    rewrite app_nil_r, Nat.add_0_r.
    repeat split; try reflexivity; try lia; try (now rewrite drop_0).
  - cbn [process_batch_loop].
    fold (batch_open m k0). rewrite <- andb_assoc. fold (batch_open m k0).
    destruct (have_blocks_ready (processor s)) eqn:Hready; cycle 1.
    { exists 0%nat, []. cbn [fst snd andb].
      assert (Hempty : forced (processor s) = [] /\ blocks (processor s) = []).
      { unfold have_blocks_ready in Hready.
        destruct (blocks (processor s)), (forced (processor s));
          try discriminate Hready; auto. }
      destruct Hempty as [Hf Hb]. unfold ready. rewrite Hf, Hb.
      rewrite app_nil_r, Nat.add_0_r. repeat split; simpl; try reflexivity; lia. }
    cbn [andb].
    destruct (batch_open m k0) eqn:Hopen; cycle 1.
    { exists 0%nat, []. cbn [fst snd].
      rewrite app_nil_r, Nat.add_0_r, Nat.add_0_r.
      repeat split; try reflexivity; try lia; try (now rewrite drop_0);
        try (intros; assumption). }
    unfold ready in *.
    destruct (forced (processor s)) as [| fb frest] eqn:Hf.
    + destruct (blocks (processor s)) as [| b rest] eqn:Hb.
      { unfold have_blocks_ready in Hready. rewrite Hf, Hb in Hready.
        discriminate Hready. }
      set (s0 := {| processor := set_queues rest [] (processor s);
                    ledger := ledger s; rollback_failed := rollback_failed s;
                    blocks_rolled_back := blocks_rolled_back s |}).
      destruct (process_next_queues c lg b false s0) as (Hqb & Hqf & Hqv & Hblk).
      cbn [processor s0 set_queues blocks forced
           state_block_signature_verification] in Hqb, Hqf, Hqv.
      destruct (IH (S k0) f0 (acc ++ [(process_next c lg b false s0).1])
                  (process_next c lg b false s0).2)
        as (j & done & Hacc & Hdone & Hj & Hfo & Hbl & Hver & Hcnt & Hall & Hstop).
      { rewrite Hqb, Hqf. simpl in Hfuel |- *. lia. }
      rewrite Hqb, Hqf in *. cbn [app length] in *.
      exists (S j), ((process_next c lg b false s0).1 :: done).
      cbn zeta in *.
      split; [rewrite Hacc, <- app_assoc; reflexivity |].
      split; [cbn [map take]; rewrite Hblk, Hdone; reflexivity |].
      split; [lia |].
      split; [rewrite Hfo; now rewrite !drop_nil |].
      split; [rewrite Hbl; rewrite !Nat.sub_0_r; reflexivity |].
      split; [rewrite Hver, Hqv; reflexivity |].
      split; [rewrite Hcnt; rewrite !Nat.min_0_r; reflexivity |].
      split.
      * intros i Hi. destruct i as [| i]; [now rewrite Nat.add_0_r |].
        replace (k0 + S i)%nat with (S k0 + i)%nat by lia. apply Hall. lia.
      * intros Hlt. replace (k0 + S j)%nat with (S k0 + j)%nat by lia.
        apply Hstop. lia.
    + set (s0 := {| processor := set_queues (blocks (processor s)) frest (processor s);
                    ledger := ledger s; rollback_failed := rollback_failed s;
                    blocks_rolled_back := blocks_rolled_back s |}).
      destruct (process_next_queues c lg fb true s0) as (Hqb & Hqf & Hqv & Hblk).
      cbn [processor s0 set_queues blocks forced
           state_block_signature_verification] in Hqb, Hqf, Hqv.
      destruct (IH (S k0) (S f0) (acc ++ [(process_next c lg fb true s0).1])
                  (process_next c lg fb true s0).2)
        as (j & done & Hacc & Hdone & Hj & Hfo & Hbl & Hver & Hcnt & Hall & Hstop).
      { rewrite Hqb, Hqf. simpl in Hfuel |- *. lia. }
      rewrite Hqb, Hqf in *. cbn [app length] in *.
      exists (S j), ((process_next c lg fb true s0).1 :: done).
      cbn zeta in *.
      split; [rewrite Hacc, <- app_assoc; reflexivity |].
      split; [cbn [map take]; rewrite Hblk, Hdone; reflexivity |].
      split; [lia |].
      split; [rewrite Hfo; reflexivity |].
      split; [rewrite Hbl; reflexivity |].
      split; [rewrite Hver, Hqv; reflexivity |].
      split; [rewrite Hcnt; lia |].
      split.
      * intros i Hi. destruct i as [| i]; [now rewrite Nat.add_0_r |].
        replace (k0 + S i)%nat with (S k0 + i)%nat by lia. apply Hall. lia.
      * intros Hlt. replace (k0 + S j)%nat with (S k0 + j)%nat by lia.
        apply Hstop. lia.
Qed.

(** X11: [process_batch] commits a prefix of the ready blocks, the forced
    ones first and each queue in its order; the rest stays queued in the
    same order and the blocks awaiting signature verification are not
    touched. The count of forced blocks is the part of the prefix taken
    from the forced queue. The prefix is no longer than
    [max_block_write_batch_num]; the loop test held before each of its
    blocks, and failed after it if blocks are left. *)
Theorem process_batch_order (c : config_t) (m : limits_t) (lg : ledger_t L)
    (s : state L) :
  exists j : nat,
    map snd (process_batch c m lg s).1.1 = take j (ready (processor s))
    /\ ready (processor (process_batch c m lg s).2) = drop j (ready (processor s))
    /\ state_block_signature_verification (processor (process_batch c m lg s).2)
       = state_block_signature_verification (processor s)
    /\ (process_batch c m lg s).1.2 = Nat.min j (length (forced (processor s)))
    /\ (j <= length (ready (processor s)))%nat
    /\ (j <= max_block_write_batch_num m)%nat
    /\ (forall i : nat, (i < j)%nat -> batch_open m i = true)
    /\ ((j < length (ready (processor s)))%nat -> batch_open m j = false).
Proof.
  unfold process_batch.
  destruct (process_batch_loop_spec c m lg
              (length (forced (processor s)) + length (blocks (processor s)))
              0 0 [] s)
    as (j & done & Hacc & Hdone & Hj & Hfo & Hbl & Hver & Hcnt & Hall & Hstop).
  { unfold ready. rewrite length_app. lia. }
  cbn zeta in *. exists j.
  split; [rewrite Hacc; exact Hdone |].
  split; [unfold ready; rewrite Hfo, Hbl, drop_app; reflexivity |].
  split; [exact Hver |].
  split; [exact Hcnt |].
  split; [exact Hj |].
  split.
  - destruct j as [| j']; [lia |].
    specialize (Hall j' ltac:(lia)). simpl in Hall. unfold batch_open in Hall.
    apply andb_true_iff in Hall as [_ Hmax].
    apply negb_true_iff, Nat.leb_gt in Hmax. lia.
  - split; [exact Hall | exact Hstop].
Qed.

Lemma force_queues (b : block.t) (p : t) :
  forced (force b p) = forced p ++ [b] /\ blocks (force b p) = blocks p.
Proof. split; reflexivity. Qed.

(** X12: [force] adds one block to the processor, and with no other forced
    block waiting the next batch, if it may start, begins with that
    block. *)
Theorem force_goes_first (c : config_t) (m : limits_t) (lg : ledger_t L)
    (b : block.t) (s : state L) :
  forced (processor s) = [] ->
  batch_open m 0 = true ->
  size (force b (processor s)) = S (size (processor s))
  /\ exists (r : process_result) (rest : list (process_result * block.t)),
       (process_batch c m lg
          {| processor := force b (processor s); ledger := ledger s;
             rollback_failed := rollback_failed s;
             blocks_rolled_back := blocks_rolled_back s |}).1.1
       = (r, b) :: rest.
Proof.
  intros Hf Hopen. split.
  - unfold size, force. simpl. rewrite length_app. simpl. lia.
  - set (s1 := {| processor := force b (processor s) |}).
    unfold process_batch.
    destruct (process_batch_loop_spec c m lg
                (length (forced (processor s1)) + length (blocks (processor s1)))
                0 0 [] s1)
      as (j & done & Hacc & Hdone & _ & _ & _ & _ & _ & _ & Hstop).
    { unfold ready. rewrite length_app. lia. }
    cbn zeta in *.
    assert (Hready : ready (processor s1) = b :: blocks (processor s)).
    { unfold ready. subst s1. cbn [processor]. unfold force. simpl.
      now rewrite Hf. }
    rewrite Hready in Hdone, Hstop. rewrite Hacc.
    destruct j as [| j'].
    + assert (Hshut : batch_open m (0 + 0) = false)
        by (apply Hstop; simpl; lia).
      simpl in Hshut. congruence.
    + destruct done as [| [r b'] rest]; [discriminate Hdone |].
      simpl in Hdone. injection Hdone as -> _. simpl. eauto.
Qed.

Lemma rollback_competitor_bound (lg : ledger_t L) (b : block.t) (s : state L) :
  exists extra : list (list block.t * block.t),
    blocks_rolled_back (rollback_competitor lg b s)
    = blocks_rolled_back s ++ extra
    /\ (length extra <= 1)%nat
    /\ (rollback_failed s <= rollback_failed (rollback_competitor lg b s))%nat
    /\ (rollback_failed (rollback_competitor lg b s)
        <= rollback_failed s + length extra)%nat.
Proof.
  unfold rollback_competitor.
  destruct (successor lg (ledger s) (block.qualified_root b)) as [succ |].
  - destruct (negb (block.hash succ =? block.hash b)).
    + eexists. cbn [blocks_rolled_back rollback_failed].
      split; [reflexivity |]. cbn [length].
      destruct (rollback lg (ledger s) (block.hash succ)).1.1;
        (split; [lia |]; split; lia).
    + exists []. rewrite app_nil_r. cbn [length]. split; [reflexivity |]. split; [lia |]. split; lia.
  - exists []. rewrite app_nil_r. cbn [length]. split; [reflexivity |]. split; [lia |]. split; lia.
Qed.

Lemma process_next_rollbacks (c : config_t) (lg : ledger_t L) (b : block.t)
    (f : bool) (s : state L) :
  exists extra : list (list block.t * block.t),
    blocks_rolled_back (process_next c lg b f s).2
    = blocks_rolled_back s ++ extra
    /\ (length extra <= if f then 1 else 0)%nat
    /\ (rollback_failed s <= rollback_failed (process_next c lg b f s).2)%nat
    /\ (rollback_failed (process_next c lg b f s).2
        <= rollback_failed s + length extra)%nat.
Proof.
  unfold process_next. cbn [snd blocks_rolled_back rollback_failed].
  destruct f.
  - apply rollback_competitor_bound.
  - exists []. rewrite app_nil_r. cbn [length]. split; [reflexivity |]. split; [lia |]. split; lia.
Qed.

Lemma process_batch_loop_rollbacks (c : config_t) (m : limits_t) (lg : ledger_t L) :
  forall (fuel k0 f0 : nat) (acc : list (process_result * block.t)) (s : state L),
  exists extra : list (list block.t * block.t),
    blocks_rolled_back (process_batch_loop fuel c m lg k0 f0 acc s).2
    = blocks_rolled_back s ++ extra
    /\ (f0 + length extra
        <= (process_batch_loop fuel c m lg k0 f0 acc s).1.2)%nat
    /\ (rollback_failed s
        <= rollback_failed (process_batch_loop fuel c m lg k0 f0 acc s).2)%nat
    /\ (rollback_failed (process_batch_loop fuel c m lg k0 f0 acc s).2
        <= rollback_failed s + length extra)%nat.
Proof.
  assert (Hstay : forall (f0 : nat) (acc : list (process_result * block.t))
                         (s : state L),
             exists extra : list (list block.t * block.t),
               blocks_rolled_back (acc, f0, s).2 = blocks_rolled_back s ++ extra
               /\ (f0 + length extra <= (acc, f0, s).1.2)%nat
               /\ (rollback_failed s <= rollback_failed (acc, f0, s).2)%nat
               /\ (rollback_failed (acc, f0, s).2
                   <= rollback_failed s + length extra)%nat).
  { intros f0 acc s. exists []. rewrite app_nil_r. cbn [fst snd length].
    split; [reflexivity |]. split; [lia |]. split; lia. }
  induction fuel as [| fuel IH]; intros k0 f0 acc s; [apply Hstay |].
  cbn [process_batch_loop]. destruct (_ && _ && _); [| apply Hstay].
  destruct (forced (processor s)) as [| fb frest].
  - destruct (blocks (processor s)) as [| b rest]; [apply Hstay |].
    set (s0 := {| processor := set_queues rest [] (processor s);
                  ledger := ledger s; rollback_failed := rollback_failed s;
                  blocks_rolled_back := blocks_rolled_back s |}).
    destruct (process_next_rollbacks c lg b false s0)
      as (x1 & Hb1 & Hl1 & Hlo1 & Hhi1).
    destruct (IH (S k0) f0 (acc ++ [(process_next c lg b false s0).1])
                (process_next c lg b false s0).2)
      as (x2 & Hb2 & Hl2 & Hlo2 & Hhi2).
    exists (x1 ++ x2). rewrite Hb2, Hb1, app_assoc.
    cbn [s0 blocks_rolled_back rollback_failed] in *.
    rewrite length_app.
    split; [reflexivity |]. split; [lia |]. split; lia.
  - set (s0 := {| processor := set_queues (blocks (processor s)) frest (processor s);
                  ledger := ledger s; rollback_failed := rollback_failed s;
                  blocks_rolled_back := blocks_rolled_back s |}).
    destruct (process_next_rollbacks c lg fb true s0)
      as (x1 & Hb1 & Hl1 & Hlo1 & Hhi1).
    destruct (IH (S k0) (S f0) (acc ++ [(process_next c lg fb true s0).1])
                (process_next c lg fb true s0).2)
      as (x2 & Hb2 & Hl2 & Hlo2 & Hhi2).
    exists (x1 ++ x2). rewrite Hb2, Hb1, app_assoc.
    cbn [s0 blocks_rolled_back rollback_failed] in *.
    rewrite length_app.
    split; [reflexivity |]. split; [lia |]. split; lia.
Qed.

(** X13: rollbacks are made for forced blocks only. With no other thread
    adding to the queues while it runs, [process_batch] never removes a
    record of the [blocks_rolled_back] callback and adds at most one for
    every forced block it processes, of which there are no more than were
    queued; the count of failed rollbacks grows by no more than the
    records added. A batch that starts with an empty forced queue rolls
    nothing back. *)
Theorem rollback_only_when_forced (c : config_t) (m : limits_t) (lg : ledger_t L)
    (s : state L) :
  (exists extra : list (list block.t * block.t),
     blocks_rolled_back (process_batch c m lg s).2
     = blocks_rolled_back s ++ extra
     /\ (length extra <= (process_batch c m lg s).1.2)%nat
     /\ ((process_batch c m lg s).1.2 <= length (forced (processor s)))%nat
     /\ (rollback_failed s <= rollback_failed (process_batch c m lg s).2)%nat
     /\ (rollback_failed (process_batch c m lg s).2
         <= rollback_failed s + length extra)%nat)
  /\ (forced (processor s) = [] ->
      blocks_rolled_back (process_batch c m lg s).2 = blocks_rolled_back s
      /\ rollback_failed (process_batch c m lg s).2 = rollback_failed s
      /\ (process_batch c m lg s).1.2 = 0%nat).
Proof.
  assert (Hcount : ((process_batch c m lg s).1.2
                    <= length (forced (processor s)))%nat).
  { unfold process_batch.
    destruct (process_batch_loop_spec c m lg
                (length (forced (processor s)) + length (blocks (processor s)))
                0 0 [] s)
      as (j & done & _ & _ & _ & _ & _ & _ & Hcnt & _).
    { unfold ready. rewrite length_app. lia. }
    cbn zeta in Hcnt. rewrite Hcnt. lia. }
  assert (Hbound : exists extra : list (list block.t * block.t),
             blocks_rolled_back (process_batch c m lg s).2
             = blocks_rolled_back s ++ extra
             /\ (length extra <= (process_batch c m lg s).1.2)%nat
             /\ (rollback_failed s
                 <= rollback_failed (process_batch c m lg s).2)%nat
             /\ (rollback_failed (process_batch c m lg s).2
                 <= rollback_failed s + length extra)%nat).
  { unfold process_batch.
    destruct (process_batch_loop_rollbacks c m lg
                (length (forced (processor s)) + length (blocks (processor s)))
                0 0 [] s)
      as (extra & Hb & Hl & Hlo & Hhi).
    exists extra.
    split; [exact Hb |]. split; [lia |]. split; [exact Hlo | exact Hhi]. }
  destruct Hbound as (extra & Hb & Hl & Hlo & Hhi). split.
  - exists extra.
    split; [exact Hb |]. split; [exact Hl |]. split; [exact Hcount |].
    split; [exact Hlo | exact Hhi].
  - intros Hf. rewrite Hf in Hcount. cbn [length] in Hcount.
    assert (Hnone : extra = []) by (destruct extra; [reflexivity | simpl in Hl; lia]).
    subst extra. rewrite app_nil_r in Hb. cbn [length] in Hhi.
    split; [exact Hb |]. split; lia.
Qed.

(** X14: [process_verified_state_blocks] takes one item per verification
    result from the front of the deque and appends to the commit queue, in
    order, the blocks with an epoch link, whatever their result, and the
    other blocks whose result is 1; the other queues, the unchecked table
    and the counters are unchanged. With more results than items it takes
    the front of an empty deque. *)
Theorem process_verified_state_blocks_filter (lg : ledger_t L) :
  forall (verifications : list Z) (items : list block.t) (p : t),
  ((length verifications <= length items)%nat ->
   exists p' : t,
     process_verified_state_blocks lg items verifications p
     = Ok (drop (length verifications) items, p')
     /\ blocks p'
        = blocks p
          ++ map fst (List.filter (passes_verification lg) (zip items verifications))
     /\ forced p' = forced p
     /\ state_block_signature_verification p'
        = state_block_signature_verification p
     /\ unchecked p' = unchecked p /\ stats p' = stats p)
  /\ ((length items < length verifications)%nat ->
      process_verified_state_blocks lg items verifications p
      = Err undefined_behaviour).
Proof.
  induction verifications as [| v rest IH]; intros items p.
  - split; [| simpl; lia]. intros _. exists p. simpl.
    rewrite drop_0. destruct items; simpl; rewrite app_nil_r; repeat split.
  - destruct items as [| b items']; [split; [simpl; lia | reflexivity] |].
    cbn [process_verified_state_blocks length].
    set (p1 := if negb (block.link b =? 0) && is_epoch_link lg (block.link b)
               then set_queues (blocks p ++ [b]) (forced p) p
               else if (v =? 1)%Z then set_queues (blocks p ++ [b]) (forced p) p
                    else p).
    assert (Hp1 : blocks p1 = blocks p ++ (if passes_verification lg (b, v)
                                           then [b] else [])
                  /\ forced p1 = forced p
                  /\ state_block_signature_verification p1
                     = state_block_signature_verification p
                  /\ unchecked p1 = unchecked p /\ stats p1 = stats p).
    { subst p1. unfold passes_verification. cbn [fst snd].
      destruct (negb (block.link b =? 0) && is_epoch_link lg (block.link b));
        cbn [orb]; [auto |].
      destruct (v =? 1)%Z; cbn [set_queues blocks forced]; auto.
      rewrite app_nil_r. auto. }
    destruct Hp1 as (Hb & Hf & Hv & Hu & Hs).
    destruct (IH items' p1) as [Hok Hbad]. split.
    + intros Hlen. destruct Hok as (p' & Hrun & Hb' & Hf' & Hv' & Hu' & Hs');
        [lia |].
      exists p'. split; [exact Hrun |].
      split; [| repeat split; congruence].
      rewrite Hb', Hb. cbn [zip zip_with List.filter].
      destruct (passes_verification lg (b, v)); cbn [map fst];
        rewrite <- app_assoc; reflexivity.
    + intros Hlen. apply Hbad. lia.
Qed.

End batches.

(** X12 for block 9 forced while block 5 waits in the queue. *)
Lemma force_goes_first_witness :
  block_processor.size
    (block_processor.force (sample_block 9)
       (block_processor_loop.processor (sample_state [sample_block 5])))
  = S (block_processor.size
         (block_processor_loop.processor (sample_state [sample_block 5]))).
Proof.
  refine (proj1 (force_goes_first
                   (sample_config 8 (fun _ => false) block_processor.progress)
                   sample_limits
                   sample_ledger (sample_block 9)
                   (sample_state [sample_block 5]) _ _));
    [reflexivity | vm_compute; reflexivity].
Defined.

(** X13 for a batch of one block that was not forced. *)
Lemma rollback_only_when_forced_witness :
  block_processor_loop.blocks_rolled_back
    (block_processor_loop.process_batch
       (sample_config 8 (fun _ => false) block_processor.progress)
       sample_limits sample_ledger (sample_state [sample_block 5])).2
  = block_processor_loop.blocks_rolled_back (sample_state [sample_block 5]).
Proof.
  destruct (proj2 (rollback_only_when_forced
                     (sample_config 8 (fun _ => false) block_processor.progress)
                     sample_limits sample_ledger
                     (sample_state [sample_block 5])) eq_refl) as (Hnone & _).
  exact Hnone.
Defined.

(** X14 for two items, the first verified and the second not, and for a
    result without an item. *)
Lemma process_verified_state_blocks_filter_witness :
  (exists p' : block_processor.t,
     block_processor_loop.process_verified_state_blocks sample_ledger
       [sample_block 5; sample_block 6] [1%Z; 0%Z] (sample_processor [])
     = Ok (drop (length [1%Z; 0%Z]) [sample_block 5; sample_block 6], p')
     /\ block_processor.blocks p'
        = block_processor.blocks (sample_processor [])
          ++ map fst (List.filter (passes_verification sample_ledger)
                        (zip [sample_block 5; sample_block 6] [1%Z; 0%Z])))
  /\ block_processor_loop.process_verified_state_blocks sample_ledger
       [] [1%Z] (sample_processor [])
     = Err undefined_behaviour.
Proof.
  split.
  - destruct (proj1 (process_verified_state_blocks_filter sample_ledger
                       [1%Z; 0%Z] [sample_block 5; sample_block 6]
                       (sample_processor [])))
      as (p' & Hrun & Hblocks & _); [simpl; lia |].
    exists p'. split; [exact Hrun | exact Hblocks].
  - apply (proj2 (process_verified_state_blocks_filter sample_ledger
                    [1%Z] [] (sample_processor []))).
    simpl; lia.
Defined.

(** ** Arrival and backpressure *)

Section backpressure.
Import block_processor.

(** X15: a processor that is [full] is [half_full]. *)
Theorem full_is_half_full (c : config_t) (p : t) :
  full c p = true -> half_full c p = true.
Proof.
  unfold full, half_full. rewrite !Nat.leb_le. intros H.
  assert (block_processor_full_size c / 2 <= block_processor_full_size c)%nat
    by (apply Nat.Div0.div_le_upper_bound; lia).
  lia.
Qed.

(** X15 for two queued blocks and a capacity of two. *)
Lemma full_is_half_full_witness :
  half_full (sample_config 2 (fun _ => false) progress)
    (sample_processor [sample_legacy_block 1; sample_legacy_block 2]) = true.
Proof.
  apply (full_is_half_full (sample_config 2 (fun _ => false) progress)
           (sample_processor [sample_legacy_block 1; sample_legacy_block 2])).
  vm_compute; reflexivity.
Defined.

(** X16: [process_active] records the arrival of the block whether or not
    [add] then queues it: the queues and counters are those [add] leaves,
    and the unchecked table is not touched. *)
Theorem process_active_records_arrival (c : config_t) (b : block.t) (p : t) :
  block_arrival (process_active c b p) = block_arrival p ++ [block.hash b]
  /\ pending (process_active c b p) = pending (add c b p)
  /\ stats (process_active c b p) = stats (add c b p)
  /\ unchecked (process_active c b p) = unchecked p.
Proof.
  unfold process_active, add, full, size, pending. cbn [blocks forced
    state_block_signature_verification].
  destruct (_ <=? _)%nat; [repeat split |].
  destruct (validate_entry c b); [repeat split |].
  unfold add_impl. destruct (_ || _); repeat split.
Qed.

End backpressure.

(** ** Broadcasts *)

Section broadcasts.
Import network.

Lemma pop_back_snoc (l : list N) (x : N) : pop_back (l ++ [x]) = Some (x, l).
Proof. unfold pop_back. rewrite rev_app_distr. simpl. now rewrite rev_involutive. Qed.

Lemma solicit_spec (block_a : block.t) :
  forall (budget : nat) (endpoints : list N),
  solicit budget block_a endpoints
  = (requests_to block_a (take budget (rev endpoints)),
     rev (drop budget (rev endpoints))).
Proof.
  induction budget as [| budget IH]; intros endpoints.
  - simpl. now rewrite drop_0, rev_involutive.
  - destruct (rev endpoints) as [| x others] eqn:Hrev.
    + assert (endpoints = []) as ->.
      { apply (f_equal (@rev N)) in Hrev. now rewrite rev_involutive in Hrev. }
      reflexivity.
    + assert (endpoints = rev others ++ [x]) as ->.
      { apply (f_equal (@rev N)) in Hrev. now rewrite rev_involutive in Hrev. }
      cbn [solicit]. rewrite pop_back_snoc, IH, rev_involutive. reflexivity.
Qed.

Lemma base_tasks_spec (block_a : block.t) :
  forall (fuel : nat) (endpoints : list N),
  (length endpoints <= fuel)%nat ->
  broadcast_confirm_req_base_tasks fuel block_a endpoints
  = requests_to block_a (rev endpoints).
Proof.
  induction fuel as [| fuel IH]; intros endpoints Hlen.
  - destruct endpoints; [reflexivity | simpl in Hlen; lia].
  - cbn [broadcast_confirm_req_base_tasks]. rewrite solicit_spec. cbn [fst snd].
    destruct (rev (drop max_reps (rev endpoints))) as [| y ys] eqn:Hrest.
    + assert (Hd : drop max_reps (rev endpoints) = []).
      { apply (f_equal (@rev N)) in Hrest. now rewrite rev_involutive in Hrest. }
      rewrite <- (take_drop max_reps (rev endpoints)) at 2.
      now rewrite Hd, app_nil_r.
    + rewrite <- Hrest. rewrite IH.
      * rewrite rev_involutive. unfold requests_to. rewrite <- map_app.
        now rewrite take_drop.
      * rewrite length_rev, length_drop, length_rev.
        assert (length endpoints <> 0)%nat.
        { destruct endpoints; [| simpl; lia].
          simpl in Hrest. try rewrite drop_nil in Hrest. discriminate. }
        unfold max_reps. lia.
Qed.

Lemma rev_drop_rev (k : nat) (l : list N) :
  rev (drop k (rev l)) = take (length l - k) l.
Proof.
  rewrite <- (rev_involutive (take (length l - k) l)). f_equal.
  rewrite <- (take_drop (length l - k) l) at 1.
  rewrite rev_app_distr.
  destruct (Nat.le_gt_cases k (length l)) as [Hle | Hgt].
  - apply drop_app_length'. rewrite length_rev, length_drop. lia.
  - replace (length l - k)%nat with 0%nat by lia.
    rewrite take_0, drop_0. simpl. rewrite app_nil_r.
    apply drop_ge. rewrite length_rev. lia.
Qed.

(** X17: [broadcast_confirm_req_base], with the tasks it schedules, sends
    the request for the block to every channel of the vector exactly once,
    from the back of the vector to its front; one call sends to
    [max_reps] channels at most and leaves the others in the vector. *)
Theorem broadcast_confirm_req_base_each_once (block_a : block.t) (endpoints : list N) :
  broadcast_confirm_req_base block_a endpoints
  = requests_to block_a (rev endpoints)
  /\ length (solicit max_reps block_a endpoints).1
     = Nat.min max_reps (length endpoints)
  /\ (solicit max_reps block_a endpoints).2
     = take (length endpoints - max_reps) endpoints.
Proof.
  split; [| split].
  - unfold broadcast_confirm_req_base. now apply base_tasks_spec.
  - rewrite solicit_spec. cbn [fst]. unfold requests_to.
    rewrite length_map, length_take, length_rev. reflexivity.
  - rewrite solicit_spec. cbn [snd]. apply rev_drop_rev.
Qed.

Lemma flood_block_many_closed (callback_a : bool) (delay_a : N) :
  delay_a <> 0 ->
  forall (b : block.t) (rest : list block.t),
  flood_block_many (b :: rest) callback_a delay_a
  = Ok (map flood_block (b :: rest) ++ (if callback_a then [callback] else [])).
Proof.
  intros Hd b rest. revert b.
  induction rest as [| b' rest IH]; intros b; [reflexivity |].
  change (flood_block_many (b :: b' :: rest) callback_a delay_a)
    with (if delay_a =? 0 then Err undefined_behaviour
          else later ← flood_block_many (b' :: rest) callback_a delay_a;
               Ok (flood_block b :: later)).
  apply N.eqb_neq in Hd. rewrite Hd, IH. reflexivity.
Qed.

(** X18: [flood_block_many] floods the blocks in the order of the deque
    and then runs the callback, if there is one, once. For an empty deque
    it does nothing and the callback is not run. With two blocks or more
    and a delay of zero the delay of the task is a remainder by zero. *)
Theorem flood_block_many_in_order (callback_a : bool) (delay_a : N)
    (blocks_a : list block.t) :
  flood_block_many [] callback_a delay_a = Ok []
  /\ (forall b : block.t,
        flood_block_many [b] callback_a delay_a
        = Ok (flood_block b :: if callback_a then [callback] else []))
  /\ (delay_a <> 0 -> blocks_a <> [] ->
      flood_block_many blocks_a callback_a delay_a
      = Ok (map flood_block blocks_a ++ (if callback_a then [callback] else [])))
  /\ (delay_a = 0 -> (2 <= length blocks_a)%nat ->
      flood_block_many blocks_a callback_a delay_a = Err undefined_behaviour).
Proof.
  split; [reflexivity |]. split; [reflexivity |]. split.
  - intros Hd Hne. destruct blocks_a as [| b rest]; [now elim Hne |].
    now apply flood_block_many_closed.
  - intros -> Hlen. destruct blocks_a as [| b [| b' rest]]; simpl in Hlen; try lia.
    reflexivity.
Qed.

(** X18 for blocks 5 and 6 with a callback, 10 ms and 0 ms apart. *)
Lemma flood_block_many_in_order_witness :
  flood_block_many [sample_block 5; sample_block 6] true 10
  = Ok (map flood_block [sample_block 5; sample_block 6]
        ++ (if true then [callback] else []))
  /\ flood_block_many [sample_block 5; sample_block 6] true 0
     = Err undefined_behaviour.
Proof.
  split.
  - destruct (flood_block_many_in_order true 10
                [sample_block 5; sample_block 6]) as (_ & _ & Hpaced & _).
    apply Hpaced; [lia | discriminate].
  - destruct (flood_block_many_in_order true 0
                [sample_block 5; sample_block 6]) as (_ & _ & _ & Hzero).
    apply Hzero; [reflexivity | simpl; lia].
Defined.

Lemma fill_request_spec (budget : nat) :
  forall queue : list (N * N),
  fill_request budget queue = (take budget queue, drop budget queue).
Proof.
  induction budget as [| budget IH]; intros [| x rest]; try reflexivity.
  cbn [fill_request]. now rewrite IH.
Qed.

Lemma batches_to_app (ch : N) (l1 l2 : list effect) :
  batches_to ch (l1 ++ l2) = batches_to ch l1 ++ batches_to ch l2.
Proof. unfold batches_to. apply omap_app. Qed.

Lemma batches_to_callback (ch : N) (callback_a : bool) :
  batches_to ch (if callback_a then [callback] else []) = [].
Proof. now destruct callback_a. Qed.

Lemma batches_to_cons (ch c : N) (request : list (N * N)) (l : list effect) :
  batches_to ch (send_confirm_req_batch c request :: l)
  = if c =? ch then request :: batches_to ch l else batches_to ch l.
Proof. unfold batches_to. simpl. now destruct (c =? ch). Qed.

Lemma batches_to_entries (ch : N) (f : list (N * N) -> list (N * N)) :
  forall l : list (N * list (N * N)),
  NoDup l.*1 ->
  (forall q, In (ch, q) l ->
     batches_to ch (map (fun entry => send_confirm_req_batch entry.1 (f entry.2)) l)
     = [f q])
  /\ ((forall q, ~ In (ch, q) l) ->
     batches_to ch (map (fun entry => send_confirm_req_batch entry.1 (f entry.2)) l)
     = []).
Proof.
  induction l as [| [c q0] l IH]; intros Hnd.
  - split; [intros q [] | reflexivity].
  - inversion Hnd as [| ? ? Hnotin Hnd']; subst. destruct (IH Hnd') as [IHin IHout].
    rewrite map_cons, batches_to_cons. cbn [fst snd].
    split.
    + intros q [Heq | Hin].
      * injection Heq as -> ->. rewrite N.eqb_refl.
        rewrite IHout; [reflexivity |].
        intros q' Hin'. apply Hnotin. apply list_elem_of_In in Hin'.
        change ch with (fst (ch, q')). now apply list_elem_of_fmap_2.
      * destruct (N.eqb_spec c ch) as [-> | Hne].
        -- exfalso. apply Hnotin. apply list_elem_of_In in Hin.
           change ch with (fst (ch, q)). now apply list_elem_of_fmap_2.
        -- now apply IHin.
    + intros Hout. destruct (N.eqb_spec c ch) as [-> | Hne].
      * exfalso. apply (Hout q0). now left.
      * apply IHout. intros q' Hin'. apply (Hout q'). now right.
Qed.

Lemma batch_round_to (ch : N) (m : gmap N (list (N * N))) :
  batches_to ch (batch_round m).1
  = match m !! ch with
    | Some q => [take confirm_req_hashes_max q]
    | None => []
    end.
Proof.
  unfold batch_round. cbn [fst].
  destruct (batches_to_entries ch (fun q => (fill_request confirm_req_hashes_max q).1)
              (map_to_list m) (NoDup_fst_map_to_list m)) as [Hin Hout].
  destruct (m !! ch) as [q |] eqn:Hq.
  - rewrite (Hin q), fill_request_spec; [reflexivity |].
    apply list_elem_of_In. now apply elem_of_map_to_list.
  - apply Hout. intros q Hin'. apply list_elem_of_In, elem_of_map_to_list in Hin'.
    congruence.
Qed.

Lemma batch_round_left (ch : N) (m : gmap N (list (N * N))) :
  (batch_round m).2 !! ch
  = match m !! ch with
    | Some q => match drop confirm_req_hashes_max q with
                | [] => None
                | rest => Some rest
                end
    | None => None
    end.
Proof.
  unfold batch_round. cbn [snd]. rewrite lookup_omap.
  destruct (m !! ch) as [q |]; [| reflexivity].
  unfold mbind, option_bind. rewrite fill_request_spec. cbn [snd].
  now destruct (drop confirm_req_hashes_max q).
Qed.

Lemma map_is_empty_true {V : Type} (m : gmap N V) :
  election.map_is_empty m = true <-> m = ∅.
Proof.
  unfold election.map_is_empty. split.
  - destruct (map_to_list m) eqn:H; [| discriminate].
    intros _. now apply map_to_list_empty_iff.
  - intros ->. now rewrite map_to_list_empty.
Qed.

Lemma chunked_spec :
  forall (fuel : nat) (q : list (N * N)),
  (length q <= confirm_req_hashes_max * S fuel)%nat ->
  concat (chunked fuel q) = q
  /\ Forall (fun request => (length request <= confirm_req_hashes_max)%nat)
       (chunked fuel q)
  /\ (length (chunked fuel q)
      = Nat.max 1 ((length q + 6) / confirm_req_hashes_max))%nat.
Proof.
  unfold confirm_req_hashes_max.
  induction fuel as [| fuel IH]; intros q Hlen.
  - cbn [chunked]. unfold confirm_req_hashes_max.
    rewrite (drop_ge q 7) by lia. rewrite (take_ge q 7) by lia.
    cbn [concat length]. rewrite app_nil_r. repeat split.
    + constructor; [lia | constructor].
    + assert ((length q + 6) / 7 < 2)%nat; [| lia].
      apply Nat.Div0.div_lt_upper_bound. lia.
  - cbn [chunked]. unfold confirm_req_hashes_max.
    destruct (drop 7 q) as [| x rest] eqn:Hd.
    + assert (Hq : (length q <= 7)%nat).
      { apply (f_equal (@length _)) in Hd. rewrite length_drop in Hd.
        simpl in Hd. lia. }
      rewrite (take_ge q 7) by lia.
      cbn [concat length]. rewrite app_nil_r. repeat split.
      * constructor; [lia | constructor].
      * assert ((length q + 6) / 7 < 2)%nat; [| lia].
        apply Nat.Div0.div_lt_upper_bound. lia.
    + assert (Hq : (7 < length q)%nat).
      { apply (f_equal (@length _)) in Hd. rewrite length_drop in Hd.
        simpl in Hd. lia. }
      rewrite <- Hd. destruct (IH (drop 7 q)) as (Hc & Hf & Hn).
      { rewrite length_drop. lia. }
      cbn [concat length]. rewrite Hc, take_drop. repeat split.
      * constructor; [rewrite length_take; lia | exact Hf].
      * rewrite Hn, length_drop.
        replace (length q + 6)%nat with ((length q - 7 + 6) + 1 * 7)%nat by lia.
        rewrite Nat.div_add by lia.
        assert (1 <= (length q - 7 + 6) / 7)%nat; [| lia].
        apply Nat.div_le_lower_bound; lia.
Qed.

Lemma chunked_fuel :
  forall (fuel fuel' : nat) (q : list (N * N)),
  (length q <= confirm_req_hashes_max * S fuel)%nat ->
  (length q <= confirm_req_hashes_max * S fuel')%nat ->
  chunked fuel q = chunked fuel' q.
Proof.
  unfold confirm_req_hashes_max.
  induction fuel as [| fuel IH]; intros fuel' q H1 H2.
  - destruct fuel'; cbn [chunked]; unfold confirm_req_hashes_max;
      rewrite (drop_ge q 7) by lia; reflexivity.
  - destruct fuel' as [| fuel']; cbn [chunked]; unfold confirm_req_hashes_max.
    + rewrite (drop_ge q 7) by lia. reflexivity.
    + destruct (drop 7 q) as [| x rest] eqn:Hd; [reflexivity |].
      rewrite <- Hd. f_equal. apply IH; rewrite length_drop; lia.
Qed.

Lemma batched_tasks_spec (callback_a : bool) (ch : N) :
  forall (fuel : nat) (m : gmap N (list (N * N))),
  (forall c q, m !! c = Some q -> (length q <= confirm_req_hashes_max * S fuel)%nat) ->
  batches_to ch (broadcast_confirm_req_batched_many_tasks fuel m callback_a)
  = match m !! ch with
    | Some q => chunked fuel q
    | None => []
    end.
Proof.
  induction fuel as [| fuel IH]; intros m Hb.
  - assert (He : (batch_round m).2 = ∅).
    { apply map_eq. intros c. rewrite lookup_empty, batch_round_left.
      destruct (m !! c) as [q |] eqn:Hq; [| reflexivity].
      specialize (Hb c q Hq). rewrite drop_ge; [reflexivity | lia]. }
    cbn [broadcast_confirm_req_batched_many_tasks].
    apply map_is_empty_true in He. rewrite He. cbn [negb].
    rewrite batches_to_app, batches_to_callback, app_nil_r, batch_round_to.
    destruct (m !! ch) as [q |] eqn:Hq; [| reflexivity].
    specialize (Hb ch q Hq). cbn [chunked].
    rewrite (drop_ge q) by lia. reflexivity.
  - cbn [broadcast_confirm_req_batched_many_tasks].
    destruct (election.map_is_empty (batch_round m).2) eqn:He; cbn [negb].
    + apply map_is_empty_true in He.
      rewrite batches_to_app, batches_to_callback, app_nil_r, batch_round_to.
      destruct (m !! ch) as [q |] eqn:Hq; [| reflexivity].
      cbn [chunked].
      assert (Hl : (batch_round m).2 !! ch = None) by now rewrite He.
      rewrite batch_round_left, Hq in Hl.
      destruct (drop confirm_req_hashes_max q); [reflexivity | discriminate].
    + rewrite batches_to_app, batch_round_to, IH.
      * rewrite batch_round_left.
        destruct (m !! ch) as [q |] eqn:Hq; [| reflexivity].
        cbn [chunked].
        destruct (drop confirm_req_hashes_max q) eqn:Hd; [reflexivity |].
        reflexivity.
      * intros c q Hq. rewrite batch_round_left in Hq.
        destruct (m !! c) as [q0 |] eqn:Hq0; [| discriminate].
        specialize (Hb c q0 Hq0).
        assert (q = drop confirm_req_hashes_max q0) as ->.
        { destruct (drop confirm_req_hashes_max q0); congruence. }
        rewrite length_drop. unfold confirm_req_hashes_max in *. lia.
Qed.

Lemma length_concat_In {A : Type} (x : list A) :
  forall l : list (list A), In x l -> (length x <= length (concat l))%nat.
Proof.
  induction l as [| y l IH]; intros []; cbn [concat]; rewrite length_app.
  - subst. lia.
  - specialize (IH H). lia.
Qed.

Lemma batched_tasks_callback (callback_a : bool) :
  forall (fuel : nat) (m : gmap N (list (N * N))),
  (forall c q, m !! c = Some q -> (length q <= confirm_req_hashes_max * S fuel)%nat) ->
  exists requests,
    broadcast_confirm_req_batched_many_tasks fuel m callback_a
    = requests ++ (if callback_a then [callback] else [])
    /\ Forall (fun x => x <> callback) requests.
Proof.
  assert (Hround : forall m, Forall (fun x => x <> callback) (batch_round m).1).
  { intros m. unfold batch_round. cbn [fst]. apply Forall_forall.
    intros x Hin. apply list_elem_of_In, in_map_iff in Hin.
    destruct Hin as (entry & <- & _).
    discriminate. }
  induction fuel as [| fuel IH]; intros m Hb.
  - assert (He : (batch_round m).2 = ∅).
    { apply map_eq. intros c. rewrite lookup_empty, batch_round_left.
      destruct (m !! c) as [q |] eqn:Hq; [| reflexivity].
      specialize (Hb c q Hq). rewrite drop_ge; [reflexivity | lia]. }
    cbn [broadcast_confirm_req_batched_many_tasks].
    apply map_is_empty_true in He. rewrite He. cbn [negb].
    exists (batch_round m).1. split; [reflexivity | apply Hround].
  - cbn [broadcast_confirm_req_batched_many_tasks].
    destruct (election.map_is_empty (batch_round m).2) eqn:He; cbn [negb].
    + exists (batch_round m).1. split; [reflexivity | apply Hround].
    + destruct (IH (batch_round m).2) as (requests & Heq & Hall).
      * intros c q Hq. rewrite batch_round_left in Hq.
        destruct (m !! c) as [q0 |] eqn:Hq0; [| discriminate].
        specialize (Hb c q0 Hq0).
        assert (q = drop confirm_req_hashes_max q0) as ->.
        { destruct (drop confirm_req_hashes_max q0); congruence. }
        rewrite length_drop. unfold confirm_req_hashes_max in *. lia.
      * exists ((batch_round m).1 ++ requests). rewrite Heq, app_assoc.
        split; [reflexivity |]. apply Forall_app. split; [apply Hround | exact Hall].
Qed.

Lemma bundle_fuel (m : gmap N (list (N * N))) (c : N) (q : list (N * N)) :
  m !! c = Some q ->
  (length q <= confirm_req_hashes_max
               * S (length (concat (map snd (map_to_list m)))))%nat.
Proof.
  intros Hq.
  assert (length q <= length (concat (map snd (map_to_list m))))%nat.
  { apply length_concat_In. apply in_map_iff. exists (c, q). split; [reflexivity |].
    apply list_elem_of_In. now apply elem_of_map_to_list. }
  unfold confirm_req_hashes_max. lia.
Qed.

(** X19: [broadcast_confirm_req_batched_many], with the tasks it
    schedules, sends to each channel of the bundle the pairs of its deque
    in order and once each, in requests of at most
    [confirm_req_hashes_max] pairs and in as few requests as that allows;
    a channel with an empty deque gets one empty request, a channel that
    is not in the bundle none. The callback, if there is one, runs once,
    after the last request, also for an empty bundle. *)
Theorem broadcast_confirm_req_batched_many_chunks
    (m : gmap N (list (N * N))) (callback_a : bool) (ch : N) :
  match m !! ch with
  | None => batches_to ch (broadcast_confirm_req_batched_many m callback_a) = []
  | Some q =>
      batches_to ch (broadcast_confirm_req_batched_many m callback_a)
      = chunked (length q) q
      /\ concat (chunked (length q) q) = q
      /\ Forall (fun request => (length request <= confirm_req_hashes_max)%nat)
           (chunked (length q) q)
      /\ (length (chunked (length q) q)
          = Nat.max 1 ((length q + 6) / confirm_req_hashes_max))%nat
  end
  /\ exists requests,
       broadcast_confirm_req_batched_many m callback_a
       = requests ++ (if callback_a then [callback] else [])
       /\ Forall (fun x => x <> callback) requests.
Proof.
  unfold broadcast_confirm_req_batched_many. split.
  - rewrite batched_tasks_spec by apply bundle_fuel.
    destruct (m !! ch) as [q |] eqn:Hq; [| reflexivity].
    split.
    + apply chunked_fuel; [exact (bundle_fuel m ch q Hq) |].
      unfold confirm_req_hashes_max. lia.
    + apply chunked_spec. unfold confirm_req_hashes_max. lia.
  - apply batched_tasks_callback. apply bundle_fuel.
Qed.

(** X19 for the nine pairs of channel 3: a request of seven pairs and one
    of two. *)
Lemma broadcast_confirm_req_batched_many_chunks_witness :
  batches_to 3 (broadcast_confirm_req_batched_many sample_bundle true)
  = chunked (length sample_pairs) sample_pairs
  /\ (length (chunked (length sample_pairs) sample_pairs)
      = Nat.max 1 ((length sample_pairs + 6) / confirm_req_hashes_max))%nat.
Proof.
  pose proof (proj1 (broadcast_confirm_req_batched_many_chunks
                       sample_bundle true 3)) as Hsent.
  destruct Hsent as (Hrequests & _ & _ & Hcount).
  split; [exact Hrequests | exact Hcount].
Defined.

End broadcasts.

(** ** The optimistic scheduler *)

Section scheduler.
Import optimistic.

Variable config : optimistic_config.

Lemma contains_false (s : optimistic.t) (account_a : N) :
  contains s account_a = false -> ~ In account_a (map account (candidates s)).
Proof.
  unfold contains. intros Hc Hin. apply in_map_iff in Hin.
  destruct Hin as (c & Hacc & Hin).
  assert (Ht : existsb (fun c => account c =? account_a) (candidates s) = true).
  { apply existsb_exists. exists c. split; [exact Hin | now apply N.eqb_eq]. }
  congruence.
Qed.

Lemma activate_cases (clock_now : Z) (account_a block_count height : N)
    (s : optimistic.t) :
  (activate config clock_now account_a block_count height s = (false, s)
   /\ (enabled config = false
       \/ activate_predicate config block_count height = false
       \/ contains s account_a = true
       \/ max_size config <= N.of_nat (length (candidates s))))
  \/ (activate config clock_now account_a block_count height s
      = (true, {| candidates := candidates s
                                ++ [{| account := account_a; timestamp := clock_now |}];
                  activated := activated s + 1 |})
      /\ enabled config = true
      /\ activate_predicate config block_count height = true
      /\ contains s account_a = false
      /\ N.of_nat (length (candidates s)) < max_size config).
Proof.
  unfold activate.
  destruct (enabled config); cbn [negb]; [| left; auto].
  destruct (activate_predicate config block_count height); [| left; auto].
  destruct (contains s account_a); [left; auto 6 |].
  destruct (N.leb_spec (max_size config) (N.of_nat (length (candidates s)))).
  - left. auto 6.
  - right. auto 6.
Qed.

Lemma activate_inv (clock_now : Z) (account_a block_count height : N)
    (s : optimistic.t) :
  candidates_inv config s ->
  candidates_inv config (activate config clock_now account_a block_count height s).2.
Proof.
  intros [Hnd Hlen].
  destruct (activate_cases clock_now account_a block_count height s)
    as [[-> _] | (-> & _ & _ & Hc & Hlt)]; [now split |].
  unfold candidates_inv. cbn [snd candidates]. split.
  - rewrite List.map_app. apply NoDup_app. split; [exact Hnd |]. split.
    + intros x Hin [Heq | []]%list_elem_of_In. cbn in Heq. subst x.
      apply (contains_false s account_a Hc). now apply list_elem_of_In.
    + cbn. apply NoDup_singleton.
  - rewrite length_app. cbn [length]. lia.
Qed.

(** X20: whatever [activate] calls and loop steps the optimistic scheduler
    has seen, no account is a candidate twice and there are no more than
    [max_size] candidates. *)
Theorem candidates_unique_and_bounded (s : optimistic.t) :
  scheduled config s -> candidates_inv config s.
Proof.
  induction 1 as [| clock_now account_a block_count height s _ IH
                  | s s' candidate _ IH Hpop].
  - split; [constructor | cbn; apply N.le_0_l].
  - now apply activate_inv.
  - unfold pop_front in Hpop. destruct IH as [Hnd Hlen].
    destruct (candidates s) as [| c rest] eqn:Hc; [discriminate |].
    injection Hpop as <- <-. unfold candidates_inv. cbn [candidates] in *. split.
    + cbn [map] in Hnd. now apply NoDup_cons in Hnd.
    + cbn [length] in Hlen. lia.
Qed.

End scheduler.

(** X20 after the activation of account 7, with 40 blocks and none
    confirmed. *)
Lemma candidates_unique_and_bounded_witness :
  candidates_inv sample_optimistic_config
    (optimistic.activate sample_optimistic_config 0%Z 7 40 0
       {| optimistic.candidates := []; optimistic.activated := 0 |}).2.
Proof.
  apply (candidates_unique_and_bounded sample_optimistic_config
           (optimistic.activate sample_optimistic_config 0%Z 7 40 0
              {| optimistic.candidates := []; optimistic.activated := 0 |}).2).
  apply (scheduled_activate sample_optimistic_config 0%Z 7 40 0
           {| optimistic.candidates := []; optimistic.activated := 0 |}).
  apply scheduled_start.
Defined.
